(** * Fraud-detection dashboard: filtering, refresh, mock data, explanations

    A shallow embedding of the client-side logic of the dashboard page
    (the [Index] component with [generateMockTransactions],
    [fetchTransactions] and [applyFilters]), of the reductions of
    [ChartsPanel] and of the item normalisation of [ExplainModal].

    Conventions of the embedding.
    - A JavaScript number that holds an amount, a score or a random draw is
      an exact rational ([Q]); one that holds an index, a page or a count is
      an exact integer ([Z]).  NaN, infinities and binary rounding are
      outside the model.
    - A timestamp is the instant it denotes, in milliseconds since the
      epoch, so [new Date(t.tx.timestamp)] is the identity.
    - React state is a record threaded through the handlers; setters take
      effect in program order. *)

From Stdlib Require Import QArith ZArith List String Ascii Bool Lia Lqa.
From Stdlib Require Import Qround DecimalString DecimalZ.
From Stdlib Require Import Qminmax Qabs Permutation Sorted.
Import ListNotations.

Local Open Scope string_scope.
Local Open Scope list_scope.
Local Open Scope Z_scope.

(** ** JavaScript built-ins used by the component *)

Module Js.

(** [String.prototype.toLowerCase] on the ASCII range: the letters
    [A]..[Z] move to [a]..[z], every other code unit is kept. *)
Definition lowerChar (c : ascii) : ascii :=
  let n := nat_of_ascii c in
  if ((65 <=? n) && (n <=? 90))%nat then ascii_of_nat (n + 32) else c.

Fixpoint toLowerCase (s : string) : string :=
  match s with
  | EmptyString => EmptyString
  | String c s' => String (lowerChar c) (toLowerCase s')
  end.

(** [s.includes(q)]: [q] occurs in [s] at some position. *)
Fixpoint includes (s q : string) : bool :=
  if String.prefix q s then true
  else match s with
       | EmptyString => false
       | String _ s' => includes s' q
       end.

(** Truthiness of a string: the empty string is the only falsy one. *)
Definition truthy (s : string) : bool :=
  match s with EmptyString => false | String _ _ => true end.

(** [arr.includes(x)] on an array of strings (strict equality). *)
Definition arrayIncludes (arr : list string) (x : string) : bool :=
  existsb (fun y => String.eqb y x) arr.

(** [arr.slice(start, end)], with the relative-index rules of the
    language: a negative index counts from the end, and both indices are
    clamped to the bounds of the array. *)
Definition relIndex (len i : Z) : Z :=
  if i <? 0 then Z.max (len + i) 0 else Z.min i len.

Definition slice {A : Type} (arr : list A) (start stop : Z) : list A :=
  let len := Z.of_nat (List.length arr) in
  let k := relIndex len start in
  let final := relIndex len stop in
  firstn (Z.to_nat (final - k)) (skipn (Z.to_nat k) arr).

(** Decimal rendering of an integer inside a template literal. *)
Definition numToString (z : Z) : string :=
  NilZero.string_of_int (Z.to_int z).

(** [a > b] on numbers. *)
Definition gt (a b : Q) : bool := negb (Qle_bool a b).

End Js.

(** ** Data model *)

Record Transaction := mkTransaction {
  transaction_id : string;
  user_id : string;
  amount : Q;
  country : string;
  device : string;
  merchant : string;
  timestamp : Z
}.

(** One element of [data.results]: [{ tx, score, label }]. *)
Record Row := mkRow {
  tx : Transaction;
  score : Q;
  label : bool
}.

(** The filter fields of the component state. *)
Record FilterSpec := mkFilterSpec {
  searchQuery : string;
  amountRange : Q * Q;
  selectedCountries : list string;
  selectedMerchants : list string;
  fraudOnly : bool;
  dateFrom : option Z;
  dateTo : option Z
}.

(** The notifications the page raises through [toast]. *)
Inductive Toast :=
| HighRiskToast (count : nat)   (* toast.error("... N new high-risk transaction(s) detected!") *)
| DemoDataToast                 (* toast.error("Using demo data") *)
| RefreshedToast.               (* toast.success("Refreshed") *)

Record State := mkState {
  transactions : list Row;
  allTransactions : list Row;
  loading : bool;
  demoMode : bool;
  page : Z;
  perPage : Z;
  total : Z;
  filters : FilterSpec;
  previousTransactionsRef : list Row;
  toasts : list Toast
}.

(** What the page consults outside its own state: the local time zone
    (offset of local time from UTC, in milliseconds), the successive
    results of [Math.random()], and the clock read by [new Date()]. *)
Record Host := mkHost {
  tzOffset : Z;
  draws : nat -> Q;
  clock : Z
}.

(** ** State setters *)

Definition setTransactions (v : list Row) (s : State) : State :=
  mkState v (allTransactions s) (loading s) (demoMode s) (page s) (perPage s)
          (total s) (filters s) (previousTransactionsRef s) (toasts s).

Definition setAllTransactions (v : list Row) (s : State) : State :=
  mkState (transactions s) v (loading s) (demoMode s) (page s) (perPage s)
          (total s) (filters s) (previousTransactionsRef s) (toasts s).

Definition setLoading (v : bool) (s : State) : State :=
  mkState (transactions s) (allTransactions s) v (demoMode s) (page s) (perPage s)
          (total s) (filters s) (previousTransactionsRef s) (toasts s).

Definition setDemoMode (v : bool) (s : State) : State :=
  mkState (transactions s) (allTransactions s) (loading s) v (page s) (perPage s)
          (total s) (filters s) (previousTransactionsRef s) (toasts s).

Definition setPage (v : Z) (s : State) : State :=
  mkState (transactions s) (allTransactions s) (loading s) (demoMode s) v (perPage s)
          (total s) (filters s) (previousTransactionsRef s) (toasts s).

Definition setTotal (v : Z) (s : State) : State :=
  mkState (transactions s) (allTransactions s) (loading s) (demoMode s) (page s) (perPage s)
          v (filters s) (previousTransactionsRef s) (toasts s).

Definition setFilters (v : FilterSpec) (s : State) : State :=
  mkState (transactions s) (allTransactions s) (loading s) (demoMode s) (page s) (perPage s)
          (total s) v (previousTransactionsRef s) (toasts s).

Definition setPrevious (v : list Row) (s : State) : State :=
  mkState (transactions s) (allTransactions s) (loading s) (demoMode s) (page s) (perPage s)
          (total s) (filters s) v (toasts s).

Definition toast (t : Toast) (s : State) : State :=
  mkState (transactions s) (allTransactions s) (loading s) (demoMode s) (page s) (perPage s)
          (total s) (filters s) (previousTransactionsRef s) (toasts s ++ [t]).

(** ** Filter engine: [applyFilters] *)

Definition msPerDay : Z := 86400000.

(** [d.setHours(0, 0, 0, 0)]: midnight of the local day that contains [d]. *)
Definition setHoursStart (h : Host) (d : Z) : Z :=
  d - ((d + tzOffset h) mod msPerDay).

(** [d.setHours(23, 59, 59, 999)]: last millisecond of that local day. *)
Definition setHoursEnd (h : Host) (d : Z) : Z :=
  setHoursStart h d + (msPerDay - 1).

Definition searchMatch (q : string) (t : Row) : bool :=
  Js.includes (Js.toLowerCase (user_id (tx t))) (Js.toLowerCase q)
  || Js.includes (Js.toLowerCase (merchant (tx t))) (Js.toLowerCase q)
  || Js.includes (Js.toLowerCase (country (tx t))) (Js.toLowerCase q).

Definition amountMatch (r : Q * Q) (t : Row) : bool :=
  Qle_bool (fst r) (amount (tx t)) && Qle_bool (amount (tx t)) (snd r).

(** The chain of filter passes of [applyFilters], up to [filtered.length]. *)
Definition filterRows (h : Host) (f : FilterSpec) (data : list Row) : list Row :=
  let filtered := data in
  let filtered :=
    if Js.truthy (searchQuery f)
    then filter (searchMatch (searchQuery f)) filtered else filtered in
  let filtered := filter (amountMatch (amountRange f)) filtered in
  let filtered :=
    if (0 <? Z.of_nat (List.length (selectedCountries f)))
    then filter (fun t => Js.arrayIncludes (selectedCountries f) (country (tx t))) filtered
    else filtered in
  let filtered :=
    if (0 <? Z.of_nat (List.length (selectedMerchants f)))
    then filter (fun t => Js.arrayIncludes (selectedMerchants f) (merchant (tx t))) filtered
    else filtered in
  let filtered := if fraudOnly f then filter (fun t => label t) filtered else filtered in
  let filtered :=
    match dateFrom f with
    | Some d => filter (fun t => setHoursStart h d <=? timestamp (tx t)) filtered
    | None => filtered
    end in
  let filtered :=
    match dateTo f with
    | Some d => filter (fun t => timestamp (tx t) <=? setHoursEnd h d) filtered
    | None => filtered
    end in
  filtered.

Definition applyFilters (h : Host) (s : State) (data : list Row) : State :=
  let filtered := filterRows h (filters s) data in
  let s := setTotal (Z.of_nat (List.length filtered)) s in
  let start := (page s - 1) * perPage s in
  setTransactions (Js.slice filtered start (start + perPage s)) s.

(** The initial values given to [useState] for the filter fields; they are
    also what [resetFilters] restores. *)
Definition defaultFilters : FilterSpec :=
  mkFilterSpec "" (0%Q, 5000%Q) [] [] false None None.

Definition initialState : State :=
  mkState [] [] false false 1 10 0 defaultFilters [] [].

(** ** Filter and pagination handlers *)

(** A change made through the search box or the filter panel: each one
    calls the setter of a single filter field. *)
Inductive FilterEvent :=
| SearchChanged (q : string)
| AmountRangeChanged (r : Q * Q)
| CountriesChanged (cs : list string)
| MerchantsChanged (ms : list string)
| FraudOnlyChanged (b : bool)
| DateRangeChanged (from to : option Z).

Definition updateFilters (ev : FilterEvent) (f : FilterSpec) : FilterSpec :=
  match ev with
  | SearchChanged q =>
      mkFilterSpec q (amountRange f) (selectedCountries f) (selectedMerchants f)
                   (fraudOnly f) (dateFrom f) (dateTo f)
  | AmountRangeChanged r =>
      mkFilterSpec (searchQuery f) r (selectedCountries f) (selectedMerchants f)
                   (fraudOnly f) (dateFrom f) (dateTo f)
  | CountriesChanged cs =>
      mkFilterSpec (searchQuery f) (amountRange f) cs (selectedMerchants f)
                   (fraudOnly f) (dateFrom f) (dateTo f)
  | MerchantsChanged ms =>
      mkFilterSpec (searchQuery f) (amountRange f) (selectedCountries f) ms
                   (fraudOnly f) (dateFrom f) (dateTo f)
  | FraudOnlyChanged b =>
      mkFilterSpec (searchQuery f) (amountRange f) (selectedCountries f)
                   (selectedMerchants f) b (dateFrom f) (dateTo f)
  | DateRangeChanged from to =>
      mkFilterSpec (searchQuery f) (amountRange f) (selectedCountries f)
                   (selectedMerchants f) (fraudOnly f) from to
  end.

(** The effect on [page, searchQuery, amountRange, ..., allTransactions]:
    it re-runs the filter engine on the whole set. *)
Definition filtersEffect (h : Host) (s : State) : State :=
  applyFilters h s (allTransactions s).

(** A filter change followed by the effect it triggers. *)
Definition onFilterEvent (h : Host) (ev : FilterEvent) (s : State) : State :=
  filtersEffect h (setFilters (updateFilters ev (filters s)) s).

(** [resetFilters], followed by the effect. *)
Definition resetFilters (h : Host) (s : State) : State :=
  filtersEffect h (setPage 1 (setFilters defaultFilters s)).

(** Moving to another page, followed by the effect. *)
Definition goToPage (h : Host) (p : Z) (s : State) : State :=
  filtersEffect h (setPage p s).

(** ** Mock data generator: [generateMockTransactions] *)

(** Computations that consume results of [Math.random()] in order. *)
Definition Rand (A : Type) : Type := (nat -> Q) -> A * (nat -> Q).

Definition ret {A : Type} (a : A) : Rand A := fun s => (a, s).

Definition bind {A B : Type} (m : Rand A) (k : A -> Rand B) : Rand B :=
  fun s => let (a, s') := m s in k a s'.

Definition Math_random : Rand Q :=
  fun s => (s 0%nat, fun k => s (S k)).

Notation "x <- m ;; k" := (bind m (fun x => k))
  (at level 61, m at next level, right associativity).

Definition MOCK_MERCHANTS : list string :=
  ["Amazon"; "Uber"; "Apple Store"; "Walmart"; "Target"; "Netflix"; "Steam"].

(** [parseFloat(x.toFixed(2))] for [x >= 0], which is where the generator
    uses it: the multiple of 1/100 nearest to [x], the larger one when two
    are equally near. *)
Definition toFixed2 (x : Q) : Q :=
  Qmake (Qfloor (x * 100 + (1 # 2))) 100.

(** [arr[Math.floor(r * n)]]; a draw lies in [0, 1), so the index is in
    range and the default is not reached. *)
Definition pick (arr : list string) (r : Q) : string :=
  nth (Z.to_nat (Qfloor (r * inject_Z (Z.of_nat (List.length arr))))) arr "".

Definition fraudThreshold : Q := 7 # 10.

(** The object pushed at index [i], given the seven draws of the
    iteration in the order in which the body evaluates them. *)
Definition mockRecord (now offset i : Z)
  (r_amt r_fraud r_user r_country r_device r_merchant r_score : Q) : Row :=
  let amt := (r_amt * 5000 + 100)%Q in
  let isFraud := Js.gt r_fraud fraudThreshold in
  mkRow
    (mkTransaction
       ("TX" ++ Js.numToString (offset + i + 1))
       ("U" ++ Js.numToString (Qfloor (r_user * 200)))
       (toFixed2 amt)
       (pick ["US"; "IN"; "GB"; "CA"] r_country)
       (pick ["mobile"; "desktop"] r_device)
       (pick MOCK_MERCHANTS r_merchant)
       now)
    (if isFraud then r_score * (5 # 10) + (5 # 10) else r_score * (4 # 10))%Q
    isFraud.

(** The body of the loop, for index [i]. *)
Definition mockRow (now offset i : Z) : Rand Row :=
  r_amt <- Math_random ;;
  r_fraud <- Math_random ;;
  r_user <- Math_random ;;
  r_country <- Math_random ;;
  r_device <- Math_random ;;
  r_merchant <- Math_random ;;
  r_score <- Math_random ;;
  ret (mockRecord now offset i
                  r_amt r_fraud r_user r_country r_device r_merchant r_score).

(** [for (let i = 0; i < count; i++) arr.push(...)], with [n] the number
    of iterations still to run. *)
Fixpoint mockLoop (now offset : Z) (n : nat) (i : Z) : Rand (list Row) :=
  match n with
  | O => ret []
  | S n' =>
      row <- mockRow now offset i ;;
      rest <- mockLoop now offset n' (i + 1) ;;
      ret (row :: rest)
  end.

Definition generateMockTransactions (h : Host) (count offset : Z) : list Row :=
  fst (mockLoop (clock h) offset (Z.to_nat count) 0 (draws h)).

(** ** Refresh controller: [fetchTransactions] *)

(** What [fetch] and [res.json()] can deliver. *)
Inductive Body :=
| Malformed
| Json (results : option (list Row)).

Inductive Response :=
| NetworkError
| Http (status : Z) (body : Body).

(** Outcome of a block of statements: normal completion or an exception. *)
Inductive Completion (A : Type) :=
| Normal (a : A)
| Throw.
Arguments Normal {A} a.
Arguments Throw {A}.

Definition res_ok (status : Z) : bool := (200 <=? status) && (status <=? 299).

(** From [await fetch(url)] to [const allData = data.results || []]. *)
Definition awaitResults (r : Response) : Completion (list Row) :=
  match r with
  | NetworkError => Throw
  | Http status body =>
      if negb (res_ok status) then Throw
      else match body with
           | Malformed => Throw
           | Json results =>
               Normal (match results with Some l => l | None => [] end)
           end
  end.

Definition sameId (a b : Row) : bool :=
  String.eqb (transaction_id (tx a)) (transaction_id (tx b)).

Definition newHighRisk (previous allData : list Row) : list Row :=
  filter (fun t => label t && Js.gt (score t) (7 # 10)
                   && negb (existsb (fun prev => sameId prev t) previous))
         allData.

(** The [try] block.  The calls of [applyFilters] made from here read the
    filter fields and the page of the state; the effect on
    [allTransactions] re-runs the engine with the same fields once the
    setters have taken effect. *)
Definition tryBlock (h : Host) (silent : bool) (r : Response) (s : State)
  : Completion State :=
  match awaitResults r with
  | Throw => Throw
  | Normal allData =>
      let s := setAllTransactions allData s in
      let s :=
        if silent && (0 <? Z.of_nat (List.length (previousTransactionsRef s)))
        then
          let found := newHighRisk (previousTransactionsRef s) allData in
          if 0 <? Z.of_nat (List.length found)
          then toast (HighRiskToast (List.length found)) s
          else s
        else s in
      let s := setPrevious allData s in
      Normal (applyFilters h s allData)
  end.

(** The [catch] block. *)
Definition catchBlock (h : Host) (silent : bool) (s : State) : Completion State :=
  let s := if negb silent then toast DemoDataToast s else s in
  let s := setDemoMode true s in
  let mockData := generateMockTransactions h 100 0 in
  let s := setAllTransactions mockData s in
  let s := setPrevious mockData s in
  Normal (applyFilters h s mockData).

(** [fetchTransactions(silent)], given what the network delivers; the
    [finally] block runs on both paths. *)
Definition fetchTransactions (h : Host) (silent : bool) (r : Response) (s : State)
  : Completion State :=
  let s := if negb silent then setLoading true s else s in
  let body :=
    match tryBlock h silent r s with
    | Normal s' => Normal s'
    | Throw => catchBlock h silent s
    end in
  match body with
  | Normal s' => Normal (if negb silent then setLoading false s' else s')
  | Throw => Throw
  end.

(** ** Aggregations of [ChartsPanel] *)

Module ChartsPanel.

(** [{ country, total, fraud, legitimate }] *)
Record CountryEntry := mkCountryEntry {
  ce_country : string;
  ce_total : Q;
  ce_fraud : Q;
  ce_legitimate : Q
}.

(** The accumulator object of the reduction: its own properties, in the
    order in which they were created.  Country codes are ordinary keys,
    none of them a name that every object inherits. *)
Definition Acc : Type := list (string * CountryEntry).

Fixpoint get (acc : Acc) (k : string) : option CountryEntry :=
  match acc with
  | [] => None
  | (k', e) :: rest => if String.eqb k' k then Some e else get rest k
  end.

(** In-place update of the entry stored under [k]. *)
Fixpoint modify (acc : Acc) (k : string) (f : CountryEntry -> CountryEntry) : Acc :=
  match acc with
  | [] => []
  | (k', e) :: rest =>
      if String.eqb k' k then (k', f e) :: rest
      else (k', e) :: modify rest k f
  end.

Definition addTotal (a : Q) (e : CountryEntry) : CountryEntry :=
  mkCountryEntry (ce_country e) (ce_total e + a) (ce_fraud e) (ce_legitimate e).

Definition addFraud (a : Q) (e : CountryEntry) : CountryEntry :=
  mkCountryEntry (ce_country e) (ce_total e) (ce_fraud e + a) (ce_legitimate e).

Definition addLegitimate (a : Q) (e : CountryEntry) : CountryEntry :=
  mkCountryEntry (ce_country e) (ce_total e) (ce_fraud e) (ce_legitimate e + a).

(** The callback of [transactions.reduce] for the chart by country. *)
Definition countryStep (acc : Acc) (t : Row) : Acc :=
  let country := country (tx t) in
  let acc :=
    match get acc country with
    | None => acc ++ [(country, mkCountryEntry country 0 0 0)]
    | Some _ => acc
    end in
  let acc := modify acc country (addTotal (amount (tx t))) in
  if label t
  then modify acc country (addFraud (amount (tx t)))
  else modify acc country (addLegitimate (amount (tx t))).

Definition countryData (transactions : list Row) : Acc :=
  fold_left countryStep transactions [].

(** [Object.values(countryData)] *)
Definition values (acc : Acc) : list CountryEntry := map snd acc.

(** The two [value] fields of [fraudData]. *)
Definition fraudulentCount (transactions : list Row) : nat :=
  List.length (filter (fun t => label t) transactions).

Definition legitimateCount (transactions : list Row) : nat :=
  List.length (filter (fun t => negb (label t)) transactions).

(** What an entry contributes to the split by fraud and legitimate. *)
Definition fraudPlusLegitimate (e : CountryEntry) : Q :=
  ce_fraud e + ce_legitimate e.

(** Sums used to state the conservation of totals. *)
Definition sumQ {A : Type} (f : A -> Q) (l : list A) : Q :=
  fold_right (fun x acc => f x + acc)%Q 0%Q l.

End ChartsPanel.

(** ** Item normalisation of [ExplainModal] *)

Module ExplainModal.

(** A property of a payload object: missing (or [undefined]), [null], or
    holding a value. *)
Inductive Field (A : Type) :=
| Undefined
| Null
| Value (a : A).
Arguments Undefined {A}.
Arguments Null {A}.
Arguments Value {A} a.

(** A raw feature value as the backend sends it. *)
Inductive Raw :=
| RawNum (q : Q)
| RawStr (s : string)
| RawBool (b : bool).

(** One element of [explain.explanations], with both spellings of each
    of its three properties. *)
Record Item := mkItem {
  it_feature : Field string;
  it_feature_name : Field string;
  it_shap_value : Field Q;
  it_shapValue : Field Q;
  it_value : Field Raw;
  it_feature_value : Field Raw
}.

(** The canonical shape: [{ feature, shap_value, raw_value }]. *)
Record Canonical := mkCanonical {
  feature : string;
  shap_value : Q;
  raw_value : option Raw
}.

(** A destructuring default [{ x = d }]: used only when the property is
    [undefined]. *)
Definition orDefault {A : Type} (x d : Field A) : Field A :=
  match x with Undefined => d | _ => x end.

(** Nullish coalescing [x ?? y]. *)
Definition coalesce {A : Type} (x y : Field A) : Field A :=
  match x with Value _ => x | _ => y end.

(** The callback of [rawItems.map]. *)
Definition normalize (it : Item) : Canonical :=
  let feature := it_feature it in
  let feature_name := orDefault (it_feature_name it) feature in
  let shap_value := it_shap_value it in
  let shapValue := orDefault (it_shapValue it) shap_value in
  let value := it_value it in
  let feature_value := orDefault (it_feature_value it) value in
  mkCanonical
    (match coalesce feature_name (Value "unknown") with
     | Value s => s | _ => "unknown" end)
    (match coalesce (coalesce shapValue shap_value) (Value 0%Q) with
     | Value q => q | _ => 0%Q end)
    (match coalesce (coalesce feature_value value) Null with
     | Value v => Some v | _ => None end).

Definition items (rawItems : list Item) : list Canonical :=
  map normalize rawItems.

End ExplainModal.

(** ** The properties of the filter engine, as the specification words them *)

(** [q] occurs in [s]. *)
Definition occursIn (q s : string) : Prop :=
  exists pre suf : string, s = (pre ++ q ++ suf)%string.

(** Equality of two strings up to the case of their letters. *)
Definition sameIgnoringCase (a b : string) : Prop :=
  Js.toLowerCase a = Js.toLowerCase b.

(** Case-insensitive substring match: some substring of [s] equals [q] up
    to case. *)
Definition matchesIgnoringCase (s q : string) : Prop :=
  exists u : string, occursIn u s /\ sameIgnoringCase u q.

(** [m] is midnight of the local day of [d]: local time is UTC shifted by
    the offset of the host. *)
Definition isLocalMidnightOf (h : Host) (d m : Z) : Prop :=
  (m + tzOffset h) mod msPerDay = 0 /\ m <= d < m + msPerDay.

(** All the active predicates of a filter specification hold of a row. *)
Record Satisfies (h : Host) (f : FilterSpec) (t : Row) : Prop := mkSatisfies {
  sat_search :
    searchQuery f <> "" ->
    matchesIgnoringCase (user_id (tx t)) (searchQuery f)
    \/ matchesIgnoringCase (merchant (tx t)) (searchQuery f)
    \/ matchesIgnoringCase (country (tx t)) (searchQuery f);
  sat_amount :
    (fst (amountRange f) <= amount (tx t) /\ amount (tx t) <= snd (amountRange f))%Q;
  sat_country :
    selectedCountries f <> [] -> In (country (tx t)) (selectedCountries f);
  sat_merchant :
    selectedMerchants f <> [] -> In (merchant (tx t)) (selectedMerchants f);
  sat_fraud :
    fraudOnly f = true -> label t = true;
  sat_from :
    forall d m, dateFrom f = Some d -> isLocalMidnightOf h d m ->
                m <= timestamp (tx t);
  sat_to :
    forall d m, dateTo f = Some d -> isLocalMidnightOf h d m ->
                timestamp (tx t) <= m + (msPerDay - 1)
}.

(** The same conjunction as a test on one row. *)
Definition passesAll (h : Host) (f : FilterSpec) (t : Row) : bool :=
  (negb (Js.truthy (searchQuery f)) || searchMatch (searchQuery f) t)
  && amountMatch (amountRange f) t
  && (match selectedCountries f with
      | [] => true
      | _ => Js.arrayIncludes (selectedCountries f) (country (tx t)) end)
  && (match selectedMerchants f with
      | [] => true
      | _ => Js.arrayIncludes (selectedMerchants f) (merchant (tx t)) end)
  && (negb (fraudOnly f) || label t)
  && (match dateFrom f with
      | Some d => setHoursStart h d <=? timestamp (tx t) | None => true end)
  && (match dateTo f with
      | Some d => timestamp (tx t) <=? setHoursEnd h d | None => true end).

(** The id of a row, and the notification a successful refresh is expected
    to raise: one notice carrying the number of detected rows, when the
    refresh is silent, a previous snapshot exists (the reference starts as
    the empty array and is non-empty once a snapshot is held) and the
    detected set is not empty. *)
Definition rowId (t : Row) : string := transaction_id (tx t).

Definition highRiskNotice (silent : bool) (previous allData : list Row)
  : list Toast :=
  if silent
  then match previous with
       | [] => []
       | _ :: _ =>
           match newHighRisk previous allData with
           | [] => []
           | found => [HighRiskToast (List.length found)]
           end
       end
  else [].

(** The set a refresh installs: the fetched batch, or the mock data when
    the fetch fails. *)
Definition installedSet (h : Host) (r : Response) : list Row :=
  match awaitResults r with
  | Normal allData => allData
  | Throw => generateMockTransactions h 100 0
  end.

(** The page shown for page index [p], everything else unchanged. *)
Definition pageItems (h : Host) (s : State) (data : list Row) (p : Z) : list Row :=
  transactions (applyFilters h (setPage p s) data).

(** The page indices [1, 2, ..., n]. *)
Definition pagesUpTo (n : nat) : list Z := map Z.of_nat (seq 1 n).

(** ** The filter panel: [FilterControls] *)

Module FilterControls.

Definition COUNTRIES : list string := ["US"; "IN"; "GB"; "CA"].

Definition MERCHANTS : list string :=
  ["Amazon"; "Uber"; "Apple Store"; "Walmart"; "Target"; "Netflix"; "Steam"].

(** [toggleCountry]: the list handed to [onCountryChange]. *)
Definition toggleCountry (selectedCountries : list string) (country : string)
  : list string :=
  if Js.arrayIncludes selectedCountries country
  then filter (fun c => negb (String.eqb c country)) selectedCountries
  else selectedCountries ++ [country].

(** [toggleMerchant]: the list handed to [onMerchantChange]. *)
Definition toggleMerchant (selectedMerchants : list string) (merchant : string)
  : list string :=
  if Js.arrayIncludes selectedMerchants merchant
  then filter (fun m => negb (String.eqb m merchant)) selectedMerchants
  else selectedMerchants ++ [merchant].

(** [dateRange]: [{ from, to }]. *)
Record DateRange := mkDateRange {
  from : option Z;
  to : option Z
}.

(** [handleFromChange]: [value] is the date typed into the "from" input,
    [None] when the input is cleared; the result is the range handed to
    [onDateRangeChange]. *)
Definition handleFromChange (dateRange : DateRange) (value : option Z) : DateRange :=
  let currentTo := to dateRange in
  let fixedTo :=
    match value, currentTo with
    | Some v, Some t => if t <? v then value else currentTo
    | _, _ => currentTo
    end in
  mkDateRange value fixedTo.

(** [handleToChange], likewise for the "to" input. *)
Definition handleToChange (dateRange : DateRange) (value : option Z) : DateRange :=
  let currentFrom := from dateRange in
  let fixedTo :=
    match currentFrom, value with
    | Some f, Some v => if v <? f then currentFrom else value
    | _, _ => value
    end in
  mkDateRange currentFrom fixedTo.

(** The filter change each callback amounts to in the page. *)
Definition dateRangeEvent (r : DateRange) : FilterEvent :=
  DateRangeChanged (from r) (to r).

End FilterControls.

(** ** Page navigation, reset and the buttons of the page *)

(** [Math.ceil(total / perPage)], for a page size other than 0. *)
Definition totalPages (s : State) : Z :=
  Qceiling (inject_Z (total s) / inject_Z (perPage s)).

(** The "previous" button: disabled on page 1, otherwise
    [setPage(p => Math.max(1, p - 1))] and the effect on [page]. *)
Definition onPreviousPage (h : Host) (s : State) : State :=
  if page s =? 1 then s
  else goToPage h (Z.max 1 (page s - 1)) s.

(** The "next" button: disabled when [page >= totalPages], otherwise
    [setPage(p => Math.min(totalPages, p + 1))] and the effect on [page]. *)
Definition onNextPage (h : Host) (s : State) : State :=
  if totalPages s <=? page s then s
  else goToPage h (Z.min (totalPages s) (page s + 1)) s.

(** [hasRows] of [TransactionTable]: the table shows its rows when there
    are some and the line "No transactions found." otherwise. *)
Definition hasRows (rows : list Row) : bool :=
  0 <? Z.of_nat (List.length rows).

(** The "Demo Mode" / "Live Mode" button.  Entering demo mode shows one
    generated page and a total of 50; leaving it starts a refresh. *)
Definition onDemoToggle (h : Host) (r : Response) (s : State) : Completion State :=
  let s' := setDemoMode (negb (demoMode s)) s in
  if negb (demoMode s)
  then
    let mockData :=
      generateMockTransactions h (perPage s) ((page s - 1) * perPage s) in
    Normal (setTotal 50 (setTransactions mockData s'))
  else fetchTransactions h false r s'.

(** The "Refresh" button: the refresh is started, the success notification
    is raised at once, and the fetch settles afterwards. *)
Definition onRefreshClick (h : Host) (r : Response) (s : State) : Completion State :=
  fetchTransactions h false r (toast RefreshedToast s).

(** ** More built-ins, used by the charts and by the explanation modal *)

Module Builtins.

(** [arr.sort(compare)].  The sort of the language is stable, so for a
    consistent comparator its result is the one of a stable insertion
    sort; a comparator result of NaN counts as 0. *)
Fixpoint insert {A : Type} (compare : A -> A -> Q) (x : A) (l : list A) : list A :=
  match l with
  | [] => [x]
  | y :: l' =>
      if Qle_bool (compare x y) 0 then x :: y :: l'
      else y :: insert compare x l'
  end.

Definition sort {A : Type} (compare : A -> A -> Q) (arr : list A) : list A :=
  fold_right (insert compare) [] arr.

(** [Math.round]: the nearest integer, the larger one on a tie. *)
Definition round (x : Q) : Z := Qfloor (x + (1 # 2)).

(** [String.prototype.toUpperCase] on the ASCII range. *)
Definition upperChar (c : ascii) : ascii :=
  let n := nat_of_ascii c in
  if ((97 <=? n) && (n <=? 122))%nat then ascii_of_nat (n - 32) else c.

Fixpoint toUpperCase (s : string) : string :=
  match s with
  | EmptyString => EmptyString
  | String c s' => String (upperChar c) (toUpperCase s')
  end.

(** [s.startsWith(p)] *)
Definition startsWith (s p : string) : bool := String.prefix p s.

Fixpoint drop (n : nat) (s : string) : string :=
  match n, s with
  | O, _ => s
  | S n', String _ s' => drop n' s'
  | S _, EmptyString => EmptyString
  end.

(** [s.replace(pattern, replacement)] with a string pattern: the first
    occurrence is replaced (the replacement is taken literally). *)
Fixpoint replace (s pattern replacement : string) : string :=
  if String.prefix pattern s
  then (replacement ++ drop (String.length pattern) s)%string
  else match s with
       | EmptyString => EmptyString
       | String c s' => String c (replace s' pattern replacement)
       end.

(** [s.replace(/c/g, replacement)] for a one-character pattern. *)
Fixpoint replaceAll (s : string) (c : ascii) (replacement : string) : string :=
  match s with
  | EmptyString => EmptyString
  | String d s' =>
      if Ascii.eqb d c then (replacement ++ replaceAll s' c replacement)%string
      else String d (replaceAll s' c replacement)
  end.

(** [s.split(c)] for a one-character separator. *)
Fixpoint split (s : string) (c : ascii) : list string :=
  match s with
  | EmptyString => [EmptyString]
  | String d s' =>
      if Ascii.eqb d c then EmptyString :: split s' c
      else match split s' c with
           | part :: parts => String d part :: parts
           | [] => [String d EmptyString]
           end
  end.

(** [parts.join(sep)] *)
Definition join (parts : list string) (sep : string) : string :=
  String.concat sep parts.

(** [parseInt(s)] for a string without leading white space or radix
    prefix: an optional sign and the longest run of decimal digits; [None]
    stands for NaN. *)
Definition isDigit (c : ascii) : bool :=
  let n := nat_of_ascii c in ((48 <=? n) && (n <=? 57))%nat.

Fixpoint digitsPrefix (s : string) : string :=
  match s with
  | EmptyString => EmptyString
  | String c s' => if isDigit c then String c (digitsPrefix s') else EmptyString
  end.

Definition parseDigits (s : string) : option Z :=
  match digitsPrefix s with
  | EmptyString => None
  | ds => option_map Z.of_uint (NilEmpty.uint_of_string ds)
  end.

Definition parseInt (s : string) : option Z :=
  match s with
  | String "-"%char s' => option_map Z.opp (parseDigits s')
  | String "+"%char s' => parseDigits s'
  | _ => parseDigits s
  end.

End Builtins.

(** ** Objects used as accumulators *)

Module Obj.

Section Keyed.

Context {K V : Type} (eqb : K -> K -> bool).

(** [o[k]], by own property, for an object given by its properties in
    creation order. *)
Fixpoint get (o : list (K * V)) (k : K) : option V :=
  match o with
  | [] => None
  | (k', v) :: rest => if eqb k' k then Some v else get rest k
  end.

(** In-place update of the value stored under [k]. *)
Fixpoint modify (o : list (K * V)) (k : K) (f : V -> V) : list (K * V) :=
  match o with
  | [] => []
  | (k', v) :: rest =>
      if eqb k' k then (k', f v) :: rest else (k', v) :: modify rest k f
  end.

(** The shape shared by the three reductions of the charts: create the
    entry of the key of the element when it is missing, then update it. *)
Definition groupStep {T : Type} (key : T -> K) (fresh : K -> V)
           (update : T -> V -> V) (o : list (K * V)) (t : T) : list (K * V) :=
  let o :=
    match get o (key t) with
    | None => o ++ [(key t, fresh (key t))]
    | Some _ => o
    end in
  modify o (key t) (update t).

End Keyed.

(** [Object.values(o)] when the keys are ordinary strings: creation order. *)
Definition values {K V : Type} (o : list (K * V)) : list V := map snd o.

(** [Object.values(o)] when the keys are array indices: ascending order of
    the keys. *)
Definition indexValues {V : Type} (o : list (Z * V)) : list V :=
  map snd (Builtins.sort (fun a b => inject_Z (fst a - fst b)) o).

End Obj.

(** ** The other reductions of [ChartsPanel] *)

Module Charts.

(** A row of [countryChartData]: [{ country, Fraud, Legitimate }]. *)
Record CountryBar := mkCountryBar {
  cb_country : string;
  cb_Fraud : Z;
  cb_Legitimate : Z
}.

Definition countryChartData (transactions : list Row) : list CountryBar :=
  map (fun data =>
         mkCountryBar (ChartsPanel.ce_country data)
                      (Builtins.round (ChartsPanel.ce_fraud data))
                      (Builtins.round (ChartsPanel.ce_legitimate data)))
      (ChartsPanel.values (ChartsPanel.countryData transactions)).

(** [new Date(ts).getHours()]: the hour of the local day. *)
Definition getHours (h : Host) (ts : Z) : Z :=
  ((ts + tzOffset h) mod msPerDay) / 3600000.

(** [{ hour, count, fraudCount }] *)
Record HourEntry := mkHourEntry {
  hour : string;
  count : Z;
  fraudCount : Z
}.

Definition addCount (e : HourEntry) : HourEntry :=
  mkHourEntry (hour e) (count e + 1) (fraudCount e).

Definition addFraudCount (e : HourEntry) : HourEntry :=
  mkHourEntry (hour e) (count e) (fraudCount e + 1).

(** The callback of the reduction by hour. *)
Definition hourlyStep (h : Host) (acc : list (Z * HourEntry)) (t : Row)
  : list (Z * HourEntry) :=
  let hour := getHours h (timestamp (tx t)) in
  let acc :=
    match Obj.get Z.eqb acc hour with
    | None => acc ++ [(hour, mkHourEntry (Js.numToString hour ++ ":00") 0 0)]
    | Some _ => acc
    end in
  let acc := Obj.modify Z.eqb acc hour addCount in
  if label t then Obj.modify Z.eqb acc hour addFraudCount else acc.

Definition hourlyData (h : Host) (transactions : list Row) : list (Z * HourEntry) :=
  fold_left (hourlyStep h) transactions [].

(** [(a, b) => parseInt(a.hour) - parseInt(b.hour)] *)
Definition compareHours (a b : HourEntry) : Q :=
  match Builtins.parseInt (hour a), Builtins.parseInt (hour b) with
  | Some x, Some y => inject_Z (x - y)
  | _, _ => 0
  end.

Definition hourlyChartData (h : Host) (transactions : list Row) : list HourEntry :=
  Builtins.sort compareHours (Obj.indexValues (hourlyData h transactions)).

(** [{ name, value, fraud }] *)
Record MerchantEntry := mkMerchantEntry {
  name : string;
  value : Z;
  fraud : Z
}.

Definition addValue (e : MerchantEntry) : MerchantEntry :=
  mkMerchantEntry (name e) (value e + 1) (fraud e).

Definition addFraud (e : MerchantEntry) : MerchantEntry :=
  mkMerchantEntry (name e) (value e) (fraud e + 1).

(** The callback of the reduction by merchant.  Merchant names are
    ordinary keys. *)
Definition merchantStep (acc : list (string * MerchantEntry)) (t : Row)
  : list (string * MerchantEntry) :=
  let merchant := merchant (tx t) in
  let acc :=
    match Obj.get String.eqb acc merchant with
    | None => acc ++ [(merchant, mkMerchantEntry merchant 0 0)]
    | Some _ => acc
    end in
  let acc := Obj.modify String.eqb acc merchant addValue in
  if label t then Obj.modify String.eqb acc merchant addFraud else acc.

Definition merchantData (transactions : list Row) : list (string * MerchantEntry) :=
  fold_left merchantStep transactions [].

Definition merchantChartData (transactions : list Row) : list MerchantEntry :=
  Js.slice
    (Builtins.sort (fun a b => inject_Z (value b - value a))
                   (Obj.values (merchantData transactions)))
    0 5.

(** The rows of a given local hour, of a given merchant, of a given
    country. *)
Definition rowsOfHour (h : Host) (hr : Z) (transactions : list Row) : list Row :=
  filter (fun t => getHours h (timestamp (tx t)) =? hr) transactions.

Definition rowsOfMerchant (m : string) (transactions : list Row) : list Row :=
  filter (fun t => String.eqb (merchant (tx t)) m) transactions.

Definition rowsOfCountry (c : string) (transactions : list Row) : list Row :=
  filter (fun t => String.eqb (country (tx t)) c) transactions.

Definition flagged (rows : list Row) : list Row := filter (fun t => label t) rows.

(** The entry expected for an hour: its label, the number of rows of that
    hour and the number of flagged ones. *)
Definition hourEntryOf (h : Host) (transactions : list Row) (hr : Z) : HourEntry :=
  mkHourEntry (Js.numToString hr ++ ":00")
              (Z.of_nat (List.length (rowsOfHour h hr transactions)))
              (Z.of_nat (List.length (flagged (rowsOfHour h hr transactions)))).

(** The hours 0, 1, ..., 23. *)
Definition hoursOfDay : list Z := map Z.of_nat (seq 0 24).

(** The entry expected for a merchant: its name, the number of its rows
    and the number of flagged ones. *)
Definition merchantEntryOf (transactions : list Row) (m : string) : MerchantEntry :=
  mkMerchantEntry m
                  (Z.of_nat (List.length (rowsOfMerchant m transactions)))
                  (Z.of_nat (List.length (flagged (rowsOfMerchant m transactions)))).

End Charts.

(** ** What one row does to the entry of its group *)

(** The two or three updates that a callback of [ChartsPanel] applies to
    the entry of the row, as one function of the entry. *)
Definition countryUpdate (t : Row) (e : ChartsPanel.CountryEntry)
  : ChartsPanel.CountryEntry :=
  if label t
  then ChartsPanel.addFraud (amount (tx t)) (ChartsPanel.addTotal (amount (tx t)) e)
  else ChartsPanel.addLegitimate (amount (tx t))
                                 (ChartsPanel.addTotal (amount (tx t)) e).

Definition hourUpdate (t : Row) (e : Charts.HourEntry) : Charts.HourEntry :=
  if label t then Charts.addFraudCount (Charts.addCount e) else Charts.addCount e.

Definition merchantUpdate (t : Row) (e : Charts.MerchantEntry)
  : Charts.MerchantEntry :=
  if label t then Charts.addFraud (Charts.addValue e) else Charts.addValue e.

(** The hour an entry of the chart by hour stands for, read back from its
    label as the comparator of the sort does. *)
Definition hourNumber (e : Charts.HourEntry) : Z :=
  match Builtins.parseInt (Charts.hour e) with Some x => x | None => 0 end.

(** The hours of the day at which some row of the data falls. *)
Definition occupiedHours (h : Host) (transactions : list Row) : list Z :=
  filter (fun hr => hasRows (Charts.rowsOfHour h hr transactions)) Charts.hoursOfDay.

(** Sum of integers over a list. *)
Definition sumZ {A : Type} (f : A -> Z) (l : list A) : Z :=
  fold_right (fun x acc => f x + acc) 0 l.

(** ** The rest of [ExplainModal] *)

Module Explain.

(** [humanLabel(fname)] *)
Definition humanLabel (fname : string) : string :=
  if negb (Js.truthy fname) then fname
  else if Builtins.startsWith fname "num__"
  then Builtins.replaceAll (Builtins.replace fname "num__" "") "_"%char " "
  else if Builtins.startsWith fname "cat__"
  then
    let rest := Builtins.replace fname "cat__" "" in
    let parts := Builtins.split rest "_"%char in
    let col := nth 0 parts "" in
    let val :=
      Builtins.join (Js.slice parts 1 (Z.of_nat (List.length parts))) "_" in
    (Builtins.toUpperCase col ++ " = " ++ val)%string
  else Builtins.replaceAll fname "_"%char " ".

(** [Bar]: the width of the bar in percent, and its colour test. *)
Definition barMax (scale : Q) : Q :=
  Qmax (if Qeq_bool scale 0 then 1 # 10 else scale) (1 # 1000000).

Definition widthPct (value scale : Q) : Z :=
  Z.min 100 (Builtins.round (Qabs value / barMax scale * 100)).

Definition isPositive (value : Q) : bool := Qle_bool 0 value.

(** [Math.abs(i.shap_value) || 0.0001] *)
Definition magnitudeOrTiny (i : ExplainModal.Canonical) : Q :=
  if Qeq_bool (Qabs (ExplainModal.shap_value i)) 0
  then 1 # 10000
  else Qabs (ExplainModal.shap_value i).

(** [maxAbs]: the scale handed to every bar. *)
Definition maxAbs (items : list ExplainModal.Canonical) : Q :=
  match map magnitudeOrTiny items with
  | [] => 1 # 10
  | x :: rest => fold_left Qmax rest x
  end.

(** The comparator of [plainSummary]:
    [(a, b) => Math.abs(b.shap_value) - Math.abs(a.shap_value)]. *)
Definition byMagnitude (a b : ExplainModal.Canonical) : Q :=
  Qabs (ExplainModal.shap_value b) - Qabs (ExplainModal.shap_value a).

(** [top] of [plainSummary]: the first item of the sorted copy; there is
    none when there are no items, and the summary is then
    "No explanation available.". *)
Definition top (items : list ExplainModal.Canonical)
  : option ExplainModal.Canonical :=
  match Builtins.sort byMagnitude items with
  | [] => None
  | t :: _ => Some t
  end.

(** [sign] of [plainSummary]: [true] for "increases", [false] for
    "decreases". *)
Definition increases (t : ExplainModal.Canonical) : bool :=
  Qle_bool 0 (ExplainModal.shap_value t).

End Explain.

(** ** Sample data *)

Module Sample.

(** A browser in the IST zone (UTC+05:30) whose random source keeps
    returning 1/2. *)
Definition host : Host := mkHost 19800000 (fun _ => 1 # 2) 1700000000000.

(** The same browser with a random source that keeps returning 99/100. *)
Definition hostHigh : Host := mkHost 19800000 (fun _ => 99 # 100) 1700000000000.

(** A random source that cycles through 0, 1/10, ..., 9/10. *)
Definition hostCycle : Host :=
  mkHost 0 (fun k => Z.of_nat (k mod 10) # 10) 1700000000000.

Definition row1 : Row :=
  mkRow (mkTransaction "TX1" "U17" 120 "US" "mobile" "Amazon" 1700000000000)
        (85 # 100) true.

Definition row2 : Row :=
  mkRow (mkTransaction "TX2" "U3" 6000 "IN" "desktop" "Uber" 1700000500000)
        (1 # 10) false.

Definition row3 : Row :=
  mkRow (mkTransaction "TX3" "U42" 250 "GB" "mobile" "Steam" 1700001000000)
        (2 # 10) false.

(** A row that is new with respect to [row1; row2; row3], flagged and
    scored 0.85. *)
Definition rowNew : Row :=
  mkRow (mkTransaction "TX4" "U8" 990 "CA" "desktop" "Netflix" 1700002000000)
        (85 # 100) true.

(** The same new row scored 0.5. *)
Definition rowNewLow : Row :=
  mkRow (mkTransaction "TX4" "U8" 990 "CA" "desktop" "Netflix" 1700002000000)
        (5 # 10) true.

Definition data : list Row := [row1; row2; row3].

(** Search for "ama", amounts in [0, 5000], country US, merchant Amazon,
    fraud only, dates from and to the day of the sample rows. *)
Definition narrow : FilterSpec :=
  mkFilterSpec "ama" (0%Q, 5000%Q) ["US"] ["Amazon"] true
               (Some 1700000000000) (Some 1700000000000).

Definition narrowState : State := setFilters narrow initialState.

(** A session that holds [data] as its previous snapshot. *)
Definition held : State :=
  setPrevious data (setAllTransactions data initialState).

(** The next batch: the rows of [data] and one new row. *)
Definition batchNew : list Row := data ++ [rowNew].

Definition batchNewLow : list Row := data ++ [rowNewLow].

Definition ok (batch : list Row) : Response := Http 200 (Json (Some batch)).

(** An explanation item that offers both spellings of each property,
    with different values. *)
Definition bothSpellings : ExplainModal.Item :=
  ExplainModal.mkItem
    (ExplainModal.Value "amount") (ExplainModal.Value "num__amount")
    (ExplainModal.Value (1 # 10)) (ExplainModal.Value (9 # 10))
    (ExplainModal.Value (ExplainModal.RawNum 1))
    (ExplainModal.Value (ExplainModal.RawNum 2)).

(** An item that uses only the alternative spellings. *)
Definition alternativeOnly : ExplainModal.Item :=
  ExplainModal.mkItem
    ExplainModal.Undefined (ExplainModal.Value "num__amount")
    ExplainModal.Undefined (ExplainModal.Value (9 # 10))
    ExplainModal.Undefined (ExplainModal.Value (ExplainModal.RawNum 2)).

(** An item that uses only the standard names, as the fallback
    explanation of the page does. *)
Definition standardOnly : ExplainModal.Item :=
  ExplainModal.mkItem
    (ExplainModal.Value "cat__country_US") ExplainModal.Undefined
    (ExplainModal.Value (-8 # 100)) ExplainModal.Undefined
    (ExplainModal.Value (ExplainModal.RawNum 1)) ExplainModal.Undefined.

(** Two rows per page, second page, no restriction but the amounts. *)
Definition pagedState : State :=
  mkState [] [] false false 2 2 0 defaultFilters [] [].

(** What the generator returns for one record when the draws are 99/100. *)
Definition mockHigh : list Row := generateMockTransactions hostHigh 1 0.

(** Eleven generated records, none of them flagged, shown on page 2. *)
Definition mock11 : list Row := generateMockTransactions host 11 0.

Definition onPage2 : State :=
  goToPage host 2 (filtersEffect host (setAllTransactions mock11 initialState)).

(** The items of the explanation the page falls back to when the explain
    request fails, for a transaction of amount 120. *)
Definition fallbackItems : list ExplainModal.Item :=
  [ ExplainModal.mkItem
      (ExplainModal.Value "num__amount") ExplainModal.Undefined
      (ExplainModal.Value (15 # 100)) ExplainModal.Undefined
      (ExplainModal.Value (ExplainModal.RawNum 120)) ExplainModal.Undefined;
    standardOnly ].

End Sample.

(** * Proofs *)

(** ** Strings *)

Section Strings.

Lemma prefix_iff (q s : string) :
  String.prefix q s = true <-> exists suf : string, s = (q ++ suf)%string.
Proof.
  revert s; induction q as [|c q IH]; intros s.
  - destruct s; simpl; split; eauto.
  - destruct s as [|d s]; simpl.
    + split; [discriminate | intros [suf H]; discriminate].
    + destruct (ascii_dec c d) as [->|Hcd].
      * rewrite IH. split; intros [suf H]; exists suf.
        -- now rewrite H.
        -- now injection H.
      * split; [discriminate | intros [suf H]; injection H; congruence].
Qed.

Lemma append_assoc (a b c : string) :
  ((a ++ b) ++ c = a ++ (b ++ c))%string.
Proof. induction a; simpl; congruence. Qed.

Lemma append_nil_r (a : string) : (a ++ "" = a)%string.
Proof. induction a; simpl; congruence. Qed.

Lemma includes_iff (s q : string) :
  Js.includes s q = true <-> occursIn q s.
Proof.
  unfold occursIn. induction s as [|c s IH].
  - cbn [Js.includes]. destruct (String.prefix q "") eqn:E.
    + split; auto. intros _. apply prefix_iff in E as [suf E].
      exists "", suf. exact E.
    + split; [discriminate|]. intros [pre [suf H]].
      destruct pre; simpl in H.
      * assert (String.prefix q "" = true) by (apply prefix_iff; eauto).
        congruence.
      * discriminate.
  - cbn [Js.includes]. destruct (String.prefix q (String c s)) eqn:E.
    + split; auto. intros _. apply prefix_iff in E as [suf E].
      exists "", suf. exact E.
    + rewrite IH. split.
      * intros [pre [suf H]]. exists (String c pre), suf. simpl. now rewrite H.
      * intros [pre [suf H]]. destruct pre as [|d pre]; simpl in H.
        -- assert (String.prefix q (String c s) = true)
             by (apply prefix_iff; eauto).
           congruence.
        -- injection H as _ H. eauto.
Qed.

Lemma toLowerCase_app (a b : string) :
  Js.toLowerCase (a ++ b) = (Js.toLowerCase a ++ Js.toLowerCase b)%string.
Proof. induction a; simpl; congruence. Qed.

(** A split of the lower-cased string comes from a split of the string. *)
Lemma toLowerCase_split (s a b : string) :
  Js.toLowerCase s = (a ++ b)%string ->
  exists a' b' : string,
    s = (a' ++ b')%string /\ Js.toLowerCase a' = a /\ Js.toLowerCase b' = b.
Proof.
  revert s; induction a as [|c a IH]; intros s H.
  - exists "", s. simpl in *. auto.
  - destruct s as [|d s]; simpl in H; [discriminate|].
    injection H as Hc H. apply IH in H as [a' [b' [-> [Ha Hb]]]].
    exists (String d a'), b'. simpl. subst. auto.
Qed.

Lemma includes_lower_iff (s q : string) :
  Js.includes (Js.toLowerCase s) (Js.toLowerCase q) = true
  <-> matchesIgnoringCase s q.
Proof.
  rewrite includes_iff. unfold matchesIgnoringCase, sameIgnoringCase, occursIn.
  split.
  - intros [pre [suf H]].
    apply toLowerCase_split in H as [pre' [rest [-> [Hpre Hrest]]]].
    apply toLowerCase_split in Hrest as [u [suf' [-> [Hu Hsuf]]]].
    exists u. split; eauto.
  - intros [u [[pre [suf ->]] Hu]].
    exists (Js.toLowerCase pre), (Js.toLowerCase suf).
    now rewrite !toLowerCase_app, Hu.
Qed.

Lemma truthy_iff (s : string) : Js.truthy s = true <-> s <> "".
Proof. destruct s; simpl; split; congruence. Qed.

Lemma arrayIncludes_iff (arr : list string) (x : string) :
  Js.arrayIncludes arr x = true <-> In x arr.
Proof.
  unfold Js.arrayIncludes. rewrite existsb_exists. split.
  - intros [y [Hy E]]. apply String.eqb_eq in E. now subst.
  - intros H. exists x. split; auto. apply String.eqb_refl.
Qed.

End Strings.

(** ** The filter chain is one filter by the conjunction *)

Section FilterEngine.

Variable h : Host.

Lemma filter_filter {A : Type} (p q : A -> bool) (l : list A) :
  filter q (filter p l) = filter (fun x => p x && q x) l.
Proof.
  induction l as [|x l IH]; simpl; auto.
  destruct (p x); simpl; [destruct (q x)|]; now rewrite IH.
Qed.

Lemma filter_true {A : Type} (l : list A) : filter (fun _ => true) l = l.
Proof. induction l; simpl; congruence. Qed.

Lemma filterRows_filter (f : FilterSpec) (data : list Row) :
  filterRows h f data = filter (passesAll h f) data.
Proof.
  unfold filterRows, passesAll. cbv zeta.
  assert (G : forall (c : bool) (p : Row -> bool) (l : list Row),
             (if c then filter p l else l) = filter (fun t => negb c || p t) l).
  { intros [] p l; simpl; [reflexivity | now rewrite filter_true]. }
  assert (L : forall (sel : list string) (g : Row -> string) (l : list Row),
             (if 0 <? Z.of_nat (List.length sel)
              then filter (fun t => Js.arrayIncludes sel (g t)) l else l)
             = filter (fun t => match sel with
                                | [] => true
                                | _ => Js.arrayIncludes sel (g t) end) l).
  { intros [|x sel] g l; [simpl; now rewrite filter_true|]. reflexivity. }
  assert (D : forall (o : option Z) (p : Z -> Row -> bool) (l : list Row),
             match o with Some d => filter (p d) l | None => l end
             = filter (fun t => match o with Some d => p d t | None => true end) l).
  { intros [d|] p l; [reflexivity | now rewrite filter_true]. }
  rewrite (D (dateTo f) (fun d t => timestamp (tx t) <=? setHoursEnd h d)).
  rewrite (D (dateFrom f) (fun d t => setHoursStart h d <=? timestamp (tx t))).
  rewrite (G (fraudOnly f)).
  rewrite (L (selectedMerchants f) (fun t => merchant (tx t))).
  rewrite (L (selectedCountries f) (fun t => country (tx t))).
  rewrite (G (Js.truthy (searchQuery f))).
  rewrite !filter_filter.
  apply filter_ext. intros t. rewrite !andb_assoc. reflexivity.
Qed.

Lemma setHoursStart_midnight (d : Z) :
  isLocalMidnightOf h d (setHoursStart h d).
Proof.
  unfold isLocalMidnightOf, setHoursStart, msPerDay.
  pose proof (Z.mod_pos_bound (d + tzOffset h) 86400000 ltac:(lia)) as B.
  split; [|lia].
  replace (d - (d + tzOffset h) mod 86400000 + tzOffset h)
    with ((d + tzOffset h) - (d + tzOffset h) mod 86400000) by lia.
  rewrite Zminus_mod_idemp_r, Z.sub_diag. reflexivity.
Qed.

Lemma localMidnight_unique (d m : Z) :
  isLocalMidnightOf h d m -> m = setHoursStart h d.
Proof.
  unfold isLocalMidnightOf, setHoursStart, msPerDay. intros [Hm Hd].
  apply Z.mod_divide in Hm; [|lia]. destruct Hm as [k Hk].
  assert (E : d - m = (d + tzOffset h) mod 86400000).
  { apply (Z.mod_unique _ _ k); lia. }
  lia.
Qed.

Lemma passesAll_iff (f : FilterSpec) (t : Row) :
  passesAll h f t = true <-> Satisfies h f t.
Proof.
  unfold passesAll. rewrite !andb_true_iff, orb_true_iff, negb_true_iff.
  split.
  - intros [[[[[[Hs Ha] Hc] Hm] Hf] Hfrom] Hto]. constructor.
    + intros Hq. apply truthy_iff in Hq.
      destruct Hs as [Hs|Hs]; [congruence|].
      unfold searchMatch in Hs. rewrite !orb_true_iff in Hs.
      rewrite <- !includes_lower_iff. tauto.
    + unfold amountMatch in Ha. apply andb_true_iff in Ha.
      rewrite !Qle_bool_iff in Ha. exact Ha.
    + intros Hne. destruct (selectedCountries f) eqn:E; [congruence|].
      now apply arrayIncludes_iff.
    + intros Hne. destruct (selectedMerchants f) eqn:E; [congruence|].
      now apply arrayIncludes_iff.
    + intros Hon. rewrite Hon in Hf. simpl in Hf. exact Hf.
    + intros d m Hd Hmid. rewrite Hd in Hfrom.
      apply localMidnight_unique in Hmid. subst m. now apply Z.leb_le.
    + intros d m Hd Hmid. rewrite Hd in Hto.
      apply localMidnight_unique in Hmid. subst m.
      apply Z.leb_le in Hto. exact Hto.
  - intros [Hs Ha Hc Hm Hf Hfrom Hto]. repeat split.
    + destruct (Js.truthy (searchQuery f)) eqn:E; [right | now left].
      apply truthy_iff in E. specialize (Hs E).
      unfold searchMatch. rewrite !orb_true_iff, !includes_lower_iff. tauto.
    + unfold amountMatch. rewrite andb_true_iff, !Qle_bool_iff. exact Ha.
    + destruct (selectedCountries f) eqn:E; auto.
      apply arrayIncludes_iff, Hc. congruence.
    + destruct (selectedMerchants f) eqn:E; auto.
      apply arrayIncludes_iff, Hm. congruence.
    + rewrite orb_true_iff, negb_true_iff.
      destruct (fraudOnly f); auto.
    + destruct (dateFrom f) as [d|]; auto.
      apply Z.leb_le, (Hfrom d); auto using setHoursStart_midnight.
    + destruct (dateTo f) as [d|]; auto.
      apply Z.leb_le. unfold setHoursEnd.
      apply (Hto d); auto using setHoursStart_midnight.
Qed.

Lemma filterRows_In (f : FilterSpec) (data : list Row) (t : Row) :
  In t (filterRows h f data) <-> In t data /\ Satisfies h f t.
Proof. now rewrite filterRows_filter, filter_In, passesAll_iff. Qed.

End FilterEngine.

(** ** Slices and pages *)

Section Pagination.

Context {A : Type}.

Lemma slice_page (l : list A) (p size : Z) :
  1 <= p -> 0 < size ->
  Js.slice l ((p - 1) * size) ((p - 1) * size + size)
  = firstn (Z.to_nat size) (skipn (Z.to_nat ((p - 1) * size)) l).
Proof.
  intros Hp Hsize. unfold Js.slice, Js.relIndex.
  set (start := (p - 1) * size). assert (0 <= start) by (unfold start; nia).
  destruct (start <? 0) eqn:E1; [apply Z.ltb_lt in E1; lia|].
  destruct (start + size <? 0) eqn:E2; [apply Z.ltb_lt in E2; lia|].
  destruct (Z_lt_le_dec start (Z.of_nat (List.length l))) as [Hlt|Hge].
  - rewrite (Z.min_l start) by lia.
    destruct (Z_le_gt_dec (start + size) (Z.of_nat (List.length l))) as [Hin|Hout].
    + rewrite Z.min_l by lia. f_equal. lia.
    + rewrite Z.min_r by lia.
      rewrite !firstn_all2; auto; rewrite length_skipn; lia.
  - rewrite !Z.min_r by lia. rewrite Z.sub_diag. simpl firstn.
    rewrite (skipn_all2 l) by lia. now rewrite firstn_nil.
Qed.

Lemma firstn_plus (a b : nat) (l : list A) :
  firstn (a + b) l = firstn a l ++ firstn b (skipn a l).
Proof.
  revert l; induction a as [|a IH]; intros l; simpl; auto.
  destruct l as [|x l]; simpl; [now rewrite firstn_nil | now rewrite IH].
Qed.

Lemma concat_pages (l : list A) (size n : nat) :
  List.concat (map (fun p => firstn size (skipn ((p - 1) * size) l)) (seq 1 n))
  = firstn (n * size) l.
Proof.
  induction n as [|n IH]; auto.
  rewrite seq_S, map_app, concat_app, IH.
  cbn [map List.concat]. rewrite app_nil_r.
  replace (1 + n - 1)%nat with n by lia.
  replace (S n * size)%nat with (n * size + size)%nat by lia.
  now rewrite firstn_plus.
Qed.

End Pagination.

(** ** The filter engine: soundness, pagination, defaults, page index *)

Section FilterClaims.

Lemma In_slice {A : Type} (l : list A) (a b : Z) (x : A) :
  In x (Js.slice l a b) -> In x l.
Proof.
  unfold Js.slice. intros H.
  rewrite <- (firstn_skipn (Z.to_nat (Js.relIndex (Z.of_nat (List.length l)) a)) l).
  apply in_or_app. right.
  rewrite <- (firstn_skipn (Z.to_nat
    (Js.relIndex (Z.of_nat (List.length l)) b
     - Js.relIndex (Z.of_nat (List.length l)) a))
    (skipn _ l)).
  apply in_or_app. now left.
Qed.

Lemma applyFilters_total (h : Host) (s : State) (data : list Row) :
  total (applyFilters h s data)
  = Z.of_nat (List.length (filterRows h (filters s) data)).
Proof. reflexivity. Qed.

Lemma applyFilters_transactions (h : Host) (s : State) (data : list Row) :
  transactions (applyFilters h s data)
  = Js.slice (filterRows h (filters s) data)
             ((page s - 1) * perPage s)
             ((page s - 1) * perPage s + perPage s).
Proof. reflexivity. Qed.

End FilterClaims.

(** ** The model on concrete inputs *)

Example search_ignores_case :
  searchMatch "AMA" Sample.row1 = true /\ searchMatch "ama" Sample.row2 = false.
Proof. split; reflexivity. Qed.

Example slice_within_and_past_the_end :
  Js.slice [1; 2; 3; 4; 5] 2 4 = [3; 4]
  /\ Js.slice [1; 2; 3; 4; 5] 4 6 = [5]
  /\ Js.slice [1; 2; 3; 4; 5] 10 12 = [].
Proof. repeat split. Qed.

(** Three fetched rows, one of amount 6000, under the range [0, 5000]: the
    row is excluded and the total is 2. *)
Example amount_range_excludes_6000 :
  total (applyFilters Sample.host initialState Sample.data) = 2
  /\ transactions (applyFilters Sample.host initialState Sample.data)
     = [Sample.row1; Sample.row3].
Proof. split; reflexivity. Qed.

Example second_page_of_two :
  transactions (applyFilters Sample.host Sample.pagedState
                             [Sample.row1; Sample.row3; Sample.rowNew])
  = [Sample.rowNew].
Proof. reflexivity. Qed.

Example mock_ids_follow_the_offset :
  map rowId (generateMockTransactions Sample.host 3 5) = ["TX6"; "TX7"; "TX8"].
Proof. reflexivity. Qed.

Example local_day_bounds :
  setHoursStart Sample.host 1700000000000 = 1699986600000
  /\ setHoursEnd Sample.host 1700000000000 = 1700072999999.
Proof. split; reflexivity. Qed.

(** C1.  Every row kept by [applyFilters], in the filtered list that is
    counted as well as in the page that is displayed, is a row of the input
    and satisfies all the active predicates at once: the search query, when
    there is one, matches the user id, the merchant or the country up to
    case; the amount lies in the range, bounds included; the country and
    the merchant belong to the selected sets when these are not empty; the
    row is flagged when fraud-only is on; the timestamp is not before local
    midnight of the from-date nor after the local end of day of the to-date,
    when these are set. *)
Theorem applyFilters_sound (h : Host) (s : State) (data : list Row) (t : Row) :
  In t (filterRows h (filters s) data)
  \/ In t (transactions (applyFilters h s data)) ->
  In t data /\ Satisfies h (filters s) t.
Proof.
  intros [H|H].
  - now apply filterRows_In.
  - rewrite applyFilters_transactions in H. apply In_slice in H.
    now apply filterRows_In.
Qed.

Lemma applyFilters_sound_witness :
  In Sample.row1 (transactions (applyFilters Sample.host Sample.narrowState Sample.data))
  /\ In Sample.row1 Sample.data
  /\ Satisfies Sample.host Sample.narrow Sample.row1.
Proof.
  split.
  - vm_compute. left. reflexivity.
  - apply (applyFilters_sound Sample.host Sample.narrowState Sample.data Sample.row1).
    right. vm_compute. left. reflexivity.
Defined.

(** C2.  For a page index of at least 1 and a positive page size:
    [total] is the number of input rows that pass all the active predicates
    (the test [passesAll] holds exactly of the rows that [Satisfies]
    describes); the displayed page is the slice
    [(page-1)*pageSize, page*pageSize) of the filtered list; its length is
    [min pageSize (total - (page-1)*pageSize)], or 0 when that is negative;
    and the pages 1, 2, ..., n, once they cover the total, concatenate to the
    whole filtered list in its original order. *)
Theorem applyFilters_pagination (h : Host) (s : State) (data : list Row) :
  1 <= page s -> 0 < perPage s ->
  (forall t, passesAll h (filters s) t = true <-> Satisfies h (filters s) t)
  /\ total (applyFilters h s data)
     = Z.of_nat (List.length (filter (passesAll h (filters s)) data))
  /\ transactions (applyFilters h s data)
     = firstn (Z.to_nat (perPage s))
              (skipn (Z.to_nat ((page s - 1) * perPage s))
                     (filter (passesAll h (filters s)) data))
  /\ Z.of_nat (List.length (transactions (applyFilters h s data)))
     = Z.max 0 (Z.min (perPage s)
                      (total (applyFilters h s data) - (page s - 1) * perPage s))
  /\ (forall n : nat,
         total (applyFilters h s data) <= Z.of_nat n * perPage s ->
         List.concat (map (pageItems h s data) (pagesUpTo n))
         = filter (passesAll h (filters s)) data).
Proof.
  intros Hpage Hsize.
  assert (Hslice : forall p, 1 <= p ->
            pageItems h s data p
            = firstn (Z.to_nat (perPage s))
                     (skipn (Z.to_nat ((p - 1) * perPage s))
                            (filter (passesAll h (filters s)) data))).
  { intros p Hp. unfold pageItems. rewrite applyFilters_transactions.
    cbn [page perPage filters setPage].
    now rewrite slice_page, filterRows_filter. }
  split; [apply passesAll_iff|].
  split; [now rewrite applyFilters_total, filterRows_filter|].
  assert (Hcur : transactions (applyFilters h s data)
                 = firstn (Z.to_nat (perPage s))
                          (skipn (Z.to_nat ((page s - 1) * perPage s))
                                 (filter (passesAll h (filters s)) data))).
  { rewrite applyFilters_transactions, slice_page, filterRows_filter; auto. }
  split; [exact Hcur|].
  split.
  - rewrite Hcur, applyFilters_total, filterRows_filter.
    rewrite length_firstn, length_skipn. nia.
  - intros n Hn. unfold pagesUpTo. rewrite map_map.
    rewrite (map_ext_in _ (fun p : nat =>
               firstn (Z.to_nat (perPage s))
                      (skipn ((p - 1) * Z.to_nat (perPage s))
                             (filter (passesAll h (filters s)) data)))).
    + rewrite concat_pages. apply firstn_all2.
      rewrite applyFilters_total, filterRows_filter in Hn. nia.
    + intros p Hp. apply in_seq in Hp. rewrite Hslice by lia.
      do 2 f_equal. nia.
Qed.

Lemma applyFilters_pagination_witness :
  1 <= page Sample.pagedState
  /\ 0 < perPage Sample.pagedState
  /\ total (applyFilters Sample.host Sample.pagedState Sample.data)
     = Z.of_nat (List.length
                   (filter (passesAll Sample.host (filters Sample.pagedState))
                           Sample.data)).
Proof.
  assert (H1 : 1 <= page Sample.pagedState) by (vm_compute; discriminate).
  assert (H2 : 0 < perPage Sample.pagedState) by reflexivity.
  split; [exact H1|]. split; [exact H2|].
  exact (proj1 (proj2 (applyFilters_pagination Sample.host Sample.pagedState
                                               Sample.data H1 H2))).
Defined.

(** C5, as the claim words it, fails: the amount range is applied on every
    call and its default is [0, 5000].  A fetched row of amount 6000 is
    dropped by the default filters; so is the record the generator returns
    when its draws are 99/100, whose amount is 5050, and the total is then 0
    for an input of length 1. *)
Lemma default_filters_drop_mock_row :
  filterRows Sample.host defaultFilters Sample.data <> Sample.data
  /\ List.length Sample.mockHigh = 1%nat
  /\ Forall (fun t => amount (tx t) == 5050)%Q Sample.mockHigh
  /\ filterRows Sample.hostHigh defaultFilters Sample.mockHigh <> Sample.mockHigh
  /\ total (applyFilters Sample.hostHigh initialState Sample.mockHigh)
     <> Z.of_nat (List.length Sample.mockHigh).
Proof.
  split; [vm_compute; discriminate|].
  split; [reflexivity|]. split; [|split].
  - repeat constructor.
  - vm_compute. discriminate.
  - vm_compute. discriminate.
Qed.

(** C5, amended.  With every filter field in its default state, the only
    restriction left is the default amount range: the filtered result is
    exactly the rows whose amount lies in [0, 5000], in input order, and
    [total] is their number.  When every amount of the input lies in
    [0, 5000], the filtered result is the whole input and [total] is its
    length. *)
Theorem default_filters_amount_only (h : Host) (s : State) (data : list Row) :
  filters s = defaultFilters ->
  filterRows h (filters s) data = filter (amountMatch (0%Q, 5000%Q)) data
  /\ (forall t, In t (filterRows h (filters s) data)
                <-> In t data /\ (0 <= amount (tx t) /\ amount (tx t) <= 5000)%Q)
  /\ total (applyFilters h s data)
     = Z.of_nat (List.length (filter (amountMatch (0%Q, 5000%Q)) data))
  /\ ((forall t, In t data -> (0 <= amount (tx t) /\ amount (tx t) <= 5000)%Q) ->
      filterRows h (filters s) data = data
      /\ total (applyFilters h s data) = Z.of_nat (List.length data)).
Proof.
  intros Hdef.
  assert (E : filterRows h (filters s) data
              = filter (amountMatch (0%Q, 5000%Q)) data).
  { rewrite Hdef. reflexivity. }
  assert (M : forall t, amountMatch (0%Q, 5000%Q) t = true
                        <-> (0 <= amount (tx t) /\ amount (tx t) <= 5000)%Q).
  { intros t. unfold amountMatch. cbn [fst snd].
    now rewrite andb_true_iff, !Qle_bool_iff. }
  split; [exact E|].
  split; [intros t; now rewrite E, filter_In, M|].
  split; [now rewrite applyFilters_total, E|].
  intros Hall.
  assert (F : filter (amountMatch (0%Q, 5000%Q)) data = data).
  { clear E. induction data as [|x l IH]; auto. simpl.
    destruct (amountMatch (0%Q, 5000%Q) x) eqn:Ex.
    - f_equal. apply IH. intros t Ht. apply Hall. now right.
    - assert (amountMatch (0%Q, 5000%Q) x = true) by (apply M, Hall; now left).
      congruence. }
  split; [now rewrite E, F | now rewrite applyFilters_total, E, F].
Qed.

Lemma default_filters_amount_only_witness :
  filters initialState = defaultFilters
  /\ (forall t, In t [Sample.row1; Sample.row3] ->
                (0 <= amount (tx t) /\ amount (tx t) <= 5000)%Q)
  /\ filterRows Sample.host (filters initialState) [Sample.row1; Sample.row3]
     = [Sample.row1; Sample.row3]
  /\ total (applyFilters Sample.host initialState [Sample.row1; Sample.row3]) = 2.
Proof.
  assert (H1 : filters initialState = defaultFilters) by reflexivity.
  assert (H2 : forall t, In t [Sample.row1; Sample.row3] ->
                         (0 <= amount (tx t) /\ amount (tx t) <= 5000)%Q).
  { intros t [<-|[<-|[]]]; split; vm_compute; discriminate. }
  split; [exact H1|]. split; [exact H2|].
  exact (proj2 (proj2 (proj2 (default_filters_amount_only
                                Sample.host initialState
                                [Sample.row1; Sample.row3] H1))) H2).
Defined.

(** C10, as the claim words it, fails: no filter setter touches the page
    index.  On page 2 of eleven unflagged rows, switching fraud-only on
    leaves no matching row; the page index stays 2, past the last page, and
    the displayed page is empty. *)
Lemma page_not_reset_on_filter_change :
  page Sample.onPage2 = 2
  /\ total Sample.onPage2 = 11
  /\ List.length (transactions Sample.onPage2) = 1%nat
  /\ total (onFilterEvent Sample.host (FraudOnlyChanged true) Sample.onPage2) = 0
  /\ (page (onFilterEvent Sample.host (FraudOnlyChanged true) Sample.onPage2) - 1)
     * perPage (onFilterEvent Sample.host (FraudOnlyChanged true) Sample.onPage2)
     >= total (onFilterEvent Sample.host (FraudOnlyChanged true) Sample.onPage2)
  /\ page (onFilterEvent Sample.host (FraudOnlyChanged true) Sample.onPage2) <> 1
  /\ transactions (onFilterEvent Sample.host (FraudOnlyChanged true) Sample.onPage2)
     = [].
Proof.
  repeat split; try (vm_compute; reflexivity); vm_compute; discriminate.
Qed.

(** C10, amended.  A filter or search change leaves the page index and the
    page size as they were.  The page displayed afterwards is the slice of
    the newly filtered set at that unchanged index, so it is empty as soon
    as [(page-1)*pageSize] reaches the new total, which is still reported. *)
Theorem filter_change_keeps_page (h : Host) (ev : FilterEvent) (s : State) :
  page (onFilterEvent h ev s) = page s
  /\ perPage (onFilterEvent h ev s) = perPage s
  /\ total (onFilterEvent h ev s)
     = Z.of_nat (List.length (filterRows h (updateFilters ev (filters s))
                                         (allTransactions s)))
  /\ transactions (onFilterEvent h ev s)
     = Js.slice (filterRows h (updateFilters ev (filters s)) (allTransactions s))
                ((page s - 1) * perPage s) ((page s - 1) * perPage s + perPage s)
  /\ (1 <= page s -> 0 < perPage s ->
      total (onFilterEvent h ev s) <= (page s - 1) * perPage s ->
      transactions (onFilterEvent h ev s) = []).
Proof.
  repeat split.
  intros Hpage Hsize Hpast.
  unfold onFilterEvent, filtersEffect in *.
  rewrite applyFilters_total in Hpast. rewrite applyFilters_transactions.
  cbn [page perPage filters allTransactions setFilters] in *.
  rewrite slice_page by assumption.
  rewrite skipn_all2 by lia. apply firstn_nil.
Qed.

Lemma filter_change_keeps_page_witness :
  1 <= page Sample.onPage2
  /\ 0 < perPage Sample.onPage2
  /\ total (onFilterEvent Sample.host (FraudOnlyChanged true) Sample.onPage2)
     <= (page Sample.onPage2 - 1) * perPage Sample.onPage2
  /\ transactions (onFilterEvent Sample.host (FraudOnlyChanged true) Sample.onPage2)
     = [].
Proof.
  assert (H1 : 1 <= page Sample.onPage2) by (vm_compute; discriminate).
  assert (H2 : 0 < perPage Sample.onPage2) by reflexivity.
  assert (H3 : total (onFilterEvent Sample.host (FraudOnlyChanged true) Sample.onPage2)
               <= (page Sample.onPage2 - 1) * perPage Sample.onPage2)
    by (vm_compute; discriminate).
  split; [exact H1|]. split; [exact H2|]. split; [exact H3|].
  exact (proj2 (proj2 (proj2 (proj2
           (filter_change_keeps_page Sample.host (FraudOnlyChanged true)
                                     Sample.onPage2)))) H1 H2 H3).
Defined.

(** ** The mock data generator *)

Section Generator.

Lemma numToString_inj (a b : Z) :
  Js.numToString a = Js.numToString b -> a = b.
Proof.
  unfold Js.numToString. intros H. apply DecimalZ.to_int_inj.
  assert (P : forall z, NilZero.int_of_string (NilZero.string_of_int (Z.to_int z))
                        = Some (Z.to_int z)).
  { intros z. apply NilZero.isi; destruct z; simpl; try discriminate;
      intros E; injection E; apply DecimalPos.Unsigned.to_uint_nonnil. }
  pose proof (P a) as Pa. rewrite H, P in Pa. congruence.
Qed.

Lemma toFixed2_band (r : Q) :
  (0 <= r /\ r < 1)%Q ->
  (100 <= toFixed2 (r * 5000 + 100) /\ toFixed2 (r * 5000 + 100) <= 5100)%Q.
Proof.
  intros [H0 H1]. unfold toFixed2.
  assert (L : (10000 <= Qfloor ((r * 5000 + 100) * 100 + (1 # 2)))%Z).
  { change 10000%Z with (Qfloor (inject_Z 10000)).
    apply Qfloor_resp_le. unfold inject_Z. lra. }
  assert (U : (Qfloor ((r * 5000 + 100) * 100 + (1 # 2)) <= 510000)%Z).
  { change 510000%Z with (Qfloor (1020001 # 2)).
    apply Qfloor_resp_le. lra. }
  unfold Qle. cbn [Qnum Qden]. lia.
Qed.

Lemma mockRecord_score (now offset i : Z) (ra rf ru rc rd rm rs : Q) :
  (0 <= rs /\ rs < 1)%Q ->
  let t := mockRecord now offset i ra rf ru rc rd rm rs in
  (label t = true -> (5 # 10 <= score t /\ score t < 1)%Q)
  /\ (label t = false -> (0 <= score t /\ score t < 4 # 10)%Q).
Proof.
  intros [H0 H1]. cbn [mockRecord label score].
  destruct (Js.gt rf fraudThreshold); split; intros E; try discriminate; lra.
Qed.

(** Row [j] of the loop is built from the draws [7j .. 7j+6] of the
    stream the loop starts with. *)
Lemma mockLoop_nth (now offset : Z) (n : nat) :
  forall (i : Z) (s : nat -> Q) (j : nat) (t : Row),
    nth_error (fst (mockLoop now offset n i s)) j = Some t ->
    t = mockRecord now offset (i + Z.of_nat j)
                   (s (7 * j)%nat) (s (7 * j + 1)%nat) (s (7 * j + 2)%nat)
                   (s (7 * j + 3)%nat) (s (7 * j + 4)%nat) (s (7 * j + 5)%nat)
                   (s (7 * j + 6)%nat).
Proof.
  induction n as [|n IH]; intros i s j t H.
  - destruct j; discriminate.
  - cbn [mockLoop] in H. unfold bind at 1 in H.
    destruct (mockRow now offset i s) as [row s'] eqn:Erow.
    unfold bind at 1 in H.
    destruct (mockLoop now offset n (i + 1) s') as [rest s''] eqn:Erest.
    cbn [ret fst] in H.
    unfold mockRow, bind, Math_random, ret in Erow.
    injection Erow as Hrow Hs'.
    destruct j as [|j]; cbn [nth_error] in H.
    + injection H as <-. rewrite <- Hrow. f_equal. lia.
    + assert (H' : nth_error (fst (mockLoop now offset n (i + 1) s')) j = Some t)
        by now rewrite Erest.
      apply IH in H'. rewrite H'. subst s'.
      replace (i + 1 + Z.of_nat j) with (i + Z.of_nat (S j)) by lia.
      f_equal; f_equal; lia.
Qed.

Lemma mockLoop_length (now offset : Z) (n : nat) :
  forall (i : Z) (s : nat -> Q),
    List.length (fst (mockLoop now offset n i s)) = n.
Proof.
  induction n as [|n IH]; intros i s; auto.
  cbn [mockLoop]. unfold bind at 1.
  destruct (mockRow now offset i s) as [row s'].
  unfold bind at 1. specialize (IH (i + 1) s').
  destruct (mockLoop now offset n (i + 1) s') as [rest s''].
  cbn [ret fst] in *. simpl. now rewrite IH.
Qed.

End Generator.

(** C7.  For a count of at least 0, any offset, and any sequence of draws
    in [0, 1): the generator returns exactly [count] records; record [i]
    has the id "TX" followed by [offset + i + 1], so the ids are pairwise
    distinct; every amount lies in [100, 5100]; the flag of record [i] is
    true exactly when its second draw exceeds 0.7, an interval of draws of
    length 0.3; a flagged record has its score in [0.5, 1) and an unflagged
    one in [0, 0.4). *)
Theorem generateMockTransactions_spec (h : Host) (count offset : Z) :
  0 <= count ->
  (forall k, 0 <= draws h k /\ draws h k < 1)%Q ->
  Z.of_nat (List.length (generateMockTransactions h count offset)) = count
  /\ NoDup (map (fun t => transaction_id (tx t))
                (generateMockTransactions h count offset))
  /\ (forall (i : nat) (t : Row),
         nth_error (generateMockTransactions h count offset) i = Some t ->
         transaction_id (tx t)
         = ("TX" ++ Js.numToString (offset + Z.of_nat i + 1))%string
         /\ (100 <= amount (tx t) /\ amount (tx t) <= 5100)%Q
         /\ (label t = true <-> (7 # 10 < draws h (7 * i + 1)%nat)%Q)
         /\ (label t = true -> (5 # 10 <= score t /\ score t < 1)%Q)
         /\ (label t = false -> (0 <= score t /\ score t < 4 # 10)%Q))
  /\ (1 - fraudThreshold == 3 # 10)%Q.
Proof.
  intros Hcount Hdraws. unfold generateMockTransactions.
  assert (Hrow : forall i t,
             nth_error (fst (mockLoop (clock h) offset (Z.to_nat count) 0 (draws h))) i
             = Some t ->
             t = mockRecord (clock h) offset (Z.of_nat i)
                   (draws h (7 * i)%nat) (draws h (7 * i + 1)%nat)
                   (draws h (7 * i + 2)%nat) (draws h (7 * i + 3)%nat)
                   (draws h (7 * i + 4)%nat) (draws h (7 * i + 5)%nat)
                   (draws h (7 * i + 6)%nat)).
  { intros i t H. apply mockLoop_nth in H. exact H. }
  split; [rewrite mockLoop_length; lia|].
  split; [|split].
  - apply NoDup_nth_error. intros i j Hi E.
    rewrite length_map in Hi. rewrite !nth_error_map in E.
    destruct (nth_error _ i) as [ti|] eqn:Ei.
    2:{ apply nth_error_None in Ei. lia. }
    destruct (nth_error _ j) as [tj|] eqn:Ej; [|discriminate].
    apply Hrow in Ei, Ej. subst ti tj. cbn in E.
    injection E as E. apply numToString_inj in E. lia.
  - intros i t H. apply Hrow in H. subst t.
    split; [reflexivity|].
    split; [apply toFixed2_band, Hdraws|].
    split.
    + cbn [mockRecord label]. unfold Js.gt, fraudThreshold.
      rewrite negb_true_iff, <- not_true_iff_false, Qle_bool_iff.
      split; [apply Qnot_le_lt | apply Qlt_not_le].
    + apply mockRecord_score, Hdraws.
  - unfold fraudThreshold. reflexivity.
Qed.

Lemma generateMockTransactions_spec_witness :
  0 <= 100
  /\ (forall k, 0 <= draws Sample.hostCycle k /\ draws Sample.hostCycle k < 1)%Q
  /\ Z.of_nat (List.length (generateMockTransactions Sample.hostCycle 100 0)) = 100
  /\ NoDup (map (fun t => transaction_id (tx t))
                (generateMockTransactions Sample.hostCycle 100 0)).
Proof.
  assert (H1 : 0 <= 100) by discriminate.
  assert (H2 : forall k, (0 <= draws Sample.hostCycle k
                          /\ draws Sample.hostCycle k < 1)%Q).
  { intros k. cbn [draws Sample.hostCycle]. unfold Qle, Qlt. cbn [Qnum Qden].
    pose proof (Nat.mod_upper_bound k 10 ltac:(discriminate)). lia. }
  split; [exact H1|]. split; [exact H2|].
  pose proof (generateMockTransactions_spec Sample.hostCycle 100 0 H1 H2)
    as [Hlen [Hids _]].
  split; [exact Hlen | exact Hids].
Defined.

(** ** The refresh controller *)

Section Refresh.

Lemma nonempty_test {A : Type} (l : list A) :
  (0 <? Z.of_nat (List.length l)) = match l with [] => false | _ => true end.
Proof. destruct l; reflexivity. Qed.

(** The state a refresh ends in, when the fetch succeeds. *)
Lemma fetchTransactions_success (h : Host) (silent : bool) (r : Response)
      (s : State) (allData : list Row) :
  awaitResults r = Normal allData ->
  exists s',
    fetchTransactions h silent r s = Normal s'
    /\ allTransactions s' = allData
    /\ previousTransactionsRef s' = allData
    /\ demoMode s' = demoMode s
    /\ toasts s' = toasts s
                   ++ highRiskNotice silent (previousTransactionsRef s) allData.
Proof.
  intros H. unfold fetchTransactions, tryBlock, highRiskNotice. rewrite H.
  cbv zeta.
  destruct silent; cbn [negb andb previousTransactionsRef setAllTransactions
                        setLoading];
    rewrite ?nonempty_test.
  - destruct (previousTransactionsRef s) as [|p prev] eqn:Ep.
    + eexists. split; [reflexivity|]. cbn. now rewrite app_nil_r.
    + destruct (newHighRisk (p :: prev) allData) as [|x found] eqn:Ef.
      * eexists. split; [reflexivity|]. cbn. now rewrite app_nil_r.
      * eexists. split; [reflexivity|]. cbn. auto.
  - eexists. split; [reflexivity|]. cbn. now rewrite app_nil_r.
Qed.

(** The state a refresh ends in, when the fetch fails. *)
Lemma fetchTransactions_failure (h : Host) (silent : bool) (r : Response)
      (s : State) :
  awaitResults r = Throw ->
  exists s',
    fetchTransactions h silent r s = Normal s'
    /\ allTransactions s' = generateMockTransactions h 100 0
    /\ previousTransactionsRef s' = generateMockTransactions h 100 0
    /\ demoMode s' = true
    /\ toasts s' = toasts s ++ (if silent then [] else [DemoDataToast])
    /\ total s' = total (applyFilters h s (generateMockTransactions h 100 0))
    /\ transactions s'
       = transactions (applyFilters h s (generateMockTransactions h 100 0)).
Proof.
  intros H. unfold fetchTransactions, tryBlock, catchBlock. rewrite H.
  destruct silent; cbn; eexists; (split; [reflexivity|]); cbn;
    rewrite ?app_nil_r; auto 10.
Qed.

Lemma newHighRisk_In (previous allData : list Row) (t : Row) :
  In t (newHighRisk previous allData)
  <-> In t allData /\ label t = true /\ (7 # 10 < score t)%Q
      /\ ~ In (rowId t) (map rowId previous).
Proof.
  unfold newHighRisk. rewrite filter_In, !andb_true_iff, negb_true_iff.
  assert (G : Js.gt (score t) (7 # 10) = true <-> (7 # 10 < score t)%Q).
  { unfold Js.gt. rewrite negb_true_iff, <- not_true_iff_false, Qle_bool_iff.
    split; [apply Qnot_le_lt | apply Qlt_not_le]. }
  assert (E : existsb (fun prev => sameId prev t) previous = false
              <-> ~ In (rowId t) (map rowId previous)).
  { rewrite <- not_true_iff_false, existsb_exists, in_map_iff.
    unfold sameId, rowId.
    split; intros N [p Hp]; apply N; exists p.
    - destruct Hp as [Hid Hin]. split; auto. rewrite Hid. apply String.eqb_refl.
    - destruct Hp as [Hin Hid]. apply String.eqb_eq in Hid. auto. }
  rewrite G, E. tauto.
Qed.

(** A filter that only one row of a duplicate-free list passes keeps
    exactly that row. *)
Lemma filter_single {A B : Type} (key : A -> B) (p : A -> bool)
      (l : list A) (t : A) :
  NoDup (map key l) -> In t l -> p t = true ->
  (forall r, In r l -> p r = true -> key r = key t) ->
  filter p l = [t].
Proof.
  induction l as [|x l IH]; intros Hnd Hin Hp Honly; [contradiction|].
  cbn [map] in Hnd. inversion Hnd as [|k ks Hnotin Hnd']; subst.
  assert (Hrest : forall r, In r l -> key r <> key x).
  { intros r Hr E. apply Hnotin. rewrite <- E. now apply in_map. }
  destruct Hin as [->|Hin].
  - cbn [filter]. rewrite Hp. f_equal.
    assert (F : forall r, In r l -> p r = false).
    { intros r Hr. destruct (p r) eqn:Er; auto.
      exfalso. apply (Hrest r Hr). apply Honly; auto. now right. }
    clear -F. induction l as [|y l IH]; auto. cbn [filter].
    rewrite (F y) by now left. apply IH. intros r Hr. apply F. now right.
  - cbn [filter]. destruct (p x) eqn:Ex.
    + exfalso. apply (Hrest t Hin). symmetry. apply Honly; auto. now left.
    + apply IH; auto. intros r Hr. apply Honly. now right.
Qed.

End Refresh.

(** C3, as the claim words it, fails when the previous snapshot is the
    empty batch: the guard of the detection tests the length of the
    snapshot.  A first refresh that succeeds with no rows installs the empty
    snapshot A; a silent refresh then succeeds with B, which holds the ids of
    A and one new row, flagged and scored 0.85.  That row is in the detected
    set, yet no notice is raised. *)
Lemma no_notice_over_empty_snapshot :
  exists s1 s2,
    fetchTransactions Sample.host false (Sample.ok []) initialState = Normal s1
    /\ previousTransactionsRef s1 = []
    /\ fetchTransactions Sample.host true (Sample.ok [Sample.rowNew]) s1
       = Normal s2
    /\ label Sample.rowNew = true
    /\ (score Sample.rowNew == 85 # 100)%Q
    /\ newHighRisk (previousTransactionsRef s1) [Sample.rowNew] = [Sample.rowNew]
    /\ toasts s1 = []
    /\ toasts s2 = [].
Proof.
  eexists. eexists.
  split; [reflexivity|]. split; [reflexivity|].
  split; [reflexivity|]. split; [reflexivity|].
  split; [reflexivity|]. split; [reflexivity|].
  split; reflexivity.
Qed.

(** C3, amended.  When the fetch of a refresh succeeds with batch B while
    the previous snapshot is A: the detected set is exactly the rows of B
    that are flagged, score strictly above 0.7 and carry an id absent from
    A; the refresh raises one notice with the size of that set when it is
    silent, A is not empty and the set is not empty, and no notice when the
    refresh is not silent, when the previous snapshot is empty, or when the
    set is empty.  In particular, when A is not empty, B has unique ids and
    its only row with an id absent from A is [t], a silent refresh raises
    exactly one notice, of count 1, if [t] is flagged with a score above 0.7
    (such as 0.85), and none if [t] is unflagged or scores at most 0.7 (such
    as 0.5). *)
Theorem high_risk_detection (h : Host) (silent : bool) (r : Response)
        (s : State) (allData : list Row) :
  awaitResults r = Normal allData ->
  exists s',
    fetchTransactions h silent r s = Normal s'
    /\ (forall t,
           In t (newHighRisk (previousTransactionsRef s) allData)
           <-> In t allData /\ label t = true /\ (7 # 10 < score t)%Q
               /\ ~ In (rowId t) (map rowId (previousTransactionsRef s)))
    /\ toasts s'
       = toasts s ++ highRiskNotice silent (previousTransactionsRef s) allData
    /\ (silent = false \/ previousTransactionsRef s = []
        \/ newHighRisk (previousTransactionsRef s) allData = [] ->
        toasts s' = toasts s)
    /\ (forall t,
           silent = true ->
           previousTransactionsRef s <> [] ->
           NoDup (map rowId allData) ->
           In t allData ->
           ~ In (rowId t) (map rowId (previousTransactionsRef s)) ->
           (forall r0, In r0 allData ->
                       r0 = t \/ In (rowId r0) (map rowId (previousTransactionsRef s))) ->
           (label t = true /\ (7 # 10 < score t)%Q ->
            toasts s' = toasts s ++ [HighRiskToast 1])
           /\ (label t = false \/ (score t <= 7 # 10)%Q ->
               toasts s' = toasts s)).
Proof.
  intros Hok.
  destruct (fetchTransactions_success h silent r s allData Hok)
    as [s' [Hrun [_ [_ [_ Htoasts]]]]].
  exists s'. split; [exact Hrun|].
  split; [intros t; apply newHighRisk_In|].
  split; [exact Htoasts|].
  split.
  - intros Hnone. rewrite Htoasts. unfold highRiskNotice.
    destruct Hnone as [-> | [-> | ->]].
    + apply app_nil_r.
    + destruct silent; apply app_nil_r.
    + destruct silent, (previousTransactionsRef s); apply app_nil_r.
  - intros t -> Hheld Hnd Hin Hnew Honly. rewrite Htoasts.
    unfold highRiskNotice.
    destruct (previousTransactionsRef s) as [|p prev] eqn:Ep; [congruence|].
    split.
    + intros [Hlabel Hscore].
      assert (E : newHighRisk (p :: prev) allData = [t]).
      { unfold newHighRisk. apply (filter_single rowId); auto.
        - assert (Hd : In t (newHighRisk (p :: prev) allData))
            by (apply newHighRisk_In; auto).
          apply filter_In in Hd. apply Hd.
        - intros r0 Hr0 Hpass.
          assert (Hd : In r0 (newHighRisk (p :: prev) allData))
            by (apply filter_In; auto).
          apply newHighRisk_In in Hd as [_ [_ [_ Hr0new]]].
          destruct (Honly r0 Hr0) as [->|Hold]; [reflexivity | contradiction]. }
      rewrite E. reflexivity.
    + intros Hlow.
      assert (E : newHighRisk (p :: prev) allData = []).
      { destruct (newHighRisk (p :: prev) allData) as [|x found] eqn:Ef; auto.
        assert (Hx : In x (newHighRisk (p :: prev) allData))
          by (rewrite Ef; now left).
        apply newHighRisk_In in Hx as [Hxin [Hxl [Hxs Hxnew]]].
        destruct (Honly x Hxin) as [->|Hold]; [|contradiction].
        destruct Hlow as [Hl|Hs]; [congruence|].
        exfalso. apply (Qlt_not_le _ _ Hxs Hs). }
      rewrite E. apply app_nil_r.
Qed.

Lemma high_risk_detection_witness :
  awaitResults (Sample.ok Sample.batchNew) = Normal Sample.batchNew
  /\ (exists s',
         fetchTransactions Sample.host true (Sample.ok Sample.batchNew) Sample.held
         = Normal s'
         /\ toasts s' = toasts Sample.held ++ [HighRiskToast 1])
  /\ (exists s',
         fetchTransactions Sample.host true (Sample.ok Sample.batchNewLow) Sample.held
         = Normal s'
         /\ toasts s' = toasts Sample.held).
Proof.
  assert (Hok : awaitResults (Sample.ok Sample.batchNew) = Normal Sample.batchNew)
    by reflexivity.
  assert (Hlow : awaitResults (Sample.ok Sample.batchNewLow)
                 = Normal Sample.batchNewLow) by reflexivity.
  split; [exact Hok|]. split.
  - destruct (high_risk_detection Sample.host true (Sample.ok Sample.batchNew)
                                  Sample.held Sample.batchNew Hok)
      as [s' [Hrun [_ [_ [_ Hscenario]]]]].
    exists s'. split; [exact Hrun|].
    apply (Hscenario Sample.rowNew).
    + reflexivity.
    + discriminate.
    + repeat (constructor; [cbn; intuition discriminate|]). constructor.
    + cbn. auto 6.
    + cbn. intuition discriminate.
    + intros r0 [<-|[<-|[<-|[<-|[]]]]]; cbn; auto.
    + split; reflexivity.
  - destruct (high_risk_detection Sample.host true (Sample.ok Sample.batchNewLow)
                                  Sample.held Sample.batchNewLow Hlow)
      as [s' [Hrun [_ [_ [_ Hscenario]]]]].
    exists s'. split; [exact Hrun|].
    apply (Hscenario Sample.rowNewLow).
    + reflexivity.
    + discriminate.
    + repeat (constructor; [cbn; intuition discriminate|]). constructor.
    + cbn. auto 6.
    + cbn. intuition discriminate.
    + intros r0 [<-|[<-|[<-|[<-|[]]]]]; cbn; auto.
    + right. vm_compute. discriminate.
Defined.

(** C4, as the claim words it, fails in its last part: a fetch that
    succeeds with an empty result list installs the empty set, and the page
    then has no row to show. *)
Lemma successful_refresh_may_install_empty_set :
  exists s',
    fetchTransactions Sample.host false (Sample.ok []) Sample.held = Normal s'
    /\ allTransactions s' = []
    /\ transactions s' = []
    /\ total s' = 0
    /\ demoMode s' = false.
Proof. eexists. split; [reflexivity|]. repeat split. Qed.

(** C4, amended.  A refresh always completes normally, whatever the fetch
    delivers.  The fetch fails exactly on a network error, a status outside
    200..299 or a malformed body; then one error notification is raised if
    the refresh is not silent and none if it is silent, demo mode is
    entered, the transaction set is replaced by the 100 records of the mock
    generator, hence is not empty, and the filter engine is re-run on them.
    When the fetch succeeds the transaction set is the fetched batch, which
    is empty when the backend returns no result. *)
Theorem fetch_failure_falls_back (h : Host) (silent : bool) (r : Response)
        (s : State) :
  (awaitResults r = Throw
   <-> r = NetworkError
       \/ exists status body,
            r = Http status body /\ (res_ok status = false \/ body = Malformed))
  /\ exists s',
       fetchTransactions h silent r s = Normal s'
       /\ match awaitResults r with
          | Throw =>
              toasts s' = toasts s ++ (if silent then [] else [DemoDataToast])
              /\ demoMode s' = true
              /\ allTransactions s' = generateMockTransactions h 100 0
              /\ List.length (allTransactions s') = 100%nat
              /\ allTransactions s' <> []
              /\ total s'
                 = Z.of_nat (List.length (filterRows h (filters s) (allTransactions s')))
              /\ transactions s'
                 = Js.slice (filterRows h (filters s) (allTransactions s'))
                            ((page s - 1) * perPage s)
                            ((page s - 1) * perPage s + perPage s)
          | Normal allData =>
              allTransactions s' = allData
              /\ demoMode s' = demoMode s
              /\ ~ In DemoDataToast
                      (highRiskNotice silent (previousTransactionsRef s) allData)
              /\ toasts s'
                 = toasts s
                   ++ highRiskNotice silent (previousTransactionsRef s) allData
          end.
Proof.
  split.
  - destruct r as [|status body]; cbn.
    + split; auto.
    + destruct (res_ok status) eqn:Eok; cbn.
      * destruct body as [|results]; split; intros H; try discriminate.
        -- right. exists status, Malformed. auto.
        -- reflexivity.
        -- destruct H as [H|[st [b [E [H|H]]]]]; try discriminate;
             injection E as <- <-; congruence.
      * split; auto. intros _. right. exists status, body. auto.
  - destruct (awaitResults r) as [allData|] eqn:E.
    + destruct (fetchTransactions_success h silent r s allData E)
        as [s' [Hrun [Hall [_ [Hdemo Htoasts]]]]].
      exists s'. split; [exact Hrun|]. split; [exact Hall|].
      split; [exact Hdemo|]. split; [|exact Htoasts].
      unfold highRiskNotice.
      destruct silent; [|cbn; tauto].
      destruct (previousTransactionsRef s) as [|p prev]; [cbn; tauto|].
      destruct (newHighRisk (p :: prev) allData); cbn; intuition discriminate.
    + destruct (fetchTransactions_failure h silent r s E)
        as [s' [Hrun [Hall [_ [Hdemo [Htoasts [Htotal Hpage]]]]]]].
      assert (Hlen : List.length (generateMockTransactions h 100 0) = 100%nat).
      { unfold generateMockTransactions. now rewrite mockLoop_length. }
      exists s'. rewrite Hall. repeat split; auto.
      * intros Hnil. rewrite Hnil in Hlen. discriminate.
Qed.

(** C6.  Every refresh completes, and when it has, the previous-snapshot
    reference is the transaction set that this refresh installed: the
    fetched batch when the fetch succeeded, silent or not and from any
    state, the initial one included; the freshly generated mock data when
    it failed. *)
Theorem previous_snapshot_is_installed_set (h : Host) (silent : bool)
        (r : Response) (s : State) :
  exists s',
    fetchTransactions h silent r s = Normal s'
    /\ allTransactions s' = installedSet h r
    /\ previousTransactionsRef s' = allTransactions s'.
Proof.
  unfold installedSet. destruct (awaitResults r) as [allData|] eqn:E.
  - destruct (fetchTransactions_success h silent r s allData E)
      as [s' [Hrun [Hall [Hprev _]]]].
    exists s'. repeat split; congruence.
  - destruct (fetchTransactions_failure h silent r s E)
      as [s' [Hrun [Hall [Hprev _]]]].
    exists s'. repeat split; congruence.
Qed.

(** ** Aggregations *)

Section Aggregations.

Import ChartsPanel.

Variable g : CountryEntry -> Q.

Lemma sumQ_app {A : Type} (f : A -> Q) (l1 l2 : list A) :
  (sumQ f (l1 ++ l2) == sumQ f l1 + sumQ f l2)%Q.
Proof.
  unfold sumQ. induction l1 as [|x l1 IH]; cbn [app fold_right].
  - now rewrite Qplus_0_l.
  - rewrite IH. ring.
Qed.

Lemma get_new (acc : Acc) (k : string) (e : CountryEntry) :
  get acc k = None -> get (acc ++ [(k, e)]) k = Some e.
Proof.
  induction acc as [|[k' e'] acc IH]; cbn [get app].
  - now rewrite String.eqb_refl.
  - destruct (String.eqb k' k); [discriminate | exact IH].
Qed.

Lemma get_modify (acc : Acc) (k : string) (f : CountryEntry -> CountryEntry)
      (e : CountryEntry) :
  get acc k = Some e -> get (modify acc k f) k = Some (f e).
Proof.
  induction acc as [|[k' e'] acc IH]; cbn [get modify]; [discriminate|].
  destruct (String.eqb k' k) eqn:E; cbn [get]; rewrite E.
  - congruence.
  - exact IH.
Qed.

Lemma sum_modify (acc : Acc) (k : string) (f : CountryEntry -> CountryEntry)
      (e : CountryEntry) :
  get acc k = Some e ->
  (sumQ g (values (modify acc k f)) == sumQ g (values acc) - g e + g (f e))%Q.
Proof.
  unfold values.
  induction acc as [|[k' e'] acc IH]; cbn [get modify]; [discriminate|].
  destruct (String.eqb k' k) eqn:E; cbn [map snd sumQ fold_right].
  - intros H. injection H as ->. lra.
  - intros H. specialize (IH H). unfold sumQ in IH. lra.
Qed.

(** How the three updates of the callback move the measure [g]. *)
Variables cT cF cL : Q.
Hypothesis g_new : forall c, (g (mkCountryEntry c 0 0 0) == 0)%Q.
Hypothesis g_total : forall a e, (g (addTotal a e) == g e + cT * a)%Q.
Hypothesis g_fraud : forall a e, (g (addFraud a e) == g e + cF * a)%Q.
Hypothesis g_legit : forall a e, (g (addLegitimate a e) == g e + cL * a)%Q.

Lemma sum_countryStep (acc : Acc) (t : Row) :
  (sumQ g (values (countryStep acc t))
   == sumQ g (values acc)
      + (cT + (if label t then cF else cL)) * amount (tx t))%Q.
Proof.
  unfold countryStep.
  set (c := country (tx t)). set (a := amount (tx t)).
  set (acc1 := match get acc c with
               | None => acc ++ [(c, mkCountryEntry c 0 0 0)]
               | Some _ => acc
               end).
  assert (H1 : exists e, get acc1 c = Some e
                         /\ (sumQ g (values acc1) - g e
                             == sumQ g (values acc) - g e)%Q).
  { unfold acc1. destruct (get acc c) as [e|] eqn:E.
    - exists e. split; [exact E | reflexivity].
    - exists (mkCountryEntry c 0 0 0). split; [now apply get_new|].
      unfold values. rewrite map_app, sumQ_app. cbn [map snd sumQ fold_right].
      rewrite g_new. ring. }
  destruct H1 as [e [Hget Hsum]].
  pose proof (sum_modify acc1 c (addTotal a) e Hget) as S2.
  pose proof (get_modify acc1 c (addTotal a) e Hget) as G2.
  pose proof (g_total a e) as T.
  destruct (label t).
  - pose proof (sum_modify _ c (addFraud a) _ G2) as S3.
    pose proof (g_fraud a (addTotal a e)) as F. lra.
  - pose proof (sum_modify _ c (addLegitimate a) _ G2) as S3.
    pose proof (g_legit a (addTotal a e)) as F. lra.
Qed.

Lemma sum_fold_countryStep (transactions : list Row) :
  forall acc,
    (sumQ g (values (fold_left countryStep transactions acc))
     == sumQ g (values acc)
        + sumQ (fun t => (cT + (if label t then cF else cL)) * amount (tx t))
               transactions)%Q.
Proof.
  induction transactions as [|t l IH]; intros acc; cbn [fold_left sumQ fold_right].
  - ring.
  - rewrite IH, sum_countryStep. unfold sumQ. ring.
Qed.

End Aggregations.

(** C9.  The aggregations conserve totals: over the per-country entries,
    the fraud amounts plus the legitimate amounts add up to the sum of all
    the transaction amounts of the input, and so do the per-country totals;
    the fraudulent count plus the legitimate count of the fraud split is the
    number of input transactions. *)
Theorem aggregation_totals_conserved (transactions : list Row) :
  (ChartsPanel.sumQ ChartsPanel.fraudPlusLegitimate
     (ChartsPanel.values (ChartsPanel.countryData transactions))
   == ChartsPanel.sumQ (fun t => amount (tx t)) transactions)%Q
  /\ (ChartsPanel.sumQ ChartsPanel.ce_total
        (ChartsPanel.values (ChartsPanel.countryData transactions))
      == ChartsPanel.sumQ (fun t => amount (tx t)) transactions)%Q
  /\ (ChartsPanel.fraudulentCount transactions
      + ChartsPanel.legitimateCount transactions
      = List.length transactions)%nat.
Proof.
  assert (E : forall c : Q, (c == 1)%Q -> forall f : Row -> Q,
             (forall t, f t == c * amount (tx t))%Q ->
             (ChartsPanel.sumQ f transactions
              == ChartsPanel.sumQ (fun t => amount (tx t)) transactions)%Q).
  { intros c Hc f Hf. unfold ChartsPanel.sumQ.
    induction transactions as [|t l IH]; cbn [fold_right]; [reflexivity|].
    rewrite IH, Hf, Hc. ring. }
  unfold ChartsPanel.countryData.
  split; [|split].
  - rewrite (sum_fold_countryStep ChartsPanel.fraudPlusLegitimate 0 1 1);
      unfold ChartsPanel.fraudPlusLegitimate; cbn; intros; try ring.
    rewrite Qplus_0_l. apply (E 1%Q); [reflexivity|].
    intros t. destruct (label t); ring.
  - rewrite (sum_fold_countryStep ChartsPanel.ce_total 1 0 0);
      cbn; intros; try ring.
    rewrite Qplus_0_l. apply (E 1%Q); [reflexivity|].
    intros t. destruct (label t); ring.
  - unfold ChartsPanel.fraudulentCount, ChartsPanel.legitimateCount.
    apply filter_length.
Qed.


(** ** Explanation items *)

(** C8, as the claim words it, fails for an item that offers both names of
    a pair: the alternative spelling wins, so the values held under the
    standard names are not the ones returned. *)
Lemma standard_names_not_preserved_when_both_present :
  ExplainModal.it_feature Sample.bothSpellings = ExplainModal.Value "amount"
  /\ ExplainModal.feature (ExplainModal.normalize Sample.bothSpellings) <> "amount"
  /\ ExplainModal.it_shap_value Sample.bothSpellings = ExplainModal.Value (1 # 10)
  /\ ~ (ExplainModal.shap_value (ExplainModal.normalize Sample.bothSpellings)
        == 1 # 10)%Q
  /\ ExplainModal.it_value Sample.bothSpellings
     = ExplainModal.Value (ExplainModal.RawNum 1)
  /\ ExplainModal.raw_value (ExplainModal.normalize Sample.bothSpellings)
     <> Some (ExplainModal.RawNum 1).
Proof.
  repeat split; try reflexivity; cbn; discriminate.
Qed.

(** C8, amended.  Normalisation maps every item to the one canonical
    shape.  A value held under [shapValue], [feature_name] or
    [feature_value] is the canonical shap value, feature name or raw value,
    whether or not the standard name of the pair is present too: the
    alternative spelling takes precedence.  When the alternative spelling of
    a pair is absent and the standard name holds a value, that value is
    preserved unchanged. *)
Theorem normalize_fields (it : ExplainModal.Item) :
  (forall v, ExplainModal.it_shapValue it = ExplainModal.Value v ->
             ExplainModal.shap_value (ExplainModal.normalize it) = v)
  /\ (forall n, ExplainModal.it_feature_name it = ExplainModal.Value n ->
                ExplainModal.feature (ExplainModal.normalize it) = n)
  /\ (forall v, ExplainModal.it_feature_value it = ExplainModal.Value v ->
                ExplainModal.raw_value (ExplainModal.normalize it) = Some v)
  /\ (forall v, ExplainModal.it_shapValue it = ExplainModal.Undefined ->
                ExplainModal.it_shap_value it = ExplainModal.Value v ->
                ExplainModal.shap_value (ExplainModal.normalize it) = v)
  /\ (forall n, ExplainModal.it_feature_name it = ExplainModal.Undefined ->
                ExplainModal.it_feature it = ExplainModal.Value n ->
                ExplainModal.feature (ExplainModal.normalize it) = n)
  /\ (forall v, ExplainModal.it_feature_value it = ExplainModal.Undefined ->
                ExplainModal.it_value it = ExplainModal.Value v ->
                ExplainModal.raw_value (ExplainModal.normalize it) = Some v).
Proof.
  unfold ExplainModal.normalize.
  repeat split; intros; repeat match goal with H : _ = _ |- _ => rewrite H end;
    reflexivity.
Qed.

Lemma normalize_fields_witness :
  ExplainModal.it_shapValue Sample.alternativeOnly = ExplainModal.Value (9 # 10)
  /\ ExplainModal.shap_value (ExplainModal.normalize Sample.alternativeOnly)
     = 9 # 10
  /\ ExplainModal.it_feature_name Sample.standardOnly = ExplainModal.Undefined
  /\ ExplainModal.it_feature Sample.standardOnly
     = ExplainModal.Value "cat__country_US"
  /\ ExplainModal.feature (ExplainModal.normalize Sample.standardOnly)
     = "cat__country_US".
Proof.
  assert (H1 : ExplainModal.it_shapValue Sample.alternativeOnly
               = ExplainModal.Value (9 # 10)) by reflexivity.
  assert (H2 : ExplainModal.it_feature_name Sample.standardOnly
               = ExplainModal.Undefined) by reflexivity.
  assert (H3 : ExplainModal.it_feature Sample.standardOnly
               = ExplainModal.Value "cat__country_US") by reflexivity.
  split; [exact H1|].
  split; [exact (proj1 (normalize_fields Sample.alternativeOnly) _ H1)|].
  split; [exact H2|]. split; [exact H3|].
  exact (proj1 (proj2 (proj2 (proj2 (proj2
           (normalize_fields Sample.standardOnly))))) _ H2 H3).
Defined.

(** * Further properties of the code *)

(** ** The filter panel *)

Section Toggle.

Lemma toggleMerchant_toggleCountry (sel : list string) (x : string) :
  FilterControls.toggleMerchant sel x = FilterControls.toggleCountry sel x.
Proof. reflexivity. Qed.

Lemma In_remove_string (sel : list string) (c x : string) :
  In x (filter (fun y => negb (String.eqb y c)) sel) <-> In x sel /\ x <> c.
Proof.
  rewrite filter_In, negb_true_iff, String.eqb_neq. tauto.
Qed.

Lemma toggleCountry_In (sel : list string) (c x : string) :
  In x (FilterControls.toggleCountry sel c)
  <-> (x = c /\ ~ In c sel) \/ (x <> c /\ In x sel).
Proof.
  unfold FilterControls.toggleCountry.
  destruct (Js.arrayIncludes sel c) eqn:E.
  - apply arrayIncludes_iff in E. rewrite In_remove_string.
    destruct (string_dec x c); subst; tauto.
  - assert (N : ~ In c sel) by (rewrite <- arrayIncludes_iff; congruence).
    rewrite in_app_iff. cbn [In].
    destruct (string_dec x c) as [->|D]; [tauto|].
    split; [intros [H|[H|[]]]; [tauto | congruence] | tauto].
Qed.

Lemma filter_all {A : Type} (p : A -> bool) (l : list A) :
  (forall x, In x l -> p x = true) -> filter p l = l.
Proof.
  induction l as [|x l IH]; intros H; auto. cbn [filter].
  rewrite (H x) by now left. f_equal. apply IH. intros y Hy. apply H. now right.
Qed.

End Toggle.

(** X1.  Toggling a country (or a merchant, which runs the same code) flips
    whether it is selected and leaves the selection of every other entry
    as it was; a selection without duplicates stays without duplicates. *)
Theorem toggle_flips_one_entry (sel : list string) (c : string) :
  (In c (FilterControls.toggleCountry sel c) <-> ~ In c sel)
  /\ (forall x, x <> c -> (In x (FilterControls.toggleCountry sel c) <-> In x sel))
  /\ (NoDup sel -> NoDup (FilterControls.toggleCountry sel c))
  /\ FilterControls.toggleMerchant sel c = FilterControls.toggleCountry sel c.
Proof.
  split; [rewrite toggleCountry_In; tauto|].
  split; [intros x D; rewrite toggleCountry_In; tauto|].
  split; [|reflexivity].
  intros Hnd. unfold FilterControls.toggleCountry.
  destruct (Js.arrayIncludes sel c) eqn:E.
  - now apply NoDup_filter.
  - assert (N : ~ In c sel) by (rewrite <- arrayIncludes_iff; congruence).
    apply NoDup_app; [exact Hnd | repeat constructor; intros [] |].
    intros x Hx [<-|[]]. contradiction.
Qed.

Lemma toggle_flips_one_entry_witness :
  "IN" <> "US"
  /\ NoDup ["US"; "IN"]
  /\ (In "IN" (FilterControls.toggleCountry ["US"; "IN"] "US") <-> In "IN" ["US"; "IN"])
  /\ NoDup (FilterControls.toggleCountry ["US"; "IN"] "US").
Proof.
  assert (H1 : "IN" <> "US") by discriminate.
  assert (H2 : NoDup ["US"; "IN"]).
  { repeat (constructor; [cbn; intuition discriminate|]). constructor. }
  split; [exact H1|]. split; [exact H2|].
  pose proof (toggle_flips_one_entry ["US"; "IN"] "US") as [_ [Hother [Hnd _]]].
  split; [exact (Hother "IN" H1) | exact (Hnd H2)].
Defined.

(** X2.  Toggling the same entry twice restores the selection: the selected
    entries are the same as before, and when the entry was not selected at
    the start the list itself is back, in its order. *)
Theorem toggle_twice_restores (sel : list string) (c : string) :
  (forall x, In x (FilterControls.toggleCountry (FilterControls.toggleCountry sel c) c)
             <-> In x sel)
  /\ (~ In c sel ->
      FilterControls.toggleCountry (FilterControls.toggleCountry sel c) c = sel).
Proof.
  split.
  - intros x. rewrite !toggleCountry_In.
    destruct (in_dec string_dec c sel);
      destruct (string_dec x c) as [->|D]; tauto.
  - intros N. unfold FilterControls.toggleCountry at 2.
    replace (Js.arrayIncludes sel c) with false
      by (symmetry; rewrite <- not_true_iff_false, arrayIncludes_iff; exact N).
    unfold FilterControls.toggleCountry.
    replace (Js.arrayIncludes (sel ++ [c]) c) with true
      by (symmetry; apply arrayIncludes_iff, in_or_app; right; now left).
    rewrite filter_app. cbn [filter]. rewrite String.eqb_refl. cbn [negb].
    rewrite app_nil_r. apply filter_all.
    intros x Hx. rewrite negb_true_iff, String.eqb_neq. congruence.
Qed.

Lemma toggle_twice_restores_witness :
  ~ In "GB" ["US"; "IN"]
  /\ FilterControls.toggleCountry (FilterControls.toggleCountry ["US"; "IN"] "GB") "GB"
     = ["US"; "IN"].
Proof.
  assert (H : ~ In "GB" ["US"; "IN"]) by (cbn; intuition discriminate).
  split; [exact H|].
  exact (proj2 (toggle_twice_restores ["US"; "IN"] "GB") H).
Defined.

(** X3.  Whatever the range was and whatever date is typed, the range that
    either date input hands to the page is ordered: when both ends are set,
    "from" is not after "to".  The "from" input always stores the typed
    date; the "to" input never changes "from". *)
Theorem date_inputs_keep_range_ordered (r : FilterControls.DateRange)
        (value : option Z) :
  (forall f t,
      FilterControls.from (FilterControls.handleFromChange r value) = Some f ->
      FilterControls.to (FilterControls.handleFromChange r value) = Some t ->
      f <= t)
  /\ (forall f t,
         FilterControls.from (FilterControls.handleToChange r value) = Some f ->
         FilterControls.to (FilterControls.handleToChange r value) = Some t ->
         f <= t)
  /\ FilterControls.from (FilterControls.handleFromChange r value) = value
  /\ FilterControls.from (FilterControls.handleToChange r value)
     = FilterControls.from r.
Proof.
  unfold FilterControls.handleFromChange, FilterControls.handleToChange.
  destruct r as [rf rt]. cbn.
  repeat split.
  - intros f t -> Ht. destruct rt as [t0|]; [|discriminate].
    destruct (t0 <? f) eqn:E.
    + injection Ht as <-. lia.
    + injection Ht as <-. apply Z.ltb_ge in E. lia.
  - intros f t -> Ht. destruct value as [v|]; [|discriminate].
    destruct (v <? f) eqn:E.
    + injection Ht as <-. lia.
    + injection Ht as <-. apply Z.ltb_ge in E. lia.
Qed.

Lemma date_inputs_keep_range_ordered_witness :
  FilterControls.from
    (FilterControls.handleFromChange
       (FilterControls.mkDateRange (Some 100) (Some 200)) (Some 300)) = Some 300
  /\ FilterControls.to
       (FilterControls.handleFromChange
          (FilterControls.mkDateRange (Some 100) (Some 200)) (Some 300)) = Some 300
  /\ 300 <= 300.
Proof.
  assert (H1 : FilterControls.from
                 (FilterControls.handleFromChange
                    (FilterControls.mkDateRange (Some 100) (Some 200)) (Some 300))
               = Some 300) by reflexivity.
  assert (H2 : FilterControls.to
                 (FilterControls.handleFromChange
                    (FilterControls.mkDateRange (Some 100) (Some 200)) (Some 300))
               = Some 300) by reflexivity.
  split; [exact H1|]. split; [exact H2|].
  exact (proj1 (date_inputs_keep_range_ordered
                  (FilterControls.mkDateRange (Some 100) (Some 200)) (Some 300))
               300 300 H1 H2).
Defined.

(** ** Dates, pages and buttons *)

Section Pages.

Variable h : Host.

Lemma passesAll_dates (f : FilterSpec) (t : Row) :
  passesAll h f t
  = passesAll h (updateFilters (DateRangeChanged None None) f) t
    && (match dateFrom f with
        | Some d => setHoursStart h d <=? timestamp (tx t) | None => true end)
    && (match dateTo f with
        | Some d => timestamp (tx t) <=? setHoursEnd h d | None => true end).
Proof.
  unfold passesAll. cbn [updateFilters searchQuery amountRange selectedCountries
                           selectedMerchants fraudOnly dateFrom dateTo].
  now rewrite !andb_true_r.
Qed.

Lemma totalPages_spec (s : State) (p : Z) :
  0 < perPage s ->
  ((p - 1) * perPage s < total s <-> p <= totalPages s).
Proof.
  intros Hsize. unfold totalPages, Qceiling.
  assert (E : Qfloor (- (inject_Z (total s) / inject_Z (perPage s)))
              = (- total s) / perPage s).
  { rewrite Zdiv_Qdiv. apply Qfloor_comp.
    rewrite inject_Z_opp. field.
    intros Hz. unfold Qeq, inject_Z in Hz. cbn in Hz. lia. }
  rewrite E.
  pose proof (Z.div_mod (- total s) (perPage s) ltac:(lia)) as D.
  pose proof (Z.mod_pos_bound (- total s) (perPage s) Hsize) as B.
  split; intros H; nia.
Qed.

Lemma hasRows_page (l : list Row) (p size : Z) :
  1 <= p -> 0 < size ->
  (hasRows (firstn (Z.to_nat size) (skipn (Z.to_nat ((p - 1) * size)) l)) = true
   <-> (p - 1) * size < Z.of_nat (List.length l)).
Proof.
  intros Hp Hsize. unfold hasRows.
  rewrite Z.ltb_lt, length_firstn, length_skipn. nia.
Qed.

Lemma applyFilters_hasRows (s : State) (data : list Row) :
  1 <= page s -> 0 < perPage s ->
  (hasRows (transactions (applyFilters h s data)) = true
   <-> page s <= totalPages (applyFilters h s data)).
Proof.
  intros Hp Hsize.
  rewrite <- totalPages_spec by exact Hsize.
  rewrite applyFilters_transactions, slice_page by assumption.
  rewrite hasRows_page by assumption. reflexivity.
Qed.

Lemma goToPage_settled (p : Z) (s : State) :
  filtersEffect h (goToPage h p s) = goToPage h p s.
Proof. reflexivity. Qed.

End Pages.

(** X4.  With both ends of the date range set, the date passes compare
    local days: a row is kept exactly when it passes the other filters and
    its local day is neither before the local day of the from-date nor
    after the local day of the to-date.  The time of day of the two dates
    and of the row plays no part. *)
Theorem date_range_compares_local_days (h : Host) (f : FilterSpec)
        (data : list Row) (a b : Z) (t : Row) (ma mb mt : Z) :
  dateFrom f = Some a -> dateTo f = Some b ->
  isLocalMidnightOf h a ma ->
  isLocalMidnightOf h b mb ->
  isLocalMidnightOf h (timestamp (tx t)) mt ->
  (In t (filterRows h f data)
   <-> In t (filterRows h (updateFilters (DateRangeChanged None None) f) data)
       /\ ma <= mt <= mb).
Proof.
  intros Ha Hb Hma Hmb Hmt. rewrite !filterRows_filter, !filter_In.
  rewrite (passesAll_dates h f t), Ha, Hb, !andb_true_iff, !Z.leb_le.
  rewrite <- (localMidnight_unique h a ma Hma).
  unfold setHoursEnd. rewrite <- (localMidnight_unique h b mb Hmb).
  unfold isLocalMidnightOf, msPerDay in *.
  destruct Hma as [Da _], Hmb as [Db _], Hmt as [Dt Bt].
  apply Z.mod_divide in Da, Db, Dt; try lia.
  destruct Da as [ka Ka], Db as [kb Kb], Dt as [kt Kt].
  split; intros; intuition lia.
Qed.

Lemma date_range_compares_local_days_witness :
  dateFrom Sample.narrow = Some 1700000000000
  /\ dateTo Sample.narrow = Some 1700000000000
  /\ isLocalMidnightOf Sample.host 1700000000000 1699986600000
  /\ isLocalMidnightOf Sample.host (timestamp (tx Sample.row1)) 1699986600000
  /\ (In Sample.row1 (filterRows Sample.host Sample.narrow Sample.data)
      <-> In Sample.row1
             (filterRows Sample.host
                         (updateFilters (DateRangeChanged None None) Sample.narrow)
                         Sample.data)
          /\ 1699986600000 <= 1699986600000 <= 1699986600000).
Proof.
  assert (H1 : dateFrom Sample.narrow = Some 1700000000000) by reflexivity.
  assert (H2 : dateTo Sample.narrow = Some 1700000000000) by reflexivity.
  assert (H3 : isLocalMidnightOf Sample.host 1700000000000 1699986600000)
    by (split; [reflexivity | split; [vm_compute; discriminate | reflexivity]]).
  assert (H4 : isLocalMidnightOf Sample.host (timestamp (tx Sample.row1))
                                 1699986600000)
    by (split; [reflexivity | split; [vm_compute; discriminate | reflexivity]]).
  split; [exact H1|]. split; [exact H2|]. split; [exact H3|]. split; [exact H4|].
  exact (date_range_compares_local_days
           Sample.host Sample.narrow Sample.data
           1700000000000 1700000000000 Sample.row1
           1699986600000 1699986600000 1699986600000 H1 H2 H3 H3 H4).
Defined.

(** X5.  [totalPages] is the number of pages that have a row to show: after a
    run of the filter engine with a page index of at least 1 and a positive
    page size, the table has rows exactly when the page index does not
    exceed [totalPages]. *)
Theorem table_has_rows_up_to_totalPages (h : Host) (s : State) (data : list Row) :
  1 <= page s -> 0 < perPage s ->
  (hasRows (transactions (applyFilters h s data)) = true
   <-> page s <= totalPages (applyFilters h s data)).
Proof. apply applyFilters_hasRows. Qed.

Lemma table_has_rows_up_to_totalPages_witness :
  1 <= page Sample.pagedState
  /\ 0 < perPage Sample.pagedState
  /\ (hasRows (transactions
                 (applyFilters Sample.host Sample.pagedState Sample.data)) = true
      <-> page Sample.pagedState
          <= totalPages (applyFilters Sample.host Sample.pagedState Sample.data)).
Proof.
  assert (H1 : 1 <= page Sample.pagedState) by (vm_compute; discriminate).
  assert (H2 : 0 < perPage Sample.pagedState) by reflexivity.
  split; [exact H1|]. split; [exact H2|].
  exact (table_has_rows_up_to_totalPages Sample.host Sample.pagedState
                                         Sample.data H1 H2).
Defined.

(** X6.  The page buttons keep a valid page valid.  From a state the filter
    effect has settled, with a positive page size and a page index between
    1 and [totalPages], either button leads to a settled state whose page
    index is again between 1 and [totalPages] and whose table has rows;
    "previous" moves back by one unless on page 1, "next" moves on by one
    unless on the last page. *)
Theorem page_buttons_keep_page_valid (h : Host) (s : State) :
  filtersEffect h s = s ->
  0 < perPage s ->
  1 <= page s <= totalPages s ->
  (forall s', s' = onPreviousPage h s \/ s' = onNextPage h s ->
              filtersEffect h s' = s'
              /\ totalPages s' = totalPages s
              /\ 1 <= page s' <= totalPages s'
              /\ hasRows (transactions s') = true)
  /\ page (onPreviousPage h s) = Z.max 1 (page s - 1)
  /\ page (onNextPage h s) = Z.min (totalPages s) (page s + 1).
Proof.
  intros Hsettled Hsize Hpage.
  assert (Hgo : forall p, 1 <= p <= totalPages s ->
                  filtersEffect h (goToPage h p s) = goToPage h p s
                  /\ totalPages (goToPage h p s) = totalPages s
                  /\ 1 <= page (goToPage h p s) <= totalPages (goToPage h p s)
                  /\ hasRows (transactions (goToPage h p s)) = true).
  { intros p Hp.
    assert (T : totalPages (goToPage h p s) = totalPages s).
    { rewrite <- Hsettled at 2. reflexivity. }
    split; [reflexivity|]. split; [exact T|]. rewrite T.
    split; [exact Hp|].
    unfold goToPage, filtersEffect.
    apply applyFilters_hasRows; cbn [page perPage setPage]; try lia.
    change (totalPages (applyFilters h (setPage p s) (allTransactions (setPage p s))))
      with (totalPages (goToPage h p s)).
    rewrite T. lia. }
  assert (Hstay : filtersEffect h s = s
                  /\ totalPages s = totalPages s
                  /\ 1 <= page s <= totalPages s
                  /\ hasRows (transactions s) = true).
  { split; [exact Hsettled|]. split; [reflexivity|]. split; [exact Hpage|].
    rewrite <- Hsettled. unfold filtersEffect.
    apply applyFilters_hasRows; try lia.
    change (applyFilters h s (allTransactions s)) with (filtersEffect h s).
    rewrite Hsettled. lia. }
  split; [|split].
  - intros s' [->| ->].
    + unfold onPreviousPage. destruct (page s =? 1) eqn:E; [exact Hstay|].
      apply Hgo. apply Z.eqb_neq in E. lia.
    + unfold onNextPage. destruct (totalPages s <=? page s) eqn:E; [exact Hstay|].
      apply Hgo. apply Z.leb_gt in E. lia.
  - unfold onPreviousPage. destruct (page s =? 1) eqn:E.
    + apply Z.eqb_eq in E. lia.
    + reflexivity.
  - unfold onNextPage. destruct (totalPages s <=? page s) eqn:E.
    + apply Z.leb_le in E. lia.
    + reflexivity.
Qed.

Lemma page_buttons_keep_page_valid_witness :
  filtersEffect Sample.host Sample.onPage2 = Sample.onPage2
  /\ 0 < perPage Sample.onPage2
  /\ 1 <= page Sample.onPage2 <= totalPages Sample.onPage2
  /\ page (onPreviousPage Sample.host Sample.onPage2)
     = Z.max 1 (page Sample.onPage2 - 1).
Proof.
  assert (H1 : filtersEffect Sample.host Sample.onPage2 = Sample.onPage2)
    by reflexivity.
  assert (H2 : 0 < perPage Sample.onPage2) by reflexivity.
  assert (H3 : 1 <= page Sample.onPage2 <= totalPages Sample.onPage2)
    by (vm_compute; split; discriminate).
  split; [exact H1|]. split; [exact H2|]. split; [exact H3|].
  exact (proj1 (proj2 (page_buttons_keep_page_valid Sample.host Sample.onPage2
                                                    H1 H2 H3))).
Defined.

(** X7.  [resetFilters] puts every filter field back to its default and the
    page index back to 1, and what is then shown is the first page of the
    rows of the whole set whose amount lies in [0, 5000]; the whole set, the
    previous snapshot and the demo flag are not touched, and resetting
    again changes nothing. *)
Theorem resetFilters_shows_first_page (h : Host) (s : State) :
  0 < perPage s ->
  filters (resetFilters h s) = defaultFilters
  /\ page (resetFilters h s) = 1
  /\ total (resetFilters h s)
     = Z.of_nat (List.length (filter (amountMatch (0%Q, 5000%Q)) (allTransactions s)))
  /\ transactions (resetFilters h s)
     = firstn (Z.to_nat (perPage s))
              (filter (amountMatch (0%Q, 5000%Q)) (allTransactions s))
  /\ allTransactions (resetFilters h s) = allTransactions s
  /\ previousTransactionsRef (resetFilters h s) = previousTransactionsRef s
  /\ demoMode (resetFilters h s) = demoMode s
  /\ resetFilters h (resetFilters h s) = resetFilters h s.
Proof.
  intros Hsize. repeat split.
  exact (slice_page (filterRows h defaultFilters (allTransactions s))
                    1 (perPage s) ltac:(lia) Hsize).
Qed.

Lemma resetFilters_shows_first_page_witness :
  0 < perPage Sample.onPage2
  /\ page (resetFilters Sample.host Sample.onPage2) = 1
  /\ List.length (transactions (resetFilters Sample.host Sample.onPage2)) = 10%nat.
Proof.
  assert (H : 0 < perPage Sample.onPage2) by reflexivity.
  split; [exact H|].
  pose proof (resetFilters_shows_first_page Sample.host Sample.onPage2 H)
    as [_ [Hp [_ [Ht _]]]].
  split; [exact Hp|]. rewrite Ht. reflexivity.
Defined.

(** ** Demo mode, the refresh button and repeated refreshes *)

Section Buttons.

Lemma generated_ids (h : Host) (count offset : Z) (i : nat) (t : Row) :
  nth_error (generateMockTransactions h count offset) i = Some t ->
  rowId t = ("TX" ++ Js.numToString (offset + Z.of_nat i + 1))%string.
Proof.
  unfold generateMockTransactions. intros H.
  apply mockLoop_nth in H. subst t. reflexivity.
Qed.

Lemma fetchTransactions_loading (h : Host) (silent : bool) (r : Response)
      (s s' : State) :
  fetchTransactions h silent r s = Normal s' ->
  loading s' = if silent then loading s else false.
Proof.
  unfold fetchTransactions, tryBlock, catchBlock.
  destruct (awaitResults r) as [allData|]; destruct silent;
    cbn [negb andb]; intros H; injection H as <-; try reflexivity.
  cbn [previousTransactionsRef setAllTransactions].
  destruct (0 <? Z.of_nat (List.length (previousTransactionsRef s))); [|reflexivity].
  destruct (0 <? Z.of_nat (List.length
                (newHighRisk (previousTransactionsRef s) allData))); reflexivity.
Qed.

Lemma fetchTransactions_completes (h : Host) (silent : bool) (r : Response)
      (s : State) :
  exists s', fetchTransactions h silent r s = Normal s'.
Proof.
  destruct (awaitResults r) as [allData|] eqn:E.
  - destruct (fetchTransactions_success h silent r s allData E) as [s' [Hrun _]].
    now exists s'.
  - destruct (fetchTransactions_failure h silent r s E) as [s' [Hrun _]].
    now exists s'.
Qed.

Lemma newHighRisk_known_ids (previous allData : list Row) :
  (forall t, In t allData -> In (rowId t) (map rowId previous)) ->
  newHighRisk previous allData = [].
Proof.
  intros Hknown.
  destruct (newHighRisk previous allData) as [|x l] eqn:E; auto.
  assert (Hx : In x (newHighRisk previous allData)) by (rewrite E; now left).
  apply newHighRisk_In in Hx as [Hin [_ [_ Hnew]]].
  exfalso. apply Hnew, Hknown, Hin.
Qed.

End Buttons.

(** X8.  Entering demo mode shows one generated page: as many rows as the page
    size, with the ids "TX" followed by [(page-1)*pageSize + 1] onwards, and
    a total fixed at 50.  The whole set and the previous snapshot are left
    as they were, so the next filter change shows again what the whole set
    gives, as if the button had not been pressed, while the demo flag stays
    on. *)
Theorem demo_mode_shows_one_generated_page (h : Host) (r : Response) (s : State) :
  demoMode s = false ->
  0 <= perPage s ->
  exists s',
    onDemoToggle h r s = Normal s'
    /\ demoMode s' = true
    /\ total s' = 50
    /\ Z.of_nat (List.length (transactions s')) = perPage s
    /\ (forall i t, nth_error (transactions s') i = Some t ->
                    rowId t
                    = ("TX" ++ Js.numToString
                                 ((page s - 1) * perPage s + Z.of_nat i + 1))%string)
    /\ allTransactions s' = allTransactions s
    /\ previousTransactionsRef s' = previousTransactionsRef s
    /\ (forall ev,
           transactions (onFilterEvent h ev s') = transactions (onFilterEvent h ev s)
           /\ total (onFilterEvent h ev s') = total (onFilterEvent h ev s)
           /\ demoMode (onFilterEvent h ev s') = true).
Proof.
  intros Hlive Hsize. unfold onDemoToggle. rewrite Hlive. cbn [negb].
  eexists. split; [reflexivity|].
  cbn [demoMode total transactions allTransactions previousTransactionsRef
       setTotal setTransactions setDemoMode].
  split; [reflexivity|]. split; [reflexivity|].
  split.
  { unfold generateMockTransactions. rewrite mockLoop_length. lia. }
  split; [intros i t; apply generated_ids|].
  repeat split.
Qed.

Lemma demo_mode_shows_one_generated_page_witness :
  demoMode Sample.onPage2 = false
  /\ 0 <= perPage Sample.onPage2
  /\ exists s',
       onDemoToggle Sample.host NetworkError Sample.onPage2 = Normal s'
       /\ map rowId (transactions s')
          = ["TX11"; "TX12"; "TX13"; "TX14"; "TX15";
             "TX16"; "TX17"; "TX18"; "TX19"; "TX20"]
       /\ total s' = 50.
Proof.
  assert (H1 : demoMode Sample.onPage2 = false) by reflexivity.
  assert (H2 : 0 <= perPage Sample.onPage2) by (vm_compute; discriminate).
  split; [exact H1|]. split; [exact H2|].
  destruct (demo_mode_shows_one_generated_page Sample.host NetworkError
                                               Sample.onPage2 H1 H2)
    as [s' [Hrun [_ [Htotal _]]]].
  exists s'. split; [exact Hrun|]. split; [|exact Htotal].
  injection Hrun as <-. reflexivity.
Defined.

(** X9.  Leaving demo mode starts a refresh that reports its failure: when the
    fetch succeeds the page is live again on the fetched batch; when it
    fails the page is back in demo mode on 100 generated records, with one
    error notification. *)
Theorem leaving_demo_mode_refreshes (h : Host) (r : Response) (s : State) :
  demoMode s = true ->
  exists s',
    onDemoToggle h r s = Normal s'
    /\ allTransactions s' = installedSet h r
    /\ previousTransactionsRef s' = installedSet h r
    /\ loading s' = false
    /\ match awaitResults r with
       | Normal _ => demoMode s' = false /\ toasts s' = toasts s
       | Throw => demoMode s' = true /\ toasts s' = toasts s ++ [DemoDataToast]
       end.
Proof.
  intros Hdemo. unfold onDemoToggle, installedSet. rewrite Hdemo. cbn [negb].
  destruct (awaitResults r) as [allData|] eqn:E.
  - destruct (fetchTransactions_success h false r (setDemoMode false s) allData E)
      as [s' [Hrun [Hall [Hprev [Hd Ht]]]]].
    exists s'. split; [exact Hrun|]. split; [exact Hall|]. split; [exact Hprev|].
    split; [exact (fetchTransactions_loading _ _ _ _ _ Hrun)|].
    split; [exact Hd|]. rewrite Ht. apply app_nil_r.
  - destruct (fetchTransactions_failure h false r (setDemoMode false s) E)
      as [s' [Hrun [Hall [Hprev [Hd [Ht _]]]]]].
    exists s'. split; [exact Hrun|]. split; [exact Hall|]. split; [exact Hprev|].
    split; [exact (fetchTransactions_loading _ _ _ _ _ Hrun)|].
    split; [exact Hd | exact Ht].
Qed.

Lemma leaving_demo_mode_refreshes_witness :
  demoMode (setDemoMode true Sample.held) = true
  /\ exists s',
       onDemoToggle Sample.host NetworkError (setDemoMode true Sample.held)
       = Normal s'
       /\ demoMode s' = true
       /\ List.length (allTransactions s') = 100%nat.
Proof.
  assert (H : demoMode (setDemoMode true Sample.held) = true) by reflexivity.
  split; [exact H|].
  destruct (leaving_demo_mode_refreshes Sample.host NetworkError
                                        (setDemoMode true Sample.held) H)
    as [s' [Hrun [Hall [_ [_ [Hd _]]]]]].
  exists s'. split; [exact Hrun|]. split; [exact Hd|].
  rewrite Hall. reflexivity.
Defined.

(** X10.  The "Refresh" button raises its success notification whatever the
    fetch delivers: when the fetch fails, "Refreshed" is followed by the
    demo-data error.  In both cases the loading flag is off at the end. *)
Theorem refresh_button_always_reports_success (h : Host) (r : Response)
        (s : State) :
  exists s',
    onRefreshClick h r s = Normal s'
    /\ loading s' = false
    /\ toasts s'
       = toasts s ++ RefreshedToast
                     :: match awaitResults r with
                        | Normal _ => []
                        | Throw => [DemoDataToast]
                        end.
Proof.
  unfold onRefreshClick.
  destruct (awaitResults r) as [allData|] eqn:E.
  - destruct (fetchTransactions_success h false r (toast RefreshedToast s) allData E)
      as [s' [Hrun [_ [_ [_ Ht]]]]].
    exists s'. split; [exact Hrun|].
    split; [exact (fetchTransactions_loading _ _ _ _ _ Hrun)|].
    rewrite Ht. cbn. now rewrite app_nil_r.
  - destruct (fetchTransactions_failure h false r (toast RefreshedToast s) E)
      as [s' [Hrun [_ [_ [_ [Ht _]]]]]].
    exists s'. split; [exact Hrun|].
    split; [exact (fetchTransactions_loading _ _ _ _ _ Hrun)|].
    rewrite Ht. cbn. now rewrite <- app_assoc.
Qed.

(** X11.  A refresh that is not silent always ends with the loading flag off,
    whether the fetch succeeded or failed; a silent refresh leaves the flag
    as it found it. *)
Theorem refresh_settles_loading_flag (h : Host) (silent : bool) (r : Response)
        (s : State) :
  exists s',
    fetchTransactions h silent r s = Normal s'
    /\ loading s' = (if silent then loading s else false).
Proof.
  destruct (fetchTransactions_completes h silent r s) as [s' Hrun].
  exists s'. split; [exact Hrun|]. exact (fetchTransactions_loading _ _ _ _ _ Hrun).
Qed.

(** X12.  A row is reported at most once over consecutive refreshes: after a
    refresh that succeeded with some batch, a silent refresh whose batch
    brings no id that the first batch did not have raises no notification;
    in particular when the backend returns the same batch again. *)
Theorem no_second_notice_for_known_ids (h : Host) (silent : bool)
        (r1 r2 : Response) (s : State) (batch1 batch2 : list Row) :
  awaitResults r1 = Normal batch1 ->
  awaitResults r2 = Normal batch2 ->
  (forall t, In t batch2 -> In (rowId t) (map rowId batch1)) ->
  exists s1 s2,
    fetchTransactions h silent r1 s = Normal s1
    /\ fetchTransactions h true r2 s1 = Normal s2
    /\ toasts s2 = toasts s1
    /\ previousTransactionsRef s2 = batch2.
Proof.
  intros H1 H2 Hknown.
  destruct (fetchTransactions_success h silent r1 s batch1 H1)
    as [s1 [Hrun1 [_ [Hprev1 _]]]].
  destruct (fetchTransactions_success h true r2 s1 batch2 H2)
    as [s2 [Hrun2 [_ [Hprev2 [_ Ht]]]]].
  exists s1, s2. split; [exact Hrun1|]. split; [exact Hrun2|].
  split; [|exact Hprev2].
  rewrite Ht, Hprev1. unfold highRiskNotice.
  rewrite (newHighRisk_known_ids batch1 batch2 Hknown).
  destruct batch1; apply app_nil_r.
Qed.

Lemma no_second_notice_for_known_ids_witness :
  awaitResults (Sample.ok Sample.batchNew) = Normal Sample.batchNew
  /\ (forall t, In t Sample.batchNew ->
                In (rowId t) (map rowId Sample.batchNew))
  /\ exists s1 s2,
       fetchTransactions Sample.host true (Sample.ok Sample.batchNew) Sample.held
       = Normal s1
       /\ fetchTransactions Sample.host true (Sample.ok Sample.batchNew) s1
          = Normal s2
       /\ toasts s1 = [HighRiskToast 1]
       /\ toasts s2 = [HighRiskToast 1].
Proof.
  assert (H1 : awaitResults (Sample.ok Sample.batchNew) = Normal Sample.batchNew)
    by reflexivity.
  assert (H2 : forall t, In t Sample.batchNew ->
                         In (rowId t) (map rowId Sample.batchNew))
    by (intros t Ht; now apply in_map).
  split; [exact H1|]. split; [exact H2|].
  destruct (no_second_notice_for_known_ids
              Sample.host true (Sample.ok Sample.batchNew)
              (Sample.ok Sample.batchNew) Sample.held
              Sample.batchNew Sample.batchNew H1 H1 H2)
    as [s1 [s2 [Hrun1 [Hrun2 [Hsame _]]]]].
  exists s1, s2. split; [exact Hrun1|]. split; [exact Hrun2|].
  assert (T1 : toasts s1 = [HighRiskToast 1]) by (injection Hrun1 as <-; reflexivity).
  split; [exact T1|]. now rewrite Hsame.
Defined.

(** ** The other fields of the generated records *)

Section GeneratorFields.

Lemma pick_In (arr : list string) (r : Q) :
  arr <> [] -> (0 <= r /\ r < 1)%Q -> In (pick arr r) arr.
Proof.
  intros Hne [H0 H1]. unfold pick. apply nth_In.
  set (len := Z.of_nat (List.length arr)).
  assert (Hlen : 0 < len) by (unfold len; destruct arr; [congruence | cbn; lia]).
  assert (L : (0 <= Qfloor (r * inject_Z len))%Z).
  { change 0%Z with (Qfloor (inject_Z 0)). apply Qfloor_resp_le.
    assert (0 < inject_Z len)%Q by (change 0%Q with (inject_Z 0); rewrite <- Zlt_Qlt; exact Hlen).
    change (inject_Z 0) with 0%Q. nra. }
  assert (U : (Qfloor (r * inject_Z len) < len)%Z).
  { rewrite Zlt_Qlt. apply Qle_lt_trans with (r * inject_Z len)%Q.
    - apply Qfloor_le.
    - assert (P : (0 < inject_Z len)%Q)
        by (change 0%Q with (inject_Z 0); rewrite <- Zlt_Qlt; exact Hlen).
      apply Qlt_le_trans with (1 * inject_Z len)%Q.
      + apply Qmult_lt_compat_r; assumption.
      + rewrite Qmult_1_l. apply Qle_refl. }
  unfold len in *. lia.
Qed.

End GeneratorFields.

(** X13.  With draws in [0, 1), every generated record carries a country, a
    device and a merchant taken from the fixed lists (the ones the filter
    panel offers as buttons), a user id "U" followed by an integer from 0
    to 199, and the clock reading as its timestamp. *)
Theorem generated_fields_in_range (h : Host) (count offset : Z) (t : Row) :
  (forall k, 0 <= draws h k /\ draws h k < 1)%Q ->
  In t (generateMockTransactions h count offset) ->
  In (country (tx t)) FilterControls.COUNTRIES
  /\ In (merchant (tx t)) FilterControls.MERCHANTS
  /\ In (device (tx t)) ["mobile"; "desktop"]
  /\ (exists n, 0 <= n < 200 /\ user_id (tx t) = ("U" ++ Js.numToString n)%string)
  /\ timestamp (tx t) = clock h.
Proof.
  intros Hdraws Hin. apply In_nth_error in Hin as [i Hi].
  unfold generateMockTransactions in Hi. apply mockLoop_nth in Hi. subst t.
  cbn [mockRecord tx country merchant device user_id timestamp].
  split; [apply pick_In; [discriminate | apply Hdraws]|].
  split; [apply pick_In; [discriminate | apply Hdraws]|].
  split; [apply pick_In; [discriminate | apply Hdraws]|].
  split; [|reflexivity].
  exists (Qfloor (draws h (7 * i + 2)%nat * 200)). split; [|reflexivity].
  destruct (Hdraws (7 * i + 2)%nat) as [H0 H1]. split.
  - change 0%Z with (Qfloor (inject_Z 0)). apply Qfloor_resp_le.
    change (inject_Z 0) with 0%Q. lra.
  - rewrite Zlt_Qlt. apply Qle_lt_trans with (draws h (7 * i + 2)%nat * 200)%Q.
    + apply Qfloor_le.
    + change (inject_Z 200) with 200%Q. lra.
Qed.

Lemma generated_fields_in_range_witness :
  (forall k, 0 <= draws Sample.hostCycle k /\ draws Sample.hostCycle k < 1)%Q
  /\ (forall t, In t (generateMockTransactions Sample.hostCycle 3 0) ->
                In (country (tx t)) FilterControls.COUNTRIES).
Proof.
  assert (H : forall k, (0 <= draws Sample.hostCycle k
                         /\ draws Sample.hostCycle k < 1)%Q).
  { intros k. cbn [draws Sample.hostCycle]. unfold Qle, Qlt. cbn [Qnum Qden].
    pose proof (Nat.mod_upper_bound k 10 ltac:(discriminate)). lia. }
  split; [exact H|].
  intros t Ht.
  exact (proj1 (generated_fields_in_range Sample.hostCycle 3 0 t H Ht)).
Defined.

(** ** Sorting *)

Section Sorting.

Context {A : Type} (compare : A -> A -> Q).

Lemma insert_perm (x : A) (l : list A) :
  Permutation (Builtins.insert compare x l) (x :: l).
Proof.
  induction l as [|y l IH]; cbn [Builtins.insert]; auto.
  destruct (Qle_bool (compare x y) 0); auto.
  rewrite IH. apply perm_swap.
Qed.

Lemma sort_perm (l : list A) : Permutation (Builtins.sort compare l) l.
Proof.
  induction l as [|x l IH]; cbn [Builtins.sort fold_right]; auto.
  fold (Builtins.sort compare l). now rewrite insert_perm, IH.
Qed.

Lemma sort_In (l : list A) (x : A) : In x (Builtins.sort compare l) <-> In x l.
Proof.
  split; apply Permutation_in; [|symmetry]; apply sort_perm.
Qed.

(** Sortedness, for a comparator that decides a transitive order on the
    elements that satisfy [dom]. *)
Variable le : A -> A -> Prop.
Variable dom : A -> Prop.
Hypothesis le_trans : forall a b c, le a b -> le b c -> le a c.
Hypothesis compare_le :
  forall a b, dom a -> dom b -> Qle_bool (compare a b) 0 = true -> le a b.
Hypothesis compare_gt :
  forall a b, dom a -> dom b -> Qle_bool (compare a b) 0 = false -> le b a.

Lemma insert_sorted (x : A) (l : list A) :
  dom x -> Forall dom l -> StronglySorted le l ->
  StronglySorted le (Builtins.insert compare x l).
Proof.
  intros Hx Hdom Hs. induction l as [|y l IH]; cbn [Builtins.insert].
  - repeat constructor.
  - inversion Hdom as [|? ? Hy Hl]; subst.
    apply StronglySorted_inv in Hs as [Hs Hall].
    destruct (Qle_bool (compare x y) 0) eqn:E.
    + assert (Hxy : le x y) by (apply compare_le; auto).
      constructor; [constructor; auto|].
      constructor; auto.
      rewrite Forall_forall in *. intros z Hz. eapply le_trans; eauto.
    + assert (Hyx : le y x) by (apply compare_gt; auto).
      constructor; [apply IH; auto|].
      rewrite Forall_forall in *. intros z Hz.
      apply (Permutation_in _ (insert_perm x l)) in Hz.
      destruct Hz as [<-|Hz]; auto.
Qed.

Lemma sort_sorted (l : list A) :
  Forall dom l -> StronglySorted le (Builtins.sort compare l).
Proof.
  induction l as [|x l IH]; intros Hdom.
  - constructor.
  - inversion Hdom as [|? ? Hx Hl]; subst.
    change (Builtins.sort compare (x :: l))
      with (Builtins.insert compare x (Builtins.sort compare l)).
    apply insert_sorted.
    + exact Hx.
    + apply Forall_forall. intros z Hz. apply (proj1 (sort_In l z)) in Hz.
      exact (proj1 (Forall_forall dom l) Hl z Hz).
    + apply IH, Hl.
Qed.

End Sorting.

Section SortedLists.

Context {A : Type} (f : A -> Z).

(** Two lists strictly increasing in [f] with the same elements are the
    same list. *)
Lemma strictly_sorted_unique (l1 l2 : list A) :
  StronglySorted (fun a b => f a < f b) l1 ->
  StronglySorted (fun a b => f a < f b) l2 ->
  (forall x, In x l1 <-> In x l2) ->
  l1 = l2.
Proof.
  revert l2. induction l1 as [|a l1 IH]; intros l2 H1 H2 Hsame.
  - destruct l2 as [|b l2]; auto.
    exfalso. apply (proj2 (Hsame b)). now left.
  - destruct l2 as [|b l2].
    { exfalso. apply (proj1 (Hsame a)). now left. }
    apply StronglySorted_inv in H1 as [H1 Ha].
    apply StronglySorted_inv in H2 as [H2 Hb].
    rewrite Forall_forall in Ha, Hb.
    assert (E : a = b).
    { destruct (proj1 (Hsame a) (or_introl eq_refl)) as [E|Hin]; auto.
      destruct (proj2 (Hsame b) (or_introl eq_refl)) as [E|Hin']; auto.
      specialize (Ha _ Hin'). specialize (Hb _ Hin). lia. }
    subst b. f_equal. apply IH; auto.
    intros x. split; intros Hx.
    + destruct (proj1 (Hsame x) (or_intror Hx)) as [<-|Hin]; auto.
      specialize (Ha _ Hx). lia.
    + destruct (proj2 (Hsame x) (or_intror Hx)) as [<-|Hin]; auto.
      specialize (Hb _ Hx). lia.
Qed.

(** A list weakly increasing in [f] on which [f] takes no value twice is
    strictly increasing. *)
Lemma sorted_nodup_strict (l : list A) :
  StronglySorted (fun a b => f a <= f b) l ->
  NoDup (map f l) ->
  StronglySorted (fun a b => f a < f b) l.
Proof.
  induction l as [|a l IH]; intros Hs Hnd; [constructor|].
  apply StronglySorted_inv in Hs as [Hs Ha].
  cbn [map] in Hnd. inversion Hnd as [|? ? Hnotin Hnd']; subst.
  constructor; auto.
  rewrite Forall_forall in *. intros x Hx.
  specialize (Ha _ Hx).
  assert (f x <> f a) by (intros E; apply Hnotin; rewrite <- E; now apply in_map).
  lia.
Qed.

Lemma sorted_filter (R : A -> A -> Prop) (p : A -> bool) (l : list A) :
  StronglySorted R l -> StronglySorted R (filter p l).
Proof.
  induction 1 as [|a l Hs IH Ha]; cbn [filter]; [constructor|].
  destruct (p a); auto. constructor; auto.
  rewrite Forall_forall in *. intros x Hx. apply filter_In in Hx. apply Ha, Hx.
Qed.

End SortedLists.

(** ** Accumulator objects and the group-by reductions *)

Section Grouping.

Context {K V T : Type} (eqb : K -> K -> bool).
Hypothesis eqb_spec : forall a b, eqb a b = true <-> a = b.

Variable key : T -> K.
Variable fresh : K -> V.
Variable update : T -> V -> V.

Lemma eqb_same (k : K) : eqb k k = true.
Proof. now apply eqb_spec. Qed.

Lemma eqb_other (a b : K) : a <> b -> eqb a b = false.
Proof. intros D. apply not_true_iff_false. now rewrite eqb_spec. Qed.

Lemma obj_get_None (o : list (K * V)) (k : K) :
  Obj.get eqb o k = None <-> ~ In k (map fst o).
Proof.
  induction o as [|[k' v] o IH]; cbn [Obj.get map fst In]; [tauto|].
  destruct (eqb k' k) eqn:E.
  - apply eqb_spec in E. split; [discriminate | tauto].
  - rewrite IH. assert (k' <> k) by (rewrite <- eqb_spec; congruence). tauto.
Qed.

Lemma obj_get_In (o : list (K * V)) (k : K) (v : V) :
  NoDup (map fst o) -> In (k, v) o -> Obj.get eqb o k = Some v.
Proof.
  induction o as [|[k' v'] o IH]; intros Hnd Hin; [contradiction|].
  cbn [map fst] in Hnd. inversion Hnd as [|? ? Hnotin Hnd']; subst.
  cbn [Obj.get]. destruct Hin as [E|Hin].
  - injection E as -> ->. now rewrite eqb_same.
  - rewrite eqb_other; auto.
    intros ->. apply Hnotin. change k with (fst (k, v)). now apply in_map.
Qed.

Lemma obj_get_Some_In (o : list (K * V)) (k : K) (v : V) :
  Obj.get eqb o k = Some v -> In (k, v) o.
Proof.
  induction o as [|[k' v'] o IH]; cbn [Obj.get]; [discriminate|].
  destruct (eqb k' k) eqn:E.
  - apply eqb_spec in E. intros H. injection H as ->. subst. now left.
  - intros H. right. auto.
Qed.

Lemma obj_get_app (o : list (K * V)) (k k' : K) (v : V) :
  Obj.get eqb (o ++ [(k', v)]) k
  = match Obj.get eqb o k with
    | Some w => Some w
    | None => if eqb k' k then Some v else None
    end.
Proof.
  induction o as [|[k0 v0] o IH]; cbn [Obj.get app]; [reflexivity|].
  destruct (eqb k0 k); auto.
Qed.

Lemma obj_get_modify (o : list (K * V)) (k k' : K) (f : V -> V) :
  Obj.get eqb (Obj.modify eqb o k' f) k
  = if eqb k' k then option_map f (Obj.get eqb o k) else Obj.get eqb o k.
Proof.
  induction o as [|[k0 v0] o IH]; cbn [Obj.get Obj.modify].
  - now destruct (eqb k' k).
  - destruct (eqb k0 k') eqn:E0; cbn [Obj.get].
    + apply eqb_spec in E0. subst k0. now destruct (eqb k' k).
    + rewrite IH. destruct (eqb k0 k) eqn:E1; auto.
      destruct (eqb k' k) eqn:E2; auto.
      apply eqb_spec in E1, E2. subst. rewrite eqb_same in E0. discriminate.
Qed.

Lemma obj_modify_modify (o : list (K * V)) (k : K) (f g : V -> V) :
  Obj.modify eqb (Obj.modify eqb o k f) k g
  = Obj.modify eqb o k (fun v => g (f v)).
Proof.
  induction o as [|[k0 v0] o IH]; cbn [Obj.modify]; auto.
  destruct (eqb k0 k) eqn:E; cbn [Obj.modify]; rewrite E; congruence.
Qed.

Lemma obj_keys_modify (o : list (K * V)) (k : K) (f : V -> V) :
  map fst (Obj.modify eqb o k f) = map fst o.
Proof.
  induction o as [|[k0 v0] o IH]; cbn [Obj.modify map fst]; auto.
  destruct (eqb k0 k); cbn [map fst]; congruence.
Qed.

Lemma get_groupStep (o : list (K * V)) (t : T) (k : K) :
  Obj.get eqb (Obj.groupStep eqb key fresh update o t) k
  = if eqb (key t) k
    then Some (update t (match Obj.get eqb o k with
                         | Some v => v
                         | None => fresh k
                         end))
    else Obj.get eqb o k.
Proof.
  unfold Obj.groupStep. rewrite obj_get_modify.
  destruct (eqb (key t) k) eqn:E.
  - apply eqb_spec in E. subst k.
    destruct (Obj.get eqb o (key t)) as [v|] eqn:G.
    + now rewrite G.
    + now rewrite obj_get_app, G, eqb_same.
  - destruct (Obj.get eqb o (key t)) as [v|] eqn:G; auto.
    rewrite obj_get_app, E. now destruct (Obj.get eqb o k).
Qed.

Lemma keys_groupStep (o : list (K * V)) (t : T) :
  NoDup (map fst o) -> NoDup (map fst (Obj.groupStep eqb key fresh update o t)).
Proof.
  intros Hnd. unfold Obj.groupStep. rewrite obj_keys_modify.
  destruct (Obj.get eqb o (key t)) eqn:G; auto.
  rewrite map_app. cbn [map fst]. apply obj_get_None in G.
  apply NoDup_app; [exact Hnd | repeat constructor; intros [] |].
  intros x Hx [<-|[]]. contradiction.
Qed.

Lemma keys_fold (l : list T) :
  forall o, NoDup (map fst o) -> NoDup (map fst (fold_left (Obj.groupStep eqb key fresh update) l o)).
Proof.
  induction l as [|t l IH]; intros o Hnd; cbn [fold_left]; auto.
  apply IH, keys_groupStep, Hnd.
Qed.

(** The entry of a key after the reduction: none when no element has the
    key, otherwise the updates of the elements of that key, applied in
    order to a fresh entry. *)
Lemma get_fold (l : list T) (k : K) :
  forall o,
    Obj.get eqb (fold_left (Obj.groupStep eqb key fresh update) l o) k
    = match filter (fun t => eqb (key t) k) l with
      | [] => Obj.get eqb o k
      | rows =>
          Some (fold_left (fun v t => update t v) rows
                          (match Obj.get eqb o k with
                           | Some v => v
                           | None => fresh k
                           end))
      end.
Proof.
  induction l as [|t l IH]; intros o; cbn [fold_left filter]; [reflexivity|].
  rewrite IH, get_groupStep.
  destruct (eqb (key t) k) eqn:E.
  - now destruct (filter (fun t0 => eqb (key t0) k) l).
  - reflexivity.
Qed.

End Grouping.

(** ** The chart by country *)

Section CountryChart.

Lemma string_eqb_spec (a b : string) : String.eqb a b = true <-> a = b.
Proof. apply String.eqb_eq. Qed.

Lemma cp_get (acc : ChartsPanel.Acc) (k : string) :
  ChartsPanel.get acc k = Obj.get String.eqb acc k.
Proof.
  induction acc as [|[k' e] acc IH]; cbn [ChartsPanel.get Obj.get]; auto;
    try now rewrite IH.
Qed.

Lemma cp_modify (acc : ChartsPanel.Acc) (k : string)
      (f : ChartsPanel.CountryEntry -> ChartsPanel.CountryEntry) :
  ChartsPanel.modify acc k f = Obj.modify String.eqb acc k f.
Proof.
  induction acc as [|[k' e] acc IH]; cbn [ChartsPanel.modify Obj.modify]; auto;
    try now rewrite IH.
Qed.

Lemma countryStep_group (acc : ChartsPanel.Acc) (t : Row) :
  ChartsPanel.countryStep acc t
  = Obj.groupStep String.eqb (fun t => country (tx t))
                  (fun c => ChartsPanel.mkCountryEntry c 0 0 0)
                  countryUpdate acc t.
Proof.
  unfold ChartsPanel.countryStep, Obj.groupStep, countryUpdate. cbv zeta.
  rewrite cp_get.
  set (acc1 := match Obj.get String.eqb acc (country (tx t)) with
               | Some _ => acc
               | None => _
               end).
  destruct (label t);
    rewrite (cp_modify (ChartsPanel.modify acc1 _ _)), (cp_modify acc1),
      obj_modify_modify; reflexivity.
Qed.

Lemma countryData_group (transactions : list Row) :
  ChartsPanel.countryData transactions
  = fold_left (Obj.groupStep String.eqb (fun t => country (tx t))
                             (fun c => ChartsPanel.mkCountryEntry c 0 0 0)
                             countryUpdate)
              transactions [].
Proof.
  unfold ChartsPanel.countryData. generalize (@nil (string * ChartsPanel.CountryEntry)).
  induction transactions as [|t l IH]; intros acc; cbn [fold_left]; auto.
  now rewrite countryStep_group, IH.
Qed.

(** The entry of a country, from the rows of that country in order. *)
Lemma country_entry_sums (rows : list Row) :
  forall e0,
    let e := fold_left (fun e t => countryUpdate t e) rows e0 in
    ChartsPanel.ce_country e = ChartsPanel.ce_country e0
    /\ (ChartsPanel.ce_total e
        == ChartsPanel.ce_total e0
           + ChartsPanel.sumQ (fun t => amount (tx t)) rows)%Q
    /\ (ChartsPanel.ce_fraud e
        == ChartsPanel.ce_fraud e0
           + ChartsPanel.sumQ (fun t => amount (tx t)) (Charts.flagged rows))%Q
    /\ (ChartsPanel.ce_legitimate e
        == ChartsPanel.ce_legitimate e0
           + ChartsPanel.sumQ (fun t => amount (tx t))
                              (filter (fun t => negb (label t)) rows))%Q.
Proof.
  unfold ChartsPanel.sumQ, Charts.flagged.
  induction rows as [|t rows IH]; intros e0; cbn [fold_left filter fold_right].
  - repeat split; ring.
  - destruct (IH (countryUpdate t e0)) as [Hc [Ht [Hf Hl]]].
    cbv zeta in *. rewrite Hc, Ht, Hf, Hl. unfold countryUpdate.
    destruct (label t); cbn; repeat split; ring.
Qed.

Lemma round_bounds (x : Q) :
  (x - (1 # 2) < inject_Z (Builtins.round x)
   /\ inject_Z (Builtins.round x) <= x + (1 # 2))%Q.
Proof.
  unfold Builtins.round.
  pose proof (Qfloor_le (x + (1 # 2))) as L.
  pose proof (Qlt_floor (x + (1 # 2))) as U.
  rewrite inject_Z_plus in U. change (inject_Z 1) with 1%Q in U.
  split; lra.
Qed.

Lemma country_split_sum (transactions : list Row) :
  (ChartsPanel.sumQ ChartsPanel.fraudPlusLegitimate
     (ChartsPanel.values (ChartsPanel.countryData transactions))
   == ChartsPanel.sumQ (fun t => amount (tx t)) transactions)%Q.
Proof.
  unfold ChartsPanel.countryData.
  rewrite (sum_fold_countryStep ChartsPanel.fraudPlusLegitimate 0 1 1);
    unfold ChartsPanel.fraudPlusLegitimate; cbn; intros; try ring.
  rewrite Qplus_0_l. unfold ChartsPanel.sumQ.
  induction transactions as [|t l IH]; cbn [fold_right]; [reflexivity|].
  rewrite IH. destruct (label t); ring.
Qed.

End CountryChart.

(** X14.  The reduction by country groups the rows: there is one entry per
    country that occurs and none for a country that does not; the entry of
    a country carries that country, the sum of the amounts of its rows as
    total, the sum over its flagged rows as fraud and the sum over the
    others as legitimate, so that total = fraud + legitimate. *)
Theorem countryData_groups_rows (transactions : list Row) (c : string) :
  NoDup (map fst (ChartsPanel.countryData transactions))
  /\ (ChartsPanel.get (ChartsPanel.countryData transactions) c = None
      <-> Charts.rowsOfCountry c transactions = [])
  /\ (forall e,
         ChartsPanel.get (ChartsPanel.countryData transactions) c = Some e ->
         ChartsPanel.ce_country e = c
         /\ (ChartsPanel.ce_total e
             == ChartsPanel.sumQ (fun t => amount (tx t))
                                 (Charts.rowsOfCountry c transactions))%Q
         /\ (ChartsPanel.ce_fraud e
             == ChartsPanel.sumQ (fun t => amount (tx t))
                  (Charts.flagged (Charts.rowsOfCountry c transactions)))%Q
         /\ (ChartsPanel.ce_legitimate e
             == ChartsPanel.sumQ (fun t => amount (tx t))
                  (filter (fun t => negb (label t))
                          (Charts.rowsOfCountry c transactions)))%Q
         /\ (ChartsPanel.ce_total e
             == ChartsPanel.ce_fraud e + ChartsPanel.ce_legitimate e)%Q).
Proof.
  rewrite cp_get, countryData_group.
  split; [apply (keys_fold String.eqb string_eqb_spec); constructor|].
  rewrite (get_fold String.eqb string_eqb_spec). cbn [Obj.get].
  fold (Charts.rowsOfCountry c transactions).
  destruct (Charts.rowsOfCountry c transactions) as [|t rows] eqn:E.
  - split; [tauto | discriminate].
  - split; [split; discriminate|].
    intros e He. injection He as <-.
    pose proof (country_entry_sums (t :: rows)
                                   (ChartsPanel.mkCountryEntry c 0 0 0))
      as [Hc [Ht [Hf Hl]]].
    cbv zeta in *. cbn [ChartsPanel.ce_country ChartsPanel.ce_total
                        ChartsPanel.ce_fraud ChartsPanel.ce_legitimate]
      in Hc, Ht, Hf, Hl.
    rewrite Qplus_0_l in Ht, Hf, Hl.
    split; [exact Hc|]. split; [exact Ht|]. split; [exact Hf|].
    split; [exact Hl|].
    rewrite Ht, Hf, Hl. clear.
    unfold ChartsPanel.sumQ, Charts.flagged.
    induction (t :: rows) as [|x l IH]; cbn [filter fold_right]; [ring|].
    destruct (label x); cbn [negb fold_right]; rewrite IH; ring.
Qed.

Lemma countryData_groups_rows_witness :
  exists e,
    ChartsPanel.get (ChartsPanel.countryData Sample.data) "US" = Some e
    /\ ChartsPanel.ce_country e = "US"
    /\ (ChartsPanel.ce_total e
        == ChartsPanel.ce_fraud e + ChartsPanel.ce_legitimate e)%Q.
Proof.
  eexists. split; [vm_compute; reflexivity|].
  match goal with
  | |- ChartsPanel.ce_country ?e = _ /\ _ =>
      assert (H : ChartsPanel.get (ChartsPanel.countryData Sample.data) "US"
                  = Some e) by (vm_compute; reflexivity);
      pose proof (proj2 (proj2 (countryData_groups_rows Sample.data "US")) e H)
        as [Hc [_ [_ [_ Hsum]]]]
  end.
  split; [exact Hc | exact Hsum].
Defined.

Section CountryBars.

Lemma countryData_keys (transactions : list Row) :
  NoDup (map fst (ChartsPanel.countryData transactions)).
Proof.
  rewrite countryData_group.
  apply (keys_fold String.eqb string_eqb_spec). constructor.
Qed.

Lemma countryData_entry_country (transactions : list Row) (k : string)
      (e : ChartsPanel.CountryEntry) :
  In (k, e) (ChartsPanel.countryData transactions) ->
  ChartsPanel.get (ChartsPanel.countryData transactions) k = Some e
  /\ ChartsPanel.ce_country e = k.
Proof.
  intros Hin.
  assert (G : ChartsPanel.get (ChartsPanel.countryData transactions) k = Some e).
  { rewrite cp_get.
    apply (obj_get_In String.eqb string_eqb_spec); auto using countryData_keys. }
  split; [exact G|].
  rewrite cp_get, countryData_group in G.
  rewrite (get_fold String.eqb string_eqb_spec) in G. cbn [Obj.get] in G.
  destruct (filter _ transactions) as [|t rows]; [discriminate|].
  injection G as <-.
  exact (proj1 (country_entry_sums (t :: rows)
                                   (ChartsPanel.mkCountryEntry k 0 0 0))).
Qed.

Lemma bars_sum_bound (entries : list ChartsPanel.CountryEntry) :
  let bars :=
    ChartsPanel.sumQ
      (fun e => inject_Z (Builtins.round (ChartsPanel.ce_fraud e)
                          + Builtins.round (ChartsPanel.ce_legitimate e)))
      entries in
  let exact := ChartsPanel.sumQ ChartsPanel.fraudPlusLegitimate entries in
  let n := inject_Z (Z.of_nat (List.length entries)) in
  (exact - n <= bars /\ bars <= exact + n)%Q.
Proof.
  unfold ChartsPanel.sumQ, ChartsPanel.fraudPlusLegitimate.
  induction entries as [|e l IH]; cbn [fold_right List.length].
  - split; vm_compute; discriminate.
  - cbv zeta in *. rewrite Nat2Z.inj_succ. unfold Z.succ.
    rewrite !inject_Z_plus. change (inject_Z 1) with 1%Q.
    pose proof (round_bounds (ChartsPanel.ce_fraud e)).
    pose proof (round_bounds (ChartsPanel.ce_legitimate e)).
    lra.
Qed.

End CountryBars.

(** X15.  The chart by country has one bar per country of the data, in the order
    of the entries.  Each bar shows the fraud and legitimate sums of its
    country rounded to the nearest integer, so each is within 1/2 of the
    exact sum, and the bars add up to the sum of all the amounts up to one
    unit per country. *)
Theorem countryChartData_rounds_sums (transactions : list Row) :
  map Charts.cb_country (Charts.countryChartData transactions)
  = map fst (ChartsPanel.countryData transactions)
  /\ (forall bar,
         In bar (Charts.countryChartData transactions) ->
         exists e,
           ChartsPanel.get (ChartsPanel.countryData transactions)
                           (Charts.cb_country bar) = Some e
           /\ (ChartsPanel.ce_fraud e - (1 # 2) < inject_Z (Charts.cb_Fraud bar)
               /\ inject_Z (Charts.cb_Fraud bar)
                  <= ChartsPanel.ce_fraud e + (1 # 2))%Q
           /\ (ChartsPanel.ce_legitimate e - (1 # 2)
               < inject_Z (Charts.cb_Legitimate bar)
               /\ inject_Z (Charts.cb_Legitimate bar)
                  <= ChartsPanel.ce_legitimate e + (1 # 2))%Q)
  /\ (ChartsPanel.sumQ (fun t => amount (tx t)) transactions
      - inject_Z (Z.of_nat (List.length (Charts.countryChartData transactions)))
      <= ChartsPanel.sumQ
           (fun bar => inject_Z (Charts.cb_Fraud bar + Charts.cb_Legitimate bar))
           (Charts.countryChartData transactions)
      /\ ChartsPanel.sumQ
           (fun bar => inject_Z (Charts.cb_Fraud bar + Charts.cb_Legitimate bar))
           (Charts.countryChartData transactions)
         <= ChartsPanel.sumQ (fun t => amount (tx t)) transactions
            + inject_Z (Z.of_nat
                          (List.length (Charts.countryChartData transactions))))%Q.
Proof.
  unfold Charts.countryChartData, ChartsPanel.values.
  split; [|split].
  - rewrite !map_map. apply map_ext_in. intros [k e] Hin.
    cbn [Charts.cb_country snd fst].
    exact (proj2 (countryData_entry_country transactions k e Hin)).
  - intros bar Hbar. rewrite map_map in Hbar. apply in_map_iff in Hbar.
    destruct Hbar as [[k e] [<- Hin]].
    cbn [Charts.cb_country Charts.cb_Fraud Charts.cb_Legitimate snd].
    destruct (countryData_entry_country transactions k e Hin) as [G ->].
    exists e. split; [exact G|]. split; apply round_bounds.
  - pose proof (bars_sum_bound
                  (map snd (ChartsPanel.countryData transactions))) as B.
    cbv zeta in B. rewrite length_map in *.
    pose proof (country_split_sum transactions) as S.
    unfold ChartsPanel.values in S. rewrite S in B.
    assert (E : forall l : list ChartsPanel.CountryEntry,
               ChartsPanel.sumQ
                 (fun bar => inject_Z (Charts.cb_Fraud bar + Charts.cb_Legitimate bar))
                 (map (fun data =>
                         Charts.mkCountryBar
                           (ChartsPanel.ce_country data)
                           (Builtins.round (ChartsPanel.ce_fraud data))
                           (Builtins.round (ChartsPanel.ce_legitimate data))) l)
               = ChartsPanel.sumQ
                   (fun e => inject_Z (Builtins.round (ChartsPanel.ce_fraud e)
                                       + Builtins.round (ChartsPanel.ce_legitimate e)))
                   l).
    { unfold ChartsPanel.sumQ.
      induction l as [|x l IH]; cbn [map fold_right]; [reflexivity|].
      now rewrite IH. }
    rewrite E, !length_map. exact B.
Qed.

(** ** The chart by hour *)

Section HourChart.

Variable h : Host.

Lemma getHours_range (ts : Z) : 0 <= Charts.getHours h ts <= 23.
Proof.
  unfold Charts.getHours, msPerDay.
  pose proof (Z.mod_pos_bound (ts + tzOffset h) 86400000 ltac:(lia)) as B.
  split.
  - apply Z.div_pos; lia.
  - assert (((ts + tzOffset h) mod 86400000) / 3600000 < 24); [|lia].
    apply Z.div_lt_upper_bound; lia.
Qed.

Lemma z_eqb_spec (a b : Z) : Z.eqb a b = true <-> a = b.
Proof. apply Z.eqb_eq. Qed.

Lemma hourlyStep_group (acc : list (Z * Charts.HourEntry)) (t : Row) :
  Charts.hourlyStep h acc t
  = Obj.groupStep Z.eqb (fun t => Charts.getHours h (timestamp (tx t)))
                  (fun hr => Charts.mkHourEntry (Js.numToString hr ++ ":00") 0 0)
                  hourUpdate acc t.
Proof.
  unfold Charts.hourlyStep, Obj.groupStep, hourUpdate. cbv zeta.
  destruct (label t); [now rewrite obj_modify_modify | reflexivity].
Qed.

Lemma hourlyData_group (transactions : list Row) :
  Charts.hourlyData h transactions
  = fold_left (Obj.groupStep Z.eqb
                 (fun t => Charts.getHours h (timestamp (tx t)))
                 (fun hr => Charts.mkHourEntry (Js.numToString hr ++ ":00") 0 0)
                 hourUpdate)
              transactions [].
Proof.
  unfold Charts.hourlyData. generalize (@nil (Z * Charts.HourEntry)).
  induction transactions as [|t l IH]; intros acc; cbn [fold_left]; auto.
  now rewrite hourlyStep_group, IH.
Qed.

Lemma hour_entry_counts (rows : list Row) :
  forall e0,
    fold_left (fun e t => hourUpdate t e) rows e0
    = Charts.mkHourEntry
        (Charts.hour e0)
        (Charts.count e0 + Z.of_nat (List.length rows))
        (Charts.fraudCount e0 + Z.of_nat (List.length (Charts.flagged rows))).
Proof.
  unfold Charts.flagged.
  induction rows as [|t rows IH]; intros e0; cbn [fold_left filter List.length].
  - destruct e0. cbn. f_equal; lia.
  - rewrite IH. unfold hourUpdate.
    destruct (label t); cbn; f_equal; lia.
Qed.

Lemma hourlyData_get (transactions : list Row) (hr : Z) :
  Obj.get Z.eqb (Charts.hourlyData h transactions) hr
  = match Charts.rowsOfHour h hr transactions with
    | [] => None
    | _ => Some (Charts.hourEntryOf h transactions hr)
    end.
Proof.
  rewrite hourlyData_group, (get_fold Z.eqb z_eqb_spec). cbn [Obj.get].
  unfold Charts.hourEntryOf. fold (Charts.rowsOfHour h hr transactions).
  destruct (Charts.rowsOfHour h hr transactions) as [|t rows]; [reflexivity|].
  rewrite hour_entry_counts. reflexivity.
Qed.

Lemma hourlyData_keys (transactions : list Row) :
  NoDup (map fst (Charts.hourlyData h transactions)).
Proof.
  rewrite hourlyData_group. apply (keys_fold Z.eqb z_eqb_spec). constructor.
Qed.

End HourChart.

Section ParseHour.

Lemma digitsPrefix_uint (d : Decimal.uint) (rest : string) :
  Builtins.digitsPrefix (NilEmpty.string_of_uint d ++ rest)
  = (NilEmpty.string_of_uint d ++ Builtins.digitsPrefix rest)%string.
Proof.
  induction d; cbn [NilEmpty.string_of_uint append Builtins.digitsPrefix];
    try reflexivity;
    (replace (Builtins.isDigit _) with true by reflexivity); now rewrite IHd.
Qed.

Lemma parseInt_uint (d : Decimal.uint) :
  d <> Decimal.Nil ->
  Builtins.parseInt (NilEmpty.string_of_uint d ++ ":00") = Some (Z.of_uint d).
Proof.
  intros Hd.
  assert (P : Builtins.parseDigits (NilEmpty.string_of_uint d ++ ":00")
              = Some (Z.of_uint d)).
  { unfold Builtins.parseDigits. rewrite digitsPrefix_uint.
    change (Builtins.digitsPrefix ":00") with "". rewrite append_nil_r.
    destruct (NilEmpty.string_of_uint d) eqn:E.
    - destruct d; try discriminate. contradiction.
    - rewrite <- E, NilEmpty.usu. reflexivity. }
  destruct d; try contradiction; exact P.
Qed.

Lemma parseInt_hour (hr : Z) :
  0 <= hr -> Builtins.parseInt (Js.numToString hr ++ ":00") = Some hr.
Proof.
  intros Hhr. unfold Js.numToString.
  pose proof (DecimalZ.of_to hr) as R.
  destruct hr as [|p|p]; [reflexivity| |lia].
  cbn [Z.to_int] in *. cbn [Z.of_int] in R.
  unfold NilZero.string_of_int, NilZero.string_of_uint.
  pose proof (DecimalPos.Unsigned.to_uint_nonnil p) as N.
  destruct (Pos.to_uint p) eqn:E; try contradiction;
    rewrite <- E in *; rewrite parseInt_uint by exact N; now rewrite R.
Qed.

End ParseHour.

Section HourChartClosedForm.

Variable h : Host.
Variable transactions : list Row.

Lemma hourNumber_entry (hr : Z) :
  0 <= hr -> hourNumber (Charts.hourEntryOf h transactions hr) = hr.
Proof.
  intros Hhr. unfold hourNumber, Charts.hourEntryOf. cbn [Charts.hour].
  now rewrite parseInt_hour.
Qed.

Lemma rowsOfHour_nonempty (hr : Z) :
  Charts.rowsOfHour h hr transactions <> [] -> 0 <= hr <= 23.
Proof.
  intros Hne. destruct (Charts.rowsOfHour h hr transactions) as [|t rows] eqn:E;
    [congruence|].
  assert (Hin : In t (Charts.rowsOfHour h hr transactions)) by (rewrite E; now left).
  apply filter_In in Hin as [_ Ht]. apply Z.eqb_eq in Ht. subst hr.
  apply getHours_range.
Qed.

Lemma hourlyData_pairs (k : Z) (e : Charts.HourEntry) :
  In (k, e) (Charts.hourlyData h transactions)
  <-> Charts.rowsOfHour h k transactions <> []
      /\ e = Charts.hourEntryOf h transactions k.
Proof.
  split.
  - intros Hin.
    apply (obj_get_In Z.eqb z_eqb_spec) in Hin; [|apply hourlyData_keys].
    rewrite hourlyData_get in Hin.
    destruct (Charts.rowsOfHour h k transactions); [discriminate|].
    split; congruence.
  - intros [Hne ->]. apply (obj_get_Some_In Z.eqb z_eqb_spec).
    rewrite hourlyData_get.
    destruct (Charts.rowsOfHour h k transactions); congruence.
Qed.

Lemma hoursOfDay_In (k : Z) : In k Charts.hoursOfDay <-> 0 <= k <= 23.
Proof.
  unfold Charts.hoursOfDay. rewrite in_map_iff. split.
  - intros [n [<- Hn]]. apply in_seq in Hn. lia.
  - intros Hk. exists (Z.to_nat k). split; [lia|]. apply in_seq. lia.
Qed.

Lemma hasRows_nonempty (rows : list Row) : hasRows rows = true <-> rows <> [].
Proof.
  unfold hasRows. rewrite nonempty_test. destruct rows; split; congruence.
Qed.

Lemma occupiedHours_In (k : Z) :
  In k (occupiedHours h transactions)
  <-> Charts.rowsOfHour h k transactions <> [].
Proof.
  unfold occupiedHours. rewrite filter_In, hasRows_nonempty, hoursOfDay_In.
  split; [tauto|]. intros Hne. split; auto using rowsOfHour_nonempty.
Qed.

Lemma seq_strictly_sorted (a n : nat) :
  StronglySorted Z.lt (map Z.of_nat (seq a n)).
Proof.
  revert a. induction n as [|n IH]; intros a; cbn [seq map]; constructor; auto.
  apply Forall_forall. intros x Hx. apply in_map_iff in Hx as [m [<- Hm]].
  apply in_seq in Hm. lia.
Qed.

Lemma sorted_lt_NoDup (l : list Z) : StronglySorted Z.lt l -> NoDup l.
Proof.
  induction 1 as [|a l Hs IH Ha]; constructor; auto.
  intros Hin. rewrite Forall_forall in Ha. specialize (Ha _ Hin). lia.
Qed.

Lemma occupiedHours_sorted :
  StronglySorted Z.lt (occupiedHours h transactions).
Proof. apply sorted_filter, seq_strictly_sorted. Qed.

Lemma map_entries_sorted (ks : list Z) :
  (forall k, In k ks -> 0 <= k) ->
  StronglySorted Z.lt ks ->
  StronglySorted (fun a b => hourNumber a < hourNumber b)
                 (map (Charts.hourEntryOf h transactions) ks).
Proof.
  intros Hpos Hs. induction Hs as [|k ks Hs IH Hk]; cbn [map]; constructor.
  - apply IH. intros x Hx. apply Hpos. now right.
  - apply Forall_forall. intros e He. apply in_map_iff in He as [k' [<- Hk']].
    rewrite !hourNumber_entry by (apply Hpos; cbn; auto).
    rewrite Forall_forall in Hk. auto.
Qed.

Lemma compareHours_entries (a b : Charts.HourEntry) (ka kb : Z) :
  0 <= ka -> 0 <= kb ->
  a = Charts.hourEntryOf h transactions ka ->
  b = Charts.hourEntryOf h transactions kb ->
  (Qle_bool (Charts.compareHours a b) 0 = true <-> ka <= kb).
Proof.
  intros Ha Hb -> ->. unfold Charts.compareHours, Charts.hourEntryOf.
  cbn [Charts.hour]. rewrite !parseInt_hour by assumption.
  rewrite Qle_bool_iff. unfold Qle, inject_Z. cbn [Qnum Qden]. lia.
Qed.

Lemma indexValues_In {V : Type} (o : list (Z * V)) (v : V) :
  In v (Obj.indexValues o) <-> exists k, In (k, v) o.
Proof.
  unfold Obj.indexValues. rewrite in_map_iff. split.
  - intros [[k v'] [E Hin]]. cbn in E. subst v'. apply sort_In in Hin. eauto.
  - intros [k Hin]. exists (k, v). split; auto. now apply sort_In.
Qed.

Lemma hourlyChartData_In (e : Charts.HourEntry) :
  In e (Charts.hourlyChartData h transactions)
  <-> exists k, Charts.rowsOfHour h k transactions <> []
                /\ e = Charts.hourEntryOf h transactions k.
Proof.
  unfold Charts.hourlyChartData. rewrite sort_In, indexValues_In.
  split; intros [k Hk]; exists k; now apply hourlyData_pairs.
Qed.

Lemma hourlyChartData_sorted :
  StronglySorted (fun a b => hourNumber a < hourNumber b)
                 (Charts.hourlyChartData h transactions).
Proof.
  apply sorted_nodup_strict.
  - unfold Charts.hourlyChartData.
    apply (sort_sorted Charts.compareHours
             (fun a b => hourNumber a <= hourNumber b)
             (fun e => exists k, 0 <= k /\ e = Charts.hourEntryOf h transactions k)).
    + intros a b c; lia.
    + intros a b [ka [Ha Ea]] [kb [Hb Eb]] Hc.
      apply (compareHours_entries a b ka kb Ha Hb Ea Eb) in Hc.
      subst. now rewrite !hourNumber_entry.
    + intros a b [ka [Ha Ea]] [kb [Hb Eb]] Hc.
      assert (~ ka <= kb).
      { rewrite <- (compareHours_entries a b ka kb Ha Hb Ea Eb). congruence. }
      subst. rewrite !hourNumber_entry by assumption. lia.
    + apply Forall_forall. intros e He. apply indexValues_In in He as [k Hk].
      apply hourlyData_pairs in Hk as [Hne ->].
      exists k. split; auto. apply rowsOfHour_nonempty in Hne. lia.
  - apply (Permutation_NoDup (l := map fst (Charts.hourlyData h transactions)));
      [|apply hourlyData_keys].
    unfold Charts.hourlyChartData, Obj.indexValues. symmetry.
    eapply Permutation_trans; [apply Permutation_map, sort_perm|].
    rewrite map_map.
    eapply Permutation_trans; [apply Permutation_map, sort_perm|].
    rewrite (map_ext_in _ fst); [reflexivity|].
    intros [k e] Hin. cbn [fst snd].
    apply hourlyData_pairs in Hin as [Hne ->].
    apply hourNumber_entry. apply rowsOfHour_nonempty in Hne. lia.
Qed.

Lemma sumZ_count_one (ks : list Z) (k : Z) :
  NoDup ks -> In k ks ->
  sumZ (fun k' => if k =? k' then 1 else 0) ks = 1.
Proof.
  unfold sumZ. induction ks as [|x ks IH]; intros Hnd Hin; [contradiction|].
  inversion Hnd as [|? ? Hnotin Hnd']; subst. cbn [fold_right].
  destruct Hin as [->|Hin].
  - rewrite Z.eqb_refl.
    assert (Z0 : fold_right (fun x acc => (if k =? x then 1 else 0) + acc) 0 ks = 0).
    { clear -Hnotin. induction ks as [|y ks IH]; auto. cbn [fold_right].
      destruct (k =? y) eqn:E.
      - apply Z.eqb_eq in E. subst. exfalso. apply Hnotin. now left.
      - rewrite IH; auto. intros H. apply Hnotin. now right. }
    lia.
  - destruct (k =? x) eqn:E.
    + apply Z.eqb_eq in E. subst. contradiction.
    + rewrite IH; auto.
Qed.

End HourChartClosedForm.

Section CountingByKey.

Context {A : Type} (key : A -> Z).

Lemma sumZ_plus {B : Type} (f g : B -> Z) (l : list B) :
  sumZ (fun x => f x + g x) l = sumZ f l + sumZ g l.
Proof.
  unfold sumZ. induction l as [|x l IH]; cbn [fold_right]; lia.
Qed.

Lemma sumZ_ext {B : Type} (f g : B -> Z) (l : list B) :
  (forall x, In x l -> f x = g x) -> sumZ f l = sumZ g l.
Proof.
  unfold sumZ. induction l as [|x l IH]; intros H; cbn [fold_right]; auto.
  rewrite (H x) by now left. rewrite IH; auto. intros y Hy. apply H. now right.
Qed.

Lemma sumZ_filter {B : Type} (f : B -> Z) (p : B -> bool) (l : list B) :
  (forall x, In x l -> p x = false -> f x = 0) ->
  sumZ f (filter p l) = sumZ f l.
Proof.
  unfold sumZ. induction l as [|x l IH]; intros H; cbn [filter fold_right]; auto.
  destruct (p x) eqn:E; cbn [fold_right].
  - rewrite IH; auto. intros y Hy. apply H. now right.
  - rewrite (H x) by (auto; now left). rewrite IH; auto.
    intros y Hy. apply H. now right.
Qed.

(** Every element is counted under exactly one key. *)
Lemma count_by_key (ks : list Z) (l : list A) :
  NoDup ks -> (forall x, In x l -> In (key x) ks) ->
  sumZ (fun k => Z.of_nat (List.length (filter (fun x => key x =? k) l))) ks
  = Z.of_nat (List.length l).
Proof.
  intros Hnd. induction l as [|x l IH]; intros Hin.
  - unfold sumZ. cbn [filter List.length]. clear.
    induction ks as [|k ks IH]; cbn [fold_right]; [reflexivity|].
    rewrite IH. reflexivity.
  - rewrite (sumZ_ext _ (fun k => (if key x =? k then 1 else 0)
                                  + Z.of_nat (List.length
                                                (filter (fun y => key y =? k) l)))).
    + rewrite sumZ_plus, IH by (intros y Hy; apply Hin; now right).
      rewrite sumZ_count_one; auto; [cbn [List.length]; lia|].
      apply Hin. now left.
    + intros k _. cbn [filter]. destruct (key x =? k); cbn [List.length]; lia.
Qed.

End CountingByKey.

(** X16.  The chart by hour, in closed form: it has one point per hour of the
    day at which some row falls, in ascending order of the hour; the point
    of hour [k] is labelled "k:00" and carries the number of rows of that
    hour and the number of flagged ones.  Every row is counted at exactly
    one point. *)
Theorem hourlyChartData_closed_form (h : Host) (transactions : list Row) :
  Charts.hourlyChartData h transactions
  = map (Charts.hourEntryOf h transactions) (occupiedHours h transactions)
  /\ sumZ Charts.count (Charts.hourlyChartData h transactions)
     = Z.of_nat (List.length transactions)
  /\ sumZ Charts.fraudCount (Charts.hourlyChartData h transactions)
     = Z.of_nat (List.length (Charts.flagged transactions)).
Proof.
  assert (E : Charts.hourlyChartData h transactions
              = map (Charts.hourEntryOf h transactions)
                    (occupiedHours h transactions)).
  { apply (strictly_sorted_unique hourNumber).
    - apply hourlyChartData_sorted.
    - apply map_entries_sorted; [|apply occupiedHours_sorted].
      intros k Hk. apply (proj1 (occupiedHours_In h transactions k)) in Hk.
      apply rowsOfHour_nonempty in Hk. lia.
    - intros e. rewrite hourlyChartData_In, in_map_iff. split.
      + intros [k [Hne ->]]. exists k. split; auto.
        exact (proj2 (occupiedHours_In h transactions k) Hne).
      + intros [k [<- Hk]]. exists k. split; auto.
        exact (proj1 (occupiedHours_In h transactions k) Hk). }
  assert (Hnd : NoDup Charts.hoursOfDay).
  { apply sorted_lt_NoDup. unfold Charts.hoursOfDay. apply seq_strictly_sorted. }
  assert (S : forall (f : Charts.HourEntry -> Z) (g : Z -> Z) (ks : list Z),
             (forall k, f (Charts.hourEntryOf h transactions k) = g k) ->
             sumZ f (map (Charts.hourEntryOf h transactions) ks) = sumZ g ks).
  { intros f g ks Hfg. unfold sumZ.
    induction ks as [|k ks IH]; cbn [map fold_right]; auto.
    now rewrite Hfg, IH. }
  split; [exact E|]. rewrite E. split.
  - rewrite (S _ (fun k => Z.of_nat (List.length
                                       (Charts.rowsOfHour h k transactions))))
      by reflexivity.
    unfold occupiedHours. rewrite sumZ_filter.
    + apply (count_by_key (fun t => Charts.getHours h (timestamp (tx t))));
        auto.
      intros t _. apply hoursOfDay_In, getHours_range.
    + intros k _ Hk. unfold hasRows in Hk.
      rewrite nonempty_test in Hk.
      destruct (Charts.rowsOfHour h k transactions); [reflexivity | discriminate].
  - rewrite (S _ (fun k => Z.of_nat
                             (List.length
                                (Charts.rowsOfHour h k
                                   (Charts.flagged transactions))))).
    + unfold occupiedHours. rewrite sumZ_filter.
      * apply (count_by_key (fun t => Charts.getHours h (timestamp (tx t))));
          auto.
        intros t _. apply hoursOfDay_In, getHours_range.
      * intros k _ Hk. unfold hasRows in Hk. rewrite nonempty_test in Hk.
        unfold Charts.rowsOfHour, Charts.flagged in *.
        rewrite filter_filter.
        destruct (filter _ transactions) as [|t rows] eqn:F in Hk;
          [|discriminate].
        destruct (filter (fun x => label x && _) transactions) as [|t rows] eqn:G;
          auto.
        assert (Hin : In t (filter (fun x => label x
                     && (Charts.getHours h (timestamp (tx x)) =? k)) transactions))
          by (rewrite G; now left).
        apply filter_In in Hin as [Hin Hp]. apply andb_true_iff in Hp as [_ Hp].
        assert (Hin' : In t (filter (fun t => Charts.getHours h (timestamp (tx t)) =? k)
                                    transactions)) by (apply filter_In; auto).
        rewrite F in Hin'. contradiction.
    + intros k. unfold Charts.hourEntryOf. cbn [Charts.fraudCount].
      unfold Charts.flagged, Charts.rowsOfHour. rewrite !filter_filter.
      do 2 f_equal. apply filter_ext. intros t. apply andb_comm.
Qed.

(** ** The chart of the top merchants *)

Section MerchantChart.

Variable transactions : list Row.

Lemma merchantStep_group (acc : list (string * Charts.MerchantEntry)) (t : Row) :
  Charts.merchantStep acc t
  = Obj.groupStep String.eqb (fun t => merchant (tx t))
                  (fun m => Charts.mkMerchantEntry m 0 0)
                  merchantUpdate acc t.
Proof.
  unfold Charts.merchantStep, Obj.groupStep, merchantUpdate. cbv zeta.
  destruct (label t); [now rewrite obj_modify_modify | reflexivity].
Qed.

Lemma merchantData_group :
  Charts.merchantData transactions
  = fold_left (Obj.groupStep String.eqb (fun t => merchant (tx t))
                 (fun m => Charts.mkMerchantEntry m 0 0) merchantUpdate)
              transactions [].
Proof.
  unfold Charts.merchantData. generalize (@nil (string * Charts.MerchantEntry)).
  induction transactions as [|t l IH]; intros acc; cbn [fold_left]; auto.
  now rewrite merchantStep_group, IH.
Qed.

Lemma merchant_entry_counts (rows : list Row) :
  forall e0,
    fold_left (fun e t => merchantUpdate t e) rows e0
    = Charts.mkMerchantEntry
        (Charts.name e0)
        (Charts.value e0 + Z.of_nat (List.length rows))
        (Charts.fraud e0 + Z.of_nat (List.length (Charts.flagged rows))).
Proof.
  unfold Charts.flagged.
  induction rows as [|t rows IH]; intros e0; cbn [fold_left filter List.length].
  - destruct e0. cbn. f_equal; lia.
  - rewrite IH. unfold merchantUpdate.
    destruct (label t); cbn; f_equal; lia.
Qed.

Lemma merchantData_get (m : string) :
  Obj.get String.eqb (Charts.merchantData transactions) m
  = match Charts.rowsOfMerchant m transactions with
    | [] => None
    | _ => Some (Charts.merchantEntryOf transactions m)
    end.
Proof.
  rewrite merchantData_group, (get_fold String.eqb string_eqb_spec).
  cbn [Obj.get]. unfold Charts.merchantEntryOf.
  fold (Charts.rowsOfMerchant m transactions).
  destruct (Charts.rowsOfMerchant m transactions) as [|t rows]; [reflexivity|].
  rewrite merchant_entry_counts. reflexivity.
Qed.

Lemma merchantData_keys : NoDup (map fst (Charts.merchantData transactions)).
Proof.
  rewrite merchantData_group.
  apply (keys_fold String.eqb string_eqb_spec). constructor.
Qed.

Lemma merchantData_pairs (m : string) (e : Charts.MerchantEntry) :
  In (m, e) (Charts.merchantData transactions)
  <-> Charts.rowsOfMerchant m transactions <> []
      /\ e = Charts.merchantEntryOf transactions m.
Proof.
  split.
  - intros Hin.
    apply (obj_get_In String.eqb string_eqb_spec) in Hin; [|apply merchantData_keys].
    rewrite merchantData_get in Hin.
    destruct (Charts.rowsOfMerchant m transactions); [discriminate|].
    split; congruence.
  - intros [Hne ->]. apply (obj_get_Some_In String.eqb string_eqb_spec).
    rewrite merchantData_get.
    destruct (Charts.rowsOfMerchant m transactions); congruence.
Qed.

Lemma sorted_app_inv {A : Type} (R : A -> A -> Prop) (l1 l2 : list A) :
  StronglySorted R (l1 ++ l2) ->
  StronglySorted R l1 /\ (forall a b, In a l1 -> In b l2 -> R a b).
Proof.
  induction l1 as [|x l1 IH]; cbn [app]; intros Hs.
  - split; [constructor | contradiction].
  - apply StronglySorted_inv in Hs as [Hs Hx]. destruct (IH Hs) as [H1 H2].
    rewrite Forall_forall in Hx. split.
    + constructor; auto. apply Forall_forall. intros y Hy. apply Hx.
      apply in_or_app. now left.
    + intros a b [<-|Ha] Hb; auto. apply Hx, in_or_app. now right.
Qed.

Lemma slice_first {A : Type} (l : list A) (n : Z) :
  0 < n -> Js.slice l 0 n = firstn (Z.to_nat n) l.
Proof. intros Hn. exact (slice_page l 1 n ltac:(lia) Hn). Qed.

End MerchantChart.

(** X17.  The chart of the top merchants shows at most five merchants, each once,
    with the number of its rows and the number of flagged ones, in
    descending order of the number of rows; a merchant of the data that is
    not shown has no more rows than any merchant shown, and is left out
    only when five are shown. *)
Theorem merchantChartData_top_five (transactions : list Row) :
  (List.length (Charts.merchantChartData transactions) <= 5)%nat
  /\ (forall e, In e (Charts.merchantChartData transactions) ->
                Charts.rowsOfMerchant (Charts.name e) transactions <> []
                /\ e = Charts.merchantEntryOf transactions (Charts.name e))
  /\ StronglySorted (fun a b => Charts.value b <= Charts.value a)
                    (Charts.merchantChartData transactions)
  /\ NoDup (map Charts.name (Charts.merchantChartData transactions))
  /\ (forall m,
         Charts.rowsOfMerchant m transactions <> [] ->
         In (Charts.merchantEntryOf transactions m)
            (Charts.merchantChartData transactions)
         \/ (List.length (Charts.merchantChartData transactions) = 5%nat
             /\ forall e, In e (Charts.merchantChartData transactions) ->
                          Z.of_nat (List.length
                                      (Charts.rowsOfMerchant m transactions))
                          <= Charts.value e)).
Proof.
  unfold Charts.merchantChartData. rewrite slice_first by lia.
  change (Z.to_nat 5) with 5%nat.
  set (sorted := Builtins.sort (fun a b => inject_Z (Charts.value b - Charts.value a))
                               (Obj.values (Charts.merchantData transactions))).
  assert (Hs : StronglySorted (fun a b => Charts.value b <= Charts.value a) sorted).
  { apply (sort_sorted _ (fun a b => Charts.value b <= Charts.value a)
                       (fun _ => True)).
    - intros a b c; lia.
    - intros a b _ _ Hc. apply Qle_bool_iff in Hc.
      unfold Qle, inject_Z in Hc. cbn [Qnum Qden] in Hc. lia.
    - intros a b _ _ Hc. apply not_true_iff_false in Hc.
      rewrite Qle_bool_iff in Hc. unfold Qle, inject_Z in Hc.
      cbn [Qnum Qden] in Hc. lia.
    - apply Forall_forall. auto. }
  assert (Hin : forall e, In e sorted
                          <-> exists m, In (m, e) (Charts.merchantData transactions)).
  { intros e. unfold sorted, Obj.values. rewrite sort_In, in_map_iff. split.
    - intros [[m e'] [E H]]. cbn in E. subst. eauto.
    - intros [m H]. exists (m, e). auto. }
  assert (Hname : forall e, In e sorted ->
                    Charts.rowsOfMerchant (Charts.name e) transactions <> []
                    /\ e = Charts.merchantEntryOf transactions (Charts.name e)).
  { intros e He. apply Hin in He as [m Hm].
    apply merchantData_pairs in Hm as [Hne ->]. cbn [Charts.merchantEntryOf Charts.name].
    auto. }
  assert (Hnd : NoDup (map Charts.name sorted)).
  { apply (Permutation_NoDup (l := map fst (Charts.merchantData transactions)));
      [|apply merchantData_keys].
    unfold sorted, Obj.values. symmetry.
    eapply Permutation_trans; [apply Permutation_map, sort_perm|].
    rewrite map_map. rewrite (map_ext_in _ fst); [reflexivity|].
    intros [m e] H. cbn [fst snd].
    apply merchantData_pairs in H as [_ ->]. reflexivity. }
  rewrite <- (firstn_skipn 5 sorted) in Hs, Hnd.
  apply sorted_app_inv in Hs as [Hs Hcross].
  assert (Hsub : forall e, In e (firstn 5 sorted) -> In e sorted).
  { intros e He. rewrite <- (firstn_skipn 5 sorted). apply in_or_app. now left. }
  split; [apply firstn_le_length|].
  split; [intros e He; apply Hname, Hsub, He|].
  split; [exact Hs|].
  split.
  { rewrite map_app in Hnd. now apply NoDup_app_remove_r in Hnd. }
  intros m Hm.
  assert (He : In (Charts.merchantEntryOf transactions m) sorted).
  { apply Hin. exists m. now apply merchantData_pairs. }
  rewrite <- (firstn_skipn 5 sorted) in He. apply in_app_or in He as [He|He];
    [now left | right].
  split.
  - apply firstn_length_le.
    destruct (le_lt_dec 5 (List.length sorted)) as [Hl|Hl]; auto.
    rewrite skipn_all2 in He by lia. contradiction.
  - intros e Hin'. specialize (Hcross e _ Hin' He).
    cbn [Charts.merchantEntryOf Charts.value] in Hcross. exact Hcross.
Qed.

Lemma merchantChartData_top_five_witness :
  In (Charts.merchantEntryOf Sample.data "Amazon")
     (Charts.merchantChartData Sample.data)
  /\ Charts.rowsOfMerchant "Amazon" Sample.data <> [].
Proof.
  assert (H : In (Charts.merchantEntryOf Sample.data "Amazon")
                 (Charts.merchantChartData Sample.data))
    by (vm_compute; left; reflexivity).
  split; [exact H|].
  exact (proj1 (proj1 (proj2 (merchantChartData_top_five Sample.data)) _ H)).
Defined.

Lemma countryChartData_rounds_sums_witness :
  exists bar e,
    In bar (Charts.countryChartData Sample.data)
    /\ ChartsPanel.get (ChartsPanel.countryData Sample.data)
                       (Charts.cb_country bar) = Some e
    /\ (inject_Z (Charts.cb_Fraud bar) <= ChartsPanel.ce_fraud e + (1 # 2))%Q.
Proof.
  assert (H : In (Charts.mkCountryBar "US" 120 0)
                 (Charts.countryChartData Sample.data))
    by (vm_compute; left; reflexivity).
  destruct (proj1 (proj2 (countryChartData_rounds_sums Sample.data)) _ H)
    as [e [G [[_ Hf] _]]].
  exists (Charts.mkCountryBar "US" 120 0), e.
  split; [exact H|]. split; [exact G | exact Hf].
Defined.

(** ** Labels of features *)

Section Labels.

Lemma no_underscore_tail (c : ascii) (s : string) :
  ~ occursIn "_" (String c s) -> c <> "_"%char /\ ~ occursIn "_" s.
Proof.
  intros N. split.
  - intros ->. apply N. exists "", s. reflexivity.
  - intros [pre [suf ->]]. apply N. exists (String c pre), suf. reflexivity.
Qed.

Lemma split_app (col val : string) :
  ~ occursIn "_" col ->
  Builtins.split (col ++ String "_" val) "_" = col :: Builtins.split val "_".
Proof.
  induction col as [|c col IH]; intros N; cbn [append Builtins.split].
  - reflexivity.
  - apply no_underscore_tail in N as [Hc N].
    replace (Ascii.eqb c "_") with false
      by (symmetry; now apply Ascii.eqb_neq).
    now rewrite IH.
Qed.

Lemma split_nonempty (s : string) (c : ascii) : Builtins.split s c <> [].
Proof.
  destruct s as [|d s]; cbn [Builtins.split]; [discriminate|].
  destruct (Ascii.eqb d c); [discriminate|].
  now destruct (Builtins.split s c).
Qed.

(** Joining what a split produced gives the string back. *)
Lemma join_split (s : string) :
  Builtins.join (Builtins.split s "_") "_" = s.
Proof.
  unfold Builtins.join. induction s as [|d s IH]; [reflexivity|].
  cbn [Builtins.split]. destruct (Ascii.eqb d "_") eqn:E.
  - apply Ascii.eqb_eq in E. subst d.
    pose proof (split_nonempty s "_") as Hne.
    destruct (Builtins.split s "_") as [|p ps]; [congruence|].
    change (String.concat "_" ("" :: p :: ps))
      with (String "_" (String.concat "_" (p :: ps))).
    now rewrite IH.
  - pose proof (split_nonempty s "_") as Hne.
    destruct (Builtins.split s "_") as [|p ps]; [congruence|].
    rewrite <- IH. destruct ps; reflexivity.
Qed.

Lemma slice_tail {A : Type} (x : A) (l : list A) :
  Js.slice (x :: l) 1 (Z.of_nat (List.length (x :: l))) = l.
Proof.
  unfold Js.slice, Js.relIndex.
  replace (Z.of_nat (List.length (x :: l)) <? 0) with false
    by (symmetry; apply Z.ltb_ge; lia).
  change (1 <? 0) with false. cbv iota.
  rewrite Z.min_id, Z.min_l by (cbn [List.length]; lia).
  change (Z.to_nat 1) with 1%nat. cbn [skipn].
  apply firstn_all2. cbn [List.length]. lia.
Qed.

Lemma prefix_app (p s : string) : String.prefix p (p ++ s) = true.
Proof. apply prefix_iff. now exists s. Qed.

Lemma drop_app (p s : string) : Builtins.drop (String.length p) (p ++ s) = s.
Proof. induction p; [now destruct s | exact IHp]. Qed.

Lemma replace_prefix (p s replacement : string) :
  Builtins.replace (p ++ s) p replacement = (replacement ++ s)%string.
Proof.
  assert (U : forall s0,
             Builtins.replace s0 p replacement
             = if String.prefix p s0
               then (replacement ++ Builtins.drop (String.length p) s0)%string
               else match s0 with
                    | EmptyString => EmptyString
                    | String c s' => String c (Builtins.replace s' p replacement)
                    end)
    by (intros []; reflexivity).
  now rewrite U, prefix_app, drop_app.
Qed.

Lemma replaceAll_no_underscore (s : string) :
  ~ occursIn "_" (Builtins.replaceAll s "_" " ").
Proof.
  induction s as [|d s IH]; cbn [Builtins.replaceAll].
  - intros [pre [suf H]]. destruct pre; discriminate.
  - destruct (Ascii.eqb d "_") eqn:E.
    + cbn [append]. intros [pre [suf H]]. destruct pre as [|c pre].
      * discriminate.
      * injection H as _ H. apply IH. now exists pre, suf.
    + apply Ascii.eqb_neq in E. intros [pre [suf H]]. destruct pre as [|c pre].
      * injection H as H _. congruence.
      * injection H as _ H. apply IH. now exists pre, suf.
Qed.

End Labels.

(** X18.  The label of a feature undoes the naming convention of the model: for
    a categorical feature "cat__<column>_<value>" whose column has no
    underscore it is the column in upper case, " = " and the value, with
    the value left as it is; for a numeric feature "num__<name>" it is the
    name with every underscore turned into a space; the empty name stays
    empty. *)
Theorem humanLabel_undoes_convention :
  (forall col val,
      ~ occursIn "_" col ->
      Explain.humanLabel ("cat__" ++ col ++ "_" ++ val)
      = (Builtins.toUpperCase col ++ " = " ++ val)%string)
  /\ (forall name,
         Explain.humanLabel ("num__" ++ name) = Builtins.replaceAll name "_" " "
         /\ ~ occursIn "_" (Explain.humanLabel ("num__" ++ name)))
  /\ Explain.humanLabel "" = "".
Proof.
  split; [|split; [|reflexivity]].
  - intros col val N. unfold Explain.humanLabel.
    replace (Js.truthy ("cat__" ++ col ++ "_" ++ val)) with true by reflexivity.
    cbn [negb].
    replace (Builtins.startsWith ("cat__" ++ col ++ "_" ++ val) "num__")
      with false.
    2:{ symmetry. apply not_true_iff_false. unfold Builtins.startsWith.
        rewrite prefix_iff. intros [suf H]. discriminate. }
    unfold Builtins.startsWith. rewrite prefix_app, replace_prefix.
    cbv zeta. change ("" ++ col ++ "_" ++ val)%string
      with (col ++ String "_" val)%string.
    rewrite split_app by exact N. cbn [nth].
    rewrite slice_tail, join_split. reflexivity.
  - intros name.
    assert (E : Explain.humanLabel ("num__" ++ name)
                = Builtins.replaceAll name "_" " ").
    { unfold Explain.humanLabel.
      replace (Js.truthy ("num__" ++ name)) with true by reflexivity.
      cbn [negb]. unfold Builtins.startsWith.
      rewrite prefix_app, replace_prefix. reflexivity. }
    split; [exact E|]. rewrite E. apply replaceAll_no_underscore.
Qed.

Lemma humanLabel_undoes_convention_witness :
  ~ occursIn "_" "country"
  /\ Explain.humanLabel "cat__country_US" = "COUNTRY = US".
Proof.
  assert (N : ~ occursIn "_" "country").
  { intros H. apply includes_iff in H. discriminate. }
  split; [exact N|].
  exact (proj1 humanLabel_undoes_convention "country" "US" N).
Defined.

(** ** Bars and the dominant item *)

Section Bars.

Lemma barMax_pos (scale : Q) : (1 # 1000000 <= Explain.barMax scale)%Q.
Proof. unfold Explain.barMax. apply Q.le_max_r. Qed.

Lemma ratio_nonneg (value scale : Q) :
  (0 <= Qabs value / Explain.barMax scale * 100)%Q.
Proof.
  pose proof (barMax_pos scale) as M. pose proof (Qabs_nonneg value) as V.
  assert (0 <= / Explain.barMax scale)%Q by (apply Qinv_le_0_compat; lra).
  unfold Qdiv. apply Qmult_le_0_compat; [|lra].
  apply Qmult_le_0_compat; assumption.
Qed.

Lemma round_nonneg (x : Q) : (0 <= x)%Q -> 0 <= Builtins.round x.
Proof.
  intros Hx. unfold Builtins.round.
  change 0 with (Qfloor 0). apply Qfloor_resp_le. lra.
Qed.

Lemma round_mono (x y : Q) : (x <= y)%Q -> Builtins.round x <= Builtins.round y.
Proof. intros H. unfold Builtins.round. apply Qfloor_resp_le. lra. Qed.

Lemma magnitudeOrTiny_bounds (i : ExplainModal.Canonical) :
  (0 < Explain.magnitudeOrTiny i
   /\ Qabs (ExplainModal.shap_value i) <= Explain.magnitudeOrTiny i)%Q.
Proof.
  unfold Explain.magnitudeOrTiny.
  pose proof (Qabs_nonneg (ExplainModal.shap_value i)) as V.
  destruct (Qeq_bool (Qabs (ExplainModal.shap_value i)) 0) eqn:E.
  - apply Qeq_bool_iff in E. split; [reflexivity | rewrite E; discriminate].
  - apply Qeq_bool_neq in E. split; [|apply Qle_refl].
    apply Qle_lteq in V as [V|V]; [exact V | symmetry in V; contradiction].
Qed.

Lemma fold_max_ge (rest : list Q) :
  forall x, (x <= fold_left Qmax rest x)%Q
            /\ forall y, In y rest -> (y <= fold_left Qmax rest x)%Q.
Proof.
  induction rest as [|z rest IH]; intros x; cbn [fold_left].
  - split; [apply Qle_refl | contradiction].
  - destruct (IH (Qmax x z)) as [H1 H2]. split.
    + eapply Qle_trans; [apply Q.le_max_l | exact H1].
    + intros y [<-|Hy]; auto.
      eapply Qle_trans; [apply Q.le_max_r | exact H1].
Qed.

Lemma fold_max_le (rest : list Q) (b : Q) :
  forall x, (x <= b)%Q -> (forall y, In y rest -> (y <= b)%Q) ->
            (fold_left Qmax rest x <= b)%Q.
Proof.
  induction rest as [|z rest IH]; intros x Hx Hrest; cbn [fold_left]; auto.
  apply IH.
  - apply Q.max_lub; auto. apply Hrest. now left.
  - intros y Hy. apply Hrest. now right.
Qed.

Lemma maxAbs_bounds (items : list ExplainModal.Canonical) :
  (0 < Explain.maxAbs items)%Q
  /\ (forall i, In i items ->
                (Explain.magnitudeOrTiny i <= Explain.maxAbs items)%Q).
Proof.
  unfold Explain.maxAbs. destruct items as [|x items]; cbn [map].
  - split; [reflexivity | contradiction].
  - destruct (fold_max_ge (map Explain.magnitudeOrTiny items)
                          (Explain.magnitudeOrTiny x)) as [H1 H2].
    split.
    + eapply Qlt_le_trans; [apply magnitudeOrTiny_bounds | exact H1].
    + intros i [<-|Hi]; auto. apply H2. now apply in_map.
Qed.

Lemma width_full (value scale : Q) :
  (Explain.barMax scale == Qabs value)%Q ->
  Explain.widthPct value scale = 100.
Proof.
  intros E. unfold Explain.widthPct, Builtins.round.
  pose proof (barMax_pos scale) as M.
  assert (R : (Qabs value / Explain.barMax scale * 100 + (1 # 2) == 201 # 2)%Q).
  { rewrite <- E. field. lra. }
  rewrite (Qfloor_comp _ _ R). reflexivity.
Qed.

Lemma sorted_by_magnitude (items : list ExplainModal.Canonical) :
  StronglySorted (fun a b => (Qabs (ExplainModal.shap_value b)
                              <= Qabs (ExplainModal.shap_value a))%Q)
                 (Builtins.sort Explain.byMagnitude items).
Proof.
  apply (sort_sorted _ _ (fun _ => True)).
  - intros a b c H1 H2. eapply Qle_trans; eauto.
  - intros a b _ _ Hc. apply Qle_bool_iff in Hc.
    unfold Explain.byMagnitude in Hc. lra.
  - intros a b _ _ Hc. apply not_true_iff_false in Hc.
    rewrite Qle_bool_iff in Hc. unfold Explain.byMagnitude in Hc.
    apply Qnot_le_lt in Hc. lra.
  - apply Forall_forall. auto.
Qed.

End Bars.

(** X19.  Whatever value and scale a bar is given, its width is a percentage
    between 0 and 100; a value of 0 gives width 0; and of two values drawn
    at the same scale, the one of larger magnitude never has the shorter
    bar. *)
Theorem bar_width_is_a_percentage (value scale : Q) :
  0 <= Explain.widthPct value scale <= 100
  /\ ((value == 0)%Q -> Explain.widthPct value scale = 0)
  /\ (forall other,
         (Qabs value <= Qabs other)%Q ->
         Explain.widthPct value scale <= Explain.widthPct other scale).
Proof.
  unfold Explain.widthPct. split; [|split].
  - pose proof (round_nonneg _ (ratio_nonneg value scale)). lia.
  - intros E. unfold Builtins.round.
    pose proof (barMax_pos scale) as M.
    assert (R : (Qabs value / Explain.barMax scale * 100 + (1 # 2) == 1 # 2)%Q).
    { rewrite E. change (Qabs 0) with 0%Q. field. lra. }
    rewrite (Qfloor_comp _ _ R). reflexivity.
  - intros other Hle. apply Z.min_le_compat_l, round_mono.
    pose proof (barMax_pos scale) as M.
    assert (0 <= / Explain.barMax scale)%Q by (apply Qinv_le_0_compat; lra).
    unfold Qdiv. apply Qmult_le_compat_r; [|lra].
    apply Qmult_le_compat_r; assumption.
Qed.

Lemma bar_width_is_a_percentage_witness :
  (0 == 0)%Q
  /\ Explain.widthPct 0 (15 # 100) = 0
  /\ (Qabs (-8 # 100) <= Qabs (15 # 100))%Q
  /\ Explain.widthPct (-8 # 100) (15 # 100) <= Explain.widthPct (15 # 100) (15 # 100).
Proof.
  assert (H1 : (0 == 0)%Q) by reflexivity.
  assert (H2 : (Qabs (-8 # 100) <= Qabs (15 # 100))%Q) by (vm_compute; discriminate).
  pose proof (bar_width_is_a_percentage 0 (15 # 100)) as [_ [Hz _]].
  pose proof (bar_width_is_a_percentage (-8 # 100) (15 # 100)) as [_ [_ Hm]].
  split; [exact H1|]. split; [exact (Hz H1)|]. split; [exact H2|].
  exact (Hm (15 # 100) H2).
Defined.

(** X20.  The scale of the bars is positive and no item exceeds it, so every bar
    is drawn at its true proportion.  With at least one item, the summary
    names an item of the list whose magnitude no other item exceeds; when
    that magnitude is at least 0.0001 it is the scale itself and the bar of
    that item is full.  With no item there is nothing to name. *)
Theorem summary_names_the_dominant_item (items : list ExplainModal.Canonical) :
  (0 < Explain.maxAbs items)%Q
  /\ (forall i, In i items ->
                (Qabs (ExplainModal.shap_value i) <= Explain.maxAbs items)%Q)
  /\ (items = [] <-> Explain.top items = None)
  /\ (forall t,
         Explain.top items = Some t ->
         In t items
         /\ (forall i, In i items ->
                       (Qabs (ExplainModal.shap_value i)
                        <= Qabs (ExplainModal.shap_value t))%Q)
         /\ ((1 # 10000 <= Qabs (ExplainModal.shap_value t))%Q ->
             (Explain.maxAbs items == Qabs (ExplainModal.shap_value t))%Q
             /\ Explain.widthPct (ExplainModal.shap_value t)
                                 (Explain.maxAbs items) = 100)).
Proof.
  destruct (maxAbs_bounds items) as [Hpos Hmax].
  split; [exact Hpos|].
  split.
  { intros i Hi. eapply Qle_trans; [apply magnitudeOrTiny_bounds | auto]. }
  unfold Explain.top.
  pose proof (sort_perm Explain.byMagnitude items) as P.
  pose proof (sorted_by_magnitude items) as S.
  destruct (Builtins.sort Explain.byMagnitude items) as [|t rest] eqn:E.
  - apply Permutation_nil in P. subst items.
    split; [tauto | discriminate].
  - split.
    { split; [|discriminate]. intros ->.
      apply Permutation_sym, Permutation_nil in P. discriminate. }
    intros t' Ht. injection Ht as <-.
    apply StronglySorted_inv in S as [_ Hall]. rewrite Forall_forall in Hall.
    assert (Hin : In t items) by (apply (Permutation_in _ P); now left).
    assert (Hdom : forall i, In i items ->
                     (Qabs (ExplainModal.shap_value i)
                      <= Qabs (ExplainModal.shap_value t))%Q).
    { intros i Hi. apply (Permutation_in _ (Permutation_sym P)) in Hi.
      destruct Hi as [<-|Hi]; [apply Qle_refl | auto]. }
    split; [exact Hin|]. split; [exact Hdom|].
    intros Hbig.
    assert (Et : Explain.magnitudeOrTiny t = Qabs (ExplainModal.shap_value t)).
    { unfold Explain.magnitudeOrTiny.
      destruct (Qeq_bool (Qabs (ExplainModal.shap_value t)) 0) eqn:Z; auto.
      apply Qeq_bool_iff in Z. lra. }
    assert (Emax : (Explain.maxAbs items == Qabs (ExplainModal.shap_value t))%Q).
    { apply Qle_antisym.
      - unfold Explain.maxAbs.
        destruct items as [|x items]; [contradiction|]. cbn [map].
        assert (B : forall i, In i (x :: items) ->
                      (Explain.magnitudeOrTiny i
                       <= Qabs (ExplainModal.shap_value t))%Q).
        { intros i Hi. unfold Explain.magnitudeOrTiny.
          destruct (Qeq_bool _ 0); auto. }
        apply fold_max_le; [apply B; now left|].
        intros y Hy. apply in_map_iff in Hy as [i [<- Hi]]. apply B. now right.
      - rewrite <- Et. auto. }
    split; [exact Emax|].
    apply width_full. unfold Explain.barMax.
    replace (Qeq_bool (Explain.maxAbs items) 0) with false.
    + rewrite Q.max_l; [exact Emax|]. rewrite Emax. lra.
    + symmetry. apply not_true_iff_false. rewrite Qeq_bool_iff. lra.
Qed.

Lemma summary_names_the_dominant_item_witness :
  exists t,
    Explain.top (ExplainModal.items Sample.fallbackItems) = Some t
    /\ ExplainModal.feature t = "num__amount"
    /\ (1 # 10000 <= Qabs (ExplainModal.shap_value t))%Q
    /\ Explain.widthPct (ExplainModal.shap_value t)
                        (Explain.maxAbs (ExplainModal.items Sample.fallbackItems))
       = 100.
Proof.
  eexists.
  assert (H1 : Explain.top (ExplainModal.items Sample.fallbackItems)
               = Some (ExplainModal.mkCanonical
                         "num__amount" (15 # 100)
                         (Some (ExplainModal.RawNum 120))))
    by reflexivity.
  assert (H2 : (1 # 10000 <= Qabs (15 # 100))%Q) by (vm_compute; discriminate).
  split; [exact H1|]. split; [reflexivity|]. split; [exact H2|].
  exact (proj2 (proj2 (proj2 (proj2 (proj2 (proj2
           (summary_names_the_dominant_item
              (ExplainModal.items Sample.fallbackItems)))) _ H1)) H2)).
Defined.
